(** * AlgoTrendy metrics relay: a shallow embedding of the edge function
    (metrics-proxy-jwt v2.1.0), of the internal-token validator deployed in
    front of the metrics service, and the properties of the relay that the
    specification states about them.

    Conventions of the embedding.
    - JavaScript numbers are rationals ([Q]) that are doubles: counters
      and millisecond latencies are integers, and where the source divides,
      multiplies or adds numbers that need not be integers the result is
      rounded as IEEE 754 binary64 rounds it ([Double.RN]).
    - Wall-clock time is a component of the state, in milliseconds since the
      epoch; it advances only where the source awaits an outside party (the
      identity provider, an upstream call).  The time that passes between
      two clock reads of one run is a field of the environment; only the
      dates of the internal token depend on it.  ISO rendering of an instant
      is a field of the environment.
    - Outside parties (identity provider, upstream metrics service, the HMAC
      primitive, the session table) are fields of an environment record, so
      every theorem holds for all of their behaviours.
    - A string is the sequence of its code units, each taken to be below
      256; lengths and slices count those units. *)

From Stdlib Require Import ZArith QArith Qround Qabs String Ascii List Lia.
From stdpp Require Import gmap strings list fin_maps pretty sorting.

Local Open Scope list_scope.
Set Warnings "-register-all,-clear-no-such-hyp".

(** ** Double-precision arithmetic, as far as the relay uses it

    A finite double is an integer of at most 53 bits times a power of two
    that is not below 2^-1074; [+], [*] and [/] return the exact result
    rounded to the nearest double, ties to the even significand.  Overflow
    to Infinity is not represented: it needs magnitudes of 2^1024. *)

Module Double.

Definition pow2 (e : Z) : Q :=
  match e with
  | Z0 => 1
  | Zpos p => inject_Z (Z.pow_pos 2 p)
  | Zneg p => 1 # (Pos.pow 2 p)
  end.

(** [floor (log2 x)] of a positive rational: the difference of the bit
    lengths of numerator and denominator, or one less. *)
Definition ilog2 (x : Q) : Z :=
  let e0 := (Z.log2 (Qnum x) - Z.log2 (Zpos (Qden x)))%Z in
  if Qle_bool (pow2 e0) x then e0 else (e0 - 1)%Z.

(** The nearest integer, ties to the even one. *)
Definition nearest_even (q : Q) : Z :=
  let f := Qfloor q in
  match (q - inject_Z f ?= 1 # 2)%Q with
  | Lt => f
  | Gt => (f + 1)%Z
  | Eq => if Z.even f then f else (f + 1)%Z
  end.

(** The exponent of the unit in the last place of the double nearest to
    [x]; subnormal numbers share the exponent -1074. *)
Definition ulp_exponent (x : Q) : Z :=
  Z.max (ilog2 (Qabs x) - 52) (-1074).

(** Round to nearest, ties to even. *)
Definition RN (x : Q) : Q :=
  if Qeq_bool x 0 then 0%Q
  else
    let e := ulp_exponent x in
    Qred (inject_Z (nearest_even (x / pow2 e)) * pow2 e).

Definition add (a b : Q) : Q := RN (a + b).
Definition mul (a b : Q) : Q := RN (a * b).
Definition div (a b : Q) : Q := RN (a / b).

End Double.

(** ** Health monitor (module-level [healthState], [recordEndpointResult],
    [getHealthSnapshot]) *)

Module Health.

Definition HEALTH_WINDOW_SIZE : nat := 20.

Record EndpointHealthEntry := {
  endpoint : string;
  lastSuccess : option string;
  lastFailure : option string;
  successCount : nat;
  failureCount : nat;
  avgLatencyMs : Q;
  latencies : list Z
}.

Definition initEndpointHealth (ep : string) : EndpointHealthEntry :=
  {| endpoint := ep; lastSuccess := None; lastFailure := None;
     successCount := 0; failureCount := 0; avgLatencyMs := 0%Q;
     latencies := [] |}.

(** [latencies.reduce((a, b) => a + b, 0)] *)
Definition sum_latencies (l : list Z) : Q :=
  fold_left (fun a b => Double.add a (inject_Z b)) l 0%Q.

(** [push] followed by the guarded [shift] *)
Definition push_window (l : list Z) (latencyMs : Z) : list Z :=
  let l' := l ++ [latencyMs] in
  if Nat.ltb HEALTH_WINDOW_SIZE (length l') then tail l' else l'.

(** [... / entry.latencies.length], on a window that holds a latency *)
Definition window_average (l : list Z) : Q :=
  Double.div (sum_latencies l) (inject_Z (Z.of_nat (length l))).

(** The update of one entry; [iso] is [new Date().toISOString()] at the time
    of the call. *)
Definition update_entry (iso : string) (success : bool) (latencyMs : Z)
    (e : EndpointHealthEntry) : EndpointHealthEntry :=
  let w := push_window (latencies e) latencyMs in
  {| endpoint := endpoint e;
     lastSuccess := if success then Some iso else lastSuccess e;
     lastFailure := if success then lastFailure e else Some iso;
     successCount := if success then S (successCount e) else successCount e;
     failureCount := if success then failureCount e else S (failureCount e);
     avgLatencyMs := window_average w;
     latencies := w |}.

Definition recordEndpointResult (iso : string) (ep : string) (success : bool)
    (latencyMs : Z) (hs : gmap string EndpointHealthEntry)
  : gmap string EndpointHealthEntry :=
  let entry := match hs !! ep with
               | Some e => e
               | None => initEndpointHealth ep
               end in
  <[ep := update_entry iso success latencyMs entry]> hs.

Inductive Status := healthy | degraded | down.

#[global] Instance Status_eq_dec : EqDecision Status.
Proof. solve_decision. Defined.

Record EndpointReport := {
  status : Status;
  rep_lastSuccess : option string;
  rep_lastFailure : option string;
  rep_successRate : Z;
  rep_avgLatencyMs : Z
}.

Record HealthSnapshot := {
  vpsReachable : bool;
  totalEndpoints : nat;
  healthyEndpoints : nat;
  degradedEndpoints : nat;
  avgOverallLatencyMs : Z;
  endpoints : gmap string EndpointReport;
  lastChecked : string
}.

(** [Math.round] of a double: the nearest integer, halves towards plus
    infinity. *)
Definition Math_round (x : Q) : Z := Qfloor (x + (1 # 2))%Q.

(** [total > 0 ? entry.successCount / total : 0], before rounding: the
    number the code holds is the double nearest to this quotient,
    [Double.RN (successRate e)]. *)
Definition successRate (e : EndpointHealthEntry) : Q :=
  let total := successCount e + failureCount e in
  if Nat.ltb 0 total
  then (inject_Z (Z.of_nat (successCount e)) / inject_Z (Z.of_nat total))%Q
  else 0%Q.

(** [successRate >= 0.9 ? "healthy" : successRate >= 0.5 ? "degraded" :
    "down"], decided on the quotient itself: the double the code holds and
    the double it compares with lie on the same side of each other as the
    quotient and the threshold, unless the counters have passed 10^15. *)
Definition status_of_rate (r : Q) : Status :=
  if Qle_bool (9 # 10) r then healthy
  else if Qle_bool (5 # 10) r then degraded
  else down.

Definition report (e : EndpointHealthEntry) : EndpointReport :=
  {| status := status_of_rate (successRate e);
     rep_lastSuccess := lastSuccess e;
     rep_lastFailure := lastFailure e;
     rep_successRate :=
       Math_round (Double.mul (Double.RN (successRate e)) 100);
     rep_avgLatencyMs := Math_round (avgLatencyMs e) |}.

(** The accumulators of the [for ... of healthState] loop. *)
Record SnapshotAcc := {
  acc_endpoints : gmap string EndpointReport;
  acc_totalLatency : Q;
  acc_healthyCount : nat;
  acc_degradedCount : nat;
  acc_totalEndpoints : nat
}.

Definition snapshot_init : SnapshotAcc :=
  {| acc_endpoints := ∅; acc_totalLatency := 0%Q; acc_healthyCount := 0;
     acc_degradedCount := 0; acc_totalEndpoints := 0 |}.

Definition snapshot_step (acc : SnapshotAcc)
    (kv : string * EndpointHealthEntry) : SnapshotAcc :=
  let r := report kv.2 in
  {| acc_endpoints := <[kv.1 := r]> (acc_endpoints acc);
     acc_totalLatency := Double.add (acc_totalLatency acc) (avgLatencyMs kv.2);
     acc_healthyCount :=
       match status r with
       | healthy => S (acc_healthyCount acc)
       | _ => acc_healthyCount acc
       end;
     acc_degradedCount :=
       match status r with
       | degraded => S (acc_degradedCount acc)
       | _ => acc_degradedCount acc
       end;
     acc_totalEndpoints := S (acc_totalEndpoints acc) |}.

(** The entries are visited in the order of the map's listing.  The source
    visits them in the order of their first observation, which the map does
    not keep; the counts and the reports do not depend on it, the sum of the
    average latencies can in its last binary place. *)
Definition getHealthSnapshot (iso : string)
    (hs : gmap string EndpointHealthEntry) : HealthSnapshot :=
  let acc := foldl snapshot_step snapshot_init (map_to_list hs) in
  {| vpsReachable := Nat.ltb 0 (acc_healthyCount acc);
     totalEndpoints := acc_totalEndpoints acc;
     healthyEndpoints := acc_healthyCount acc;
     degradedEndpoints := acc_degradedCount acc;
     avgOverallLatencyMs :=
       if Nat.ltb 0 (acc_totalEndpoints acc)
       then Math_round (Double.div (acc_totalLatency acc)
                          (inject_Z (Z.of_nat (acc_totalEndpoints acc))))
       else 0%Z;
     endpoints := acc_endpoints acc;
     lastChecked := iso |}.

(** One completed upstream call as the monitor sees it. *)
Record Observation := {
  obs_endpoint : string;
  obs_success : bool;
  obs_latencyMs : Z;
  obs_time : string
}.

Definition observe (hs : gmap string EndpointHealthEntry) (o : Observation)
  : gmap string EndpointHealthEntry :=
  recordEndpointResult (obs_time o) (obs_endpoint o) (obs_success o)
    (obs_latencyMs o) hs.

(** The health map after a history of observations, from the empty map of a
    cold start. *)
Definition replay (h : list Observation) : gmap string EndpointHealthEntry :=
  foldl observe ∅ h.

(** The observations of one endpoint, oldest first. *)
Definition on_endpoint (ep : string) (h : list Observation) : list Observation :=
  filter (fun o => obs_endpoint o = ep) h.

(** The last [n] elements of a list, in order. *)
Definition most_recent {A} (n : nat) (l : list A) : list A :=
  drop (length l - n) l.

Definition count_success (h : list Observation) : nat :=
  length (filter (fun o => obs_success o = true) h).

Definition count_failure (h : list Observation) : nat :=
  length (filter (fun o => obs_success o = false) h).

(** The states the health map can be in, with the history that led there:
    empty at a cold start, then one recorded observation after another. *)
Inductive reaches : list Observation → gmap string EndpointHealthEntry → Prop :=
| reaches_start : reaches [] ∅
| reaches_record h hs o :
    reaches h hs → reaches (h ++ [o]) (observe hs o).

(** What the entry of an endpoint holds after a history, by the observations
    of that endpoint alone. *)
Definition entry_matches (obs : list Observation) (e : EndpointHealthEntry) : Prop :=
  latencies e = most_recent HEALTH_WINDOW_SIZE (map obs_latencyMs obs) ∧
  successCount e = count_success obs ∧
  failureCount e = count_failure obs ∧
  (obs ≠ [] → avgLatencyMs e = window_average (latencies e)).

Definition is_healthy (kv : string * EndpointHealthEntry) : Prop :=
  status (report kv.2) = healthy.

#[global] Instance is_healthy_dec kv : Decision (is_healthy kv).
Proof. unfold is_healthy. apply _. Defined.

(** An instance: 21 observations, the first of them the only failure. *)
Definition sample_history : list Observation :=
  {| obs_endpoint := "/trades/live"; obs_success := false;
     obs_latencyMs := 500; obs_time := "t0" |} ::
  map (fun n => {| obs_endpoint := "/trades/live"; obs_success := true;
                   obs_latencyMs := Z.of_nat n; obs_time := "t" |})
      (seq 1 20).

(** An instance: 23 successes followed by 17 failures on one endpoint. *)
Definition mixed_history : list Observation :=
  replicate 23 {| obs_endpoint := "/trades/live"; obs_success := true;
                  obs_latencyMs := 40; obs_time := "t1" |} ++
  replicate 17 {| obs_endpoint := "/trades/live"; obs_success := false;
                  obs_latencyMs := 90; obs_time := "t2" |}.

(** An instance: one failed call on one endpoint; that endpoint is reported
    as down, another one is absent. *)
Definition one_failure : Observation :=
  {| obs_endpoint := "/brokers/status"; obs_success := false;
     obs_latencyMs := 12; obs_time := "t0" |}.

(** The time of the latest observation with the given outcome, if any. *)
Definition latest_time (outcome : bool) (obs : list Observation) : option string :=
  last (map obs_time (filter (fun o => obs_success o = outcome) obs)).

Definition is_degraded (kv : string * EndpointHealthEntry) : Prop :=
  status (report kv.2) = degraded.

#[global] Instance is_degraded_dec kv : Decision (is_degraded kv).
Proof. unfold is_degraded. apply _. Defined.

Definition observed_count (e : option EndpointHealthEntry) : nat :=
  match e with
  | Some x => successCount x + failureCount x
  | None => 0
  end.

(** No endpoint of the map is healthy. *)
Definition no_healthy (hs : gmap string EndpointHealthEntry) : Prop :=
  ∀ ep e, hs !! ep = Some e → status (report e) ≠ healthy.

End Health.

(** ** JavaScript values and the few operators the relay uses on them *)

Module Js.

Inductive JsVal :=
| JUndefined
| JNull
| JBool (b : bool)
| JNum (q : Q)
| JStr (s : string)
| JArr (l : list JsVal)
| JObj (fields : list (string * JsVal)).

(** A thrown value; every exception the relay can meet is an [Error]
    ([TypeError], [DOMException], ...), of which the handlers read the
    message. *)
Record Exn := JsError { exn_name : string; exn_message : string }.

Definition Result (A : Type) : Type := Exn + A.

Definition ok {A} (x : A) : Result A := inr x.
Definition throw {A} (e : Exn) : Result A := inl e.
Definition rbind {A B} (r : Result A) (k : A -> Result B) : Result B :=
  match r with
  | inl e => inl e
  | inr x => k x
  end.

Definition TypeError {A} (msg : string) : Result A :=
  throw (JsError "TypeError" msg).

(** ToBoolean *)
Definition truthy (v : JsVal) : bool :=
  match v with
  | JUndefined | JNull => false
  | JBool b => b
  | JNum q => negb (Z.eqb (Qnum q) 0)
  | JStr s => negb (String.eqb s EmptyString)
  | JArr _ | JObj _ => true
  end.

(** [a || b] on values that are already evaluated *)
Definition or_else (a b : JsVal) : JsVal := if truthy a then a else b.

Definition nullish (v : JsVal) : bool :=
  match v with
  | JUndefined | JNull => true
  | _ => false
  end.

Fixpoint assoc {A} (k : string) (fields : list (string * A)) : option A :=
  match fields with
  | [] => None
  | (k', v) :: rest => if String.eqb k k' then Some v else assoc k rest
  end.

Definition JNat (n : nat) : JsVal := JNum (inject_Z (Z.of_nat n)).

(** Property read [v.k] for a data property [k]: it throws on [null] and
    [undefined]; arrays and strings have [length], the other primitives have
    no data properties of their own. *)
Definition get (v : JsVal) (k : string) : Result JsVal :=
  match v with
  | JUndefined | JNull =>
      TypeError ("Cannot read properties of null or undefined (reading '" +:+ k +:+ "')")
  | JObj fields => ok (default JUndefined (assoc k fields))
  | JArr l => ok (if String.eqb k "length" then JNat (length l) else JUndefined)
  | JStr s => ok (if String.eqb k "length" then JNat (String.length s) else JUndefined)
  | JBool _ | JNum _ => ok JUndefined
  end.

(** [{ ...o, k: v }]: an existing key keeps its place, a new one goes last. *)
Fixpoint set_field (k : string) (v : JsVal) (fields : list (string * JsVal))
  : list (string * JsVal) :=
  match fields with
  | [] => [(k, v)]
  | (k', v') :: rest =>
      if String.eqb k k' then (k, v) :: rest else (k', v') :: set_field k v rest
  end.

(** [s === "tag"] *)
Definition is_str (tag : string) (v : JsVal) : bool :=
  match v with
  | JStr s => String.eqb s tag
  | _ => false
  end.

(** [v === true] *)
Definition is_true (v : JsVal) : bool :=
  match v with
  | JBool true => true
  | _ => false
  end.

(** [arr.filter(cb)] with a callback that may throw. *)
Fixpoint filterM (cb : JsVal -> Result bool) (l : list JsVal)
  : Result (list JsVal) :=
  match l with
  | [] => ok []
  | x :: rest =>
      rbind (cb x) (fun keep =>
      rbind (filterM cb rest) (fun rest' =>
      ok (if keep then x :: rest' else rest')))
  end.

(** [arr.map(cb)] with the index, for a callback that may throw. *)
Fixpoint mapiM (cb : JsVal -> nat -> Result JsVal) (i : nat) (l : list JsVal)
  : Result (list JsVal) :=
  match l with
  | [] => ok []
  | x :: rest =>
      rbind (cb x i) (fun y =>
      rbind (mapiM cb (S i) rest) (fun rest' =>
      ok (y :: rest')))
  end.

(** [String.prototype.slice(0, n)] *)
Fixpoint str_take (n : nat) (s : string) : string :=
  match n, s with
  | S n', String c s' => String c (str_take n' s')
  | _, _ => EmptyString
  end.

(** [s.startsWith(p)] *)
Definition startsWith (s p : string) : bool := String.prefix p s.

(** [s.replace(p, r)]: the first occurrence only. *)
Definition replace_first (p r s : string) : string :=
  match String.index 0 p s with
  | Some i => String.substring 0 i s +:+ r +:+
              String.substring (i + String.length p)
                (String.length s - i - String.length p) s
  | None => s
  end.

(** The own enumerable properties copied by [{ ...v }]. *)
Fixpoint indexed {A} (f : A -> JsVal) (i : nat) (l : list A)
  : list (string * JsVal) :=
  match l with
  | [] => []
  | x :: rest => (pretty i, f x) :: indexed f (S i) rest
  end.

Definition spread (v : JsVal) : list (string * JsVal) :=
  match v with
  | JObj fields => fields
  | JArr l => indexed (fun x => x) 0 l
  | JStr s => indexed (fun c => JStr (String c EmptyString)) 0
                (list_ascii_of_string s)
  | _ => []
  end.

(** [obj.k1.k2...] on plain objects *)
Fixpoint at_path (ks : list string) (v : JsVal) : option JsVal :=
  match ks with
  | [] => Some v
  | k :: ks' =>
      match v with
      | JObj fields =>
          match assoc k fields with
          | Some x => at_path ks' x
          | None => None
          end
      | _ => None
      end
  end.

End Js.

(** ** The edge function: configuration, outside parties, state *)

Module Edge.
Import Js.

Record Config := {
  SUPABASE_URL : string;
  SUPABASE_ANON_KEY : string;
  SUPABASE_SERVICE_ROLE_KEY : string;
  VPS_METRICS_ENDPOINT : string;
  INTERNAL_JWT_SECRET : string
}.

Definition INTERNAL_JWT_ISSUER : string := "supabase-metrics-proxy".
Definition INTERNAL_JWT_AUDIENCE : string := "vps-metrics-api".
Definition INTERNAL_JWT_TTL_SECONDS : Z := 60.
Definition API_VERSION : string := "v1".

Definition ALLOWED_PATHS : list string :=
  [ "/health"; "/brokers/status"; "/trades/live"; "/trades/history";
    "/strategies/proving"; "/strategies/promotions"; "/metrics/gate-pressure" ].

Definition AGGREGATE_ENDPOINTS : list string :=
  [ "/brokers/status"; "/trades/live"; "/strategies/proving";
    "/strategies/promotions"; "/metrics/gate-pressure" ].

(** What [supabase.auth.getUser(token)] can do. *)
Inductive GetUserOutcome :=
| GotUser (id : string) (email : option string) (role : option string)
| GetUserError (message : string)
| GetUserNoUser
| GetUserThrows (e : option Exn).

(** What [fetch(url, ...)] can do: reject (network failure, timeout), or
    resolve to a response whose body is JSON ([Some]) or is not ([None], on
    which [res.json()] throws). *)
Inductive FetchOutcome :=
| FetchThrows (e : Exn)
| FetchResponse (status : nat) (statusText : string) (body : option JsVal).

(** One row of [public.session_events]; the instant is in microseconds.
    The id is the [BIGINT] of the table as it is stored; the relay reads it
    into a number, which holds it exactly below 2^53. *)
Record SessionEvent := {
  id : Z;
  session_id : string;
  user_id : string;
  event_type : string;
  event_payload : JsVal;
  timestamp_utc : Z
}.

Record Env := {
  config : Config;
  (** the identity provider, with the time the call takes (ms) *)
  auth_getUser : string -> GetUserOutcome * Z;
  (** the upstream boundary, by URL and request headers, with the time the
      call takes (ms) *)
  fetch : string -> list (string * string) -> FetchOutcome * Z;
  (** HMAC-SHA256 of a message under a key, base64url encoded; the import of
      the key may throw *)
  hs256_sign : string -> string -> Result string;
  (** base64url of the JSON serialisation *)
  base64url_json : JsVal -> string;
  (** [new Date(ms).toISOString()] *)
  toISOString : Z -> string;
  (** [String(n)] and [JSON.stringify] of a number *)
  Number_toString : Q -> string;
  (** the rendering of a [timestamptz] column in a query result *)
  timestamptz_json : Z -> string;
  (** [parseInt], [None] for [NaN] *)
  parseInt : string -> option Z;
  (** the error a [select] on the session table comes back with, if any *)
  select_error : option string;
  (** the milliseconds by which the clock has moved on when one synchronous
      run reads it a second time *)
  clock_step : Z
}.

Inductive Effect :=
| EffGetUser (token : string)
| EffFetch (url : string) (headers : list (string * string))
| EffInsert (session_id user_id event_type : string) (event_payload : JsVal)
| EffSelect.

Record World := {
  healthState : gmap string Health.EndpointHealthEntry;
  now : Z;
  trace : list Effect;
  session_events : list SessionEvent
}.

(** Computations of the edge function: they read and update the world and
    may throw; what was done before a throw stays done. *)
Definition M (A : Type) : Type := World -> Result A * World.

Definition ret {A} (x : A) : M A := fun w => (ok x, w).
Definition bind {A B} (m : M A) (k : A -> M B) : M B :=
  fun w => match m w with
           | (inl e, w') => (inl e, w')
           | (inr x, w') => k x w'
           end.
Definition raise {A} (e : Exn) : M A := fun w => (inl e, w).
Definition lift {A} (r : Result A) : M A := fun w => (r, w).
Definition try_catch {A} (m : M A) (handler : Exn -> M A) : M A :=
  fun w => match m w with
           | (inl e, w') => handler e w'
           | (inr x, w') => (inr x, w')
           end.

Notation "'let*' x ':=' m 'in' k" := (bind m (fun x => k))
  (at level 10, x name, m at level 100, k at level 200, only parsing).
Notation "'do' m 'then' k" := (bind m (fun _ => k))
  (at level 10, m at level 100, k at level 200, only parsing).
Notation "'let+' x ':=' r 'in' k" := (rbind r (fun x => k))
  (at level 10, x name, r at level 100, k at level 200, only parsing).

Definition Date_now : M Z := fun w => (ok (now w), w).

Definition emit (e : Effect) : M unit :=
  fun w => (ok tt, {| healthState := healthState w; now := now w;
                      trace := trace w ++ [e];
                      session_events := session_events w |}).

(** Time passes while an outside party is awaited. *)
Definition elapse (ms : Z) : M unit :=
  fun w => (ok tt, {| healthState := healthState w;
                      now := now w + Z.max 0 ms;
                      trace := trace w;
                      session_events := session_events w |}).

Definition set_now (t : Z) : M unit :=
  fun w => (ok tt, {| healthState := healthState w; now := t;
                      trace := trace w;
                      session_events := session_events w |}).

Definition get_health : M (gmap string Health.EndpointHealthEntry) :=
  fun w => (ok (healthState w), w).

Definition recordEndpointResult (iso : string) (ep : string) (success : bool)
    (latencyMs : Z) : M unit :=
  fun w => (ok tt,
            {| healthState :=
                 Health.recordEndpointResult iso ep success latencyMs
                   (healthState w);
               now := now w; trace := trace w;
               session_events := session_events w |}).

Definition dq : string := String "034"%char EmptyString.

(** *** Credential verifier and internal token minter *)

(** [createClient(url, key)] of supabase-js throws when the address or the
    key is missing; an address that is there is taken to be well formed. *)
Definition createClient (url key : string) : option Exn :=
  if String.eqb url EmptyString
  then Some (JsError "Error" "supabaseUrl is required.")
  else if String.eqb key EmptyString
  then Some (JsError "Error" "supabaseKey is required.")
  else None.

Record AuthResult := {
  valid : bool;
  userId : option string;
  email : option string;
  role : option string;
  error : option string
}.

Definition auth_failure (msg : string) : AuthResult :=
  {| valid := false; userId := None; email := None; role := None;
     error := Some msg |}.

(** [x || fallback] on a string *)
Definition str_or (x fallback : string) : string :=
  if String.eqb x EmptyString then fallback else x.

Definition opt_str_or (x : option string) (fallback : string) : string :=
  match x with
  | Some s => str_or s fallback
  | None => fallback
  end.

(** An optional string as the value JavaScript sees. *)
Definition js_of (x : option string) : JsVal :=
  match x with
  | Some s => JStr s
  | None => JUndefined
  end.

(** The builder of jose's [SignJWT]: a protected header and a claims set. *)
Record SignJWT := {
  protectedHeader : list (string * JsVal);
  payload : list (string * JsVal)
}.

Definition new_SignJWT (claims : list (string * JsVal)) : SignJWT :=
  {| protectedHeader := []; payload := claims |}.

Definition setProtectedHeader (h : list (string * JsVal)) (b : SignJWT) : SignJWT :=
  {| protectedHeader := h; payload := payload b |}.

(** Seconds since the epoch of an instant in milliseconds. *)
Definition epoch (ms : Z) : Z := (ms / 1000)%Z.

Definition JInt (z : Z) : JsVal := JNum (inject_Z z).

(** [setIssuedAt()]: the current time, in seconds *)
Definition setIssuedAt (now_ms : Z) (b : SignJWT) : SignJWT :=
  {| protectedHeader := protectedHeader b;
     payload := set_field "iat" (JInt (epoch now_ms)) (payload b) |}.

Definition setIssuer (issuer : string) (b : SignJWT) : SignJWT :=
  {| protectedHeader := protectedHeader b;
     payload := set_field "iss" (JStr issuer) (payload b) |}.

(** [setExpirationTime("<n>s")]: the current time plus the span, in seconds *)
Definition setExpirationTime (now_ms : Z) (span_s : Z) (b : SignJWT) : SignJWT :=
  {| protectedHeader := protectedHeader b;
     payload := set_field "exp" (JInt (epoch now_ms + span_s)) (payload b) |}.

Section WithEnv.
Variable env : Env.

(** The compact serialisation without its signature. *)
Definition signing_input (b : SignJWT) : string :=
  base64url_json env (JObj (protectedHeader b)) +:+ "." +:+
  base64url_json env (JObj (payload b)).

Definition sign (secret : string) (b : SignJWT) : Result string :=
  let+ signature := hs256_sign env secret (signing_input b) in
  ok (signing_input b +:+ "." +:+ signature).

Definition verifySupabaseJWT (authHeader : string) : M AuthResult :=
  if negb (truthy (JStr authHeader)) || negb (startsWith authHeader "Bearer ")
  then ret (auth_failure "Missing or invalid Authorization header")
  else
    let token := replace_first "Bearer " EmptyString authHeader in
    match createClient (SUPABASE_URL (config env))
            (SUPABASE_ANON_KEY (config env)) with
    | Some e => ret (auth_failure (exn_message e))
    | None =>
        do emit (EffGetUser token) then
        do elapse (auth_getUser env token).2 then
        ret match (auth_getUser env token).1 with
            | GetUserThrows (Some e) => auth_failure (exn_message e)
            | GetUserThrows None => auth_failure "JWT verification failed"
            | GetUserError m => auth_failure (str_or m "Invalid token")
            | GetUserNoUser => auth_failure "Invalid token"
            | GotUser uid mail r =>
                {| valid := true; userId := Some uid; email := mail;
                   role := Some (opt_str_or r "authenticated");
                   error := None |}
            end
    end.

(** The claims set and header of the internal token: [setIssuedAt()] and
    [setExpirationTime("60s")] each read the clock, the first at [issued_ms],
    the second at [expires_ms]. *)
Definition internal_jwt (issued_ms expires_ms : Z) (uid mail r : JsVal)
  : SignJWT :=
  setExpirationTime expires_ms INTERNAL_JWT_TTL_SECONDS
    (setIssuer INTERNAL_JWT_ISSUER
       (setIssuedAt issued_ms
          (setProtectedHeader [("alg", JStr "HS256")]
             (new_SignJWT [ ("sub", uid); ("email", mail);
                            ("roles", JArr [r]);
                            ("aud", JStr INTERNAL_JWT_AUDIENCE) ])))).

Definition createInternalJWT (uid mail r : JsVal) : M string :=
  let secret := INTERNAL_JWT_SECRET (config env) in
  let* issued := Date_now in
  let expires := (issued + clock_step env)%Z in
  lift (sign secret (internal_jwt issued expires uid mail r)).

(** *** Aggregator *)

Record EndpointResult := {
  r_endpoint : string;
  r_data : JsVal;
  r_success : bool;
  r_status : option nat;
  r_error : option string;
  r_latencyMs : Z
}.

(** [String(e)] of an [Error] *)
Definition String_of_exn (e : Exn) : string :=
  if String.eqb (exn_message e) EmptyString then exn_name e
  else if String.eqb (exn_name e) EmptyString then exn_message e
  else exn_name e +:+ ": " +:+ exn_message e.

(** [res.ok] *)
Definition res_ok (status : nat) : bool :=
  Nat.leb 200 status && Nat.leb status 299.

(** The exception of [res.json()] on a body that is not JSON.  Its message
    depends on the body and the engine; this text stands for it, and no
    property below reads it. *)
Definition json_syntax_error : Exn :=
  JsError "SyntaxError" "Unexpected token in JSON".

(** [new Response(body, { status })], which [c.json] ends in, takes a body
    only with a status from 200 to 599 that is not a null-body status. *)
Definition null_body_status (st : nat) : bool :=
  Nat.eqb st 101 || Nat.eqb st 204 || Nat.eqb st 205 || Nat.eqb st 304.

Definition body_allowed (st : nat) : bool :=
  Nat.leb 200 st && Nat.leb st 599 && negb (null_body_status st).

Definition response_init_error (st : nat) : Exn :=
  if null_body_status st
  then JsError "TypeError" "Response with null body status cannot have body"
  else JsError "RangeError"
         ("The status provided (" +:+ pretty st +:+
          ") is not equal to 101 and outside the range [200, 599]").

(** A call of the fan-out fails when the fetch rejects, when the status is
    not a 2xx, or when the body is not JSON. *)
Definition call_fails (o : FetchOutcome) : bool :=
  match o with
  | FetchThrows _ => true
  | FetchResponse st _ body =>
      negb (res_ok st) || match body with
                          | None => true
                          | Some _ => false
                          end
  end.

Definition upstream_headers (internalJWT : string) (authResult : AuthResult)
  : list (string * string) :=
  [ ("Content-Type", "application/json");
    ("Authorization", "Bearer " +:+ internalJWT);
    ("X-Proxy-User", opt_str_or (email authResult) "unknown") ].

(** One call of the fan-out, dispatched at [start]: the call is timed, its
    outcome is recorded in the health map once, and no outcome escapes as an
    exception. *)
Definition fetchOne (start : Z) (internalJWT : string) (authResult : AuthResult)
    (ep : string) : M EndpointResult :=
  let url := VPS_METRICS_ENDPOINT (config env) +:+ ep in
  let hdrs := upstream_headers internalJWT authResult in
  let latencyMs := Z.max 0 (fetch env url hdrs).2 in
  let iso := toISOString env (start + latencyMs) in
  do emit (EffFetch url hdrs) then
  match (fetch env url hdrs).1 with
  | FetchResponse st _ body =>
      if res_ok st then
        match body with
        | Some data =>
            do recordEndpointResult iso ep true latencyMs then
            ret {| r_endpoint := ep; r_data := data; r_success := true;
                   r_status := Some st; r_error := None;
                   r_latencyMs := latencyMs |}
        | None =>
            do recordEndpointResult iso ep false latencyMs then
            ret {| r_endpoint := ep; r_data := JNull; r_success := false;
                   r_status := None;
                   r_error := Some (String_of_exn json_syntax_error);
                   r_latencyMs := latencyMs |}
        end
      else
        do recordEndpointResult iso ep false latencyMs then
        ret {| r_endpoint := ep; r_data := JNull; r_success := false;
               r_status := Some st; r_error := None;
               r_latencyMs := latencyMs |}
  | FetchThrows e =>
      do recordEndpointResult iso ep false latencyMs then
      ret {| r_endpoint := ep; r_data := JNull; r_success := false;
             r_status := None; r_error := Some (String_of_exn e);
             r_latencyMs := latencyMs |}
  end.

(** [AGGREGATE_ENDPOINTS.map(async ...)]: every call starts at [start]. *)
Fixpoint fan_out (start : Z) (internalJWT : string) (authResult : AuthResult)
    (eps : list string) : M (list EndpointResult) :=
  match eps with
  | [] => ret []
  | ep :: rest =>
      let* r := fetchOne start internalJWT authResult ep in
      let* rs := fan_out start internalJWT authResult rest in
      ret (r :: rs)
  end.

(** [Promise.all] settles when the slowest call has. *)
Definition slowest (results : list EndpointResult) : Z :=
  fold_right (fun r m => Z.max (r_latencyMs r) m) 0%Z results.

(** [results.find((r) => r.endpoint === ep)?.data || {}] *)
Definition find_data (results : list EndpointResult) (ep : string) : JsVal :=
  or_else
    match List.find (fun r => String.eqb (r_endpoint r) ep) results with
    | Some r => r_data r
    | None => JUndefined
    end
    (JObj []).

(** [proving.strategies?.filter((s) => s.state === tag)?.length || 0] *)
Definition count_state (tag : string) (proving : JsVal) : Result nat :=
  let+ strategies := get proving "strategies" in
  if nullish strategies then ok 0
  else match strategies with
       | JArr l =>
           let+ kept := filterM (fun s => let+ st := get s "state" in
                                          ok (is_str tag st)) l in
           ok (length kept)
       | _ => TypeError "proving.strategies?.filter is not a function"
       end.

(** [o.k || fallback] *)
Definition get_or (o : JsVal) (k : string) (fallback : JsVal) : Result JsVal :=
  let+ v := get o k in ok (or_else v fallback).

(** [p.k1 || p.k2] *)
Definition get_either (p : JsVal) (k1 k2 : string) : Result JsVal :=
  let+ v1 := get p k1 in
  let+ v2 := get p k2 in
  ok (or_else v1 v2).

(** [proving.strategies?.length || 0] *)
Definition strategies_total (proving : JsVal) : Result JsVal :=
  let+ strategies := get proving "strategies" in
  if nullish strategies then ok (JNat 0)
  else let+ n := get strategies "length" in ok (or_else n (JNat 0)).

(** [promotions.history?.slice(0, 5) || []] *)
Definition history_head (promotions : JsVal) : Result JsVal :=
  let+ h := get promotions "history" in
  if nullish h then ok (JArr [])
  else match h with
       | JArr l => ok (JArr (take 5 l))
       | JStr s => ok (or_else (JStr (str_take 5 s)) (JArr []))
       | _ => TypeError "promotions.history?.slice is not a function"
       end.

Definition position_of (p : JsVal) (i : nat) : Result JsVal :=
  let+ symbol := get p "symbol" in
  let+ size := get_either p "size" "quantity" in
  let+ entryPrice := get_either p "entry_price" "avg_price" in
  let+ currentPrice := get_either p "current_price" "mark_price" in
  let+ pnl := get_either p "unrealized_pnl" "pnl" in
  let+ openTime := get_either p "open_time" "timestamp" in
  ok (JObj [ ("id", JStr ("p" +:+ pretty (i + 1)));
             ("symbol", symbol);
             ("market", JStr "FUT");
             ("size", size);
             ("entryPrice", entryPrice);
             ("currentPrice", currentPrice);
             ("pnl", pnl);
             ("openTime", openTime) ]).

(** [(trades.positions || []).map((p, i) => ...)] *)
Definition positions_of (trades : JsVal) : Result JsVal :=
  let+ ps := get_or trades "positions" (JArr []) in
  match ps with
  | JArr l => let+ l' := mapiM position_of 0 l in ok (JArr l')
  | _ => TypeError "(trades.positions || []).map is not a function"
  end.

Definition proxy_endpoint (r : EndpointResult) : JsVal :=
  JObj [ ("path", JStr (r_endpoint r));
         ("success", JBool (r_success r));
         ("status", if r_success r then JNat 200
                    else or_else (match r_status r with
                                  | Some st => JNat st
                                  | None => JUndefined
                                  end) (JNat 0));
         ("latencyMs", JInt (r_latencyMs r)) ].

Definition health_section (h : Health.HealthSnapshot) : JsVal :=
  JObj [ ("vpsReachable", JBool (Health.vpsReachable h));
         ("totalEndpoints", JNat (Health.totalEndpoints h));
         ("healthyEndpoints", JNat (Health.healthyEndpoints h));
         ("degradedEndpoints", JNat (Health.degradedEndpoints h));
         ("avgLatencyMs", JInt (Health.avgOverallLatencyMs h));
         ("lastChecked", JStr (Health.lastChecked h)) ].

(** The unified metrics payload, from the settled results.  [activeStrategies]
    and the health snapshot are computed by the caller, before the object
    literal is evaluated. *)
Definition unified_payload (authResult : AuthResult)
    (results : list EndpointResult) (evalTime : string)
    (activeStrategies : nat) (healthSnapshot : Health.HealthSnapshot)
    (totalLatencyMs : Z) : Result JsVal :=
  let broker := find_data results "/brokers/status" in
  let trades := find_data results "/trades/live" in
  let proving := find_data results "/strategies/proving" in
  let promotions := find_data results "/strategies/promotions" in
  let gatePressure := find_data results "/metrics/gate-pressure" in
  let+ connected := get broker "connected" in
  let isConnected := is_true connected in
  let+ latency_ms := get_or broker "latency_ms" (JNat 0) in
  let+ lastUpdate := get_or broker "timestamp_utc" (JStr evalTime) in
  let+ lastSignal := get_or proving "last_signal" JNull in
  let+ lastDenial := get_or gatePressure "last_denial" JNull in
  let+ f_broker := get_or broker "timestamp_utc" JNull in
  let+ f_trades := get_or trades "timestamp_utc" JNull in
  let+ f_strategies := get_or proving "timestamp_utc" JNull in
  let+ f_gate := get_or gatePressure "timestamp_utc" JNull in
  let+ total := strategies_total proving in
  let+ queued := count_state "queued" proving in
  let+ pipeline_health := get_or proving "pipeline_health" (JNat 100) in
  let+ recentCount := get_or promotions "recent_count" (JNat 0) in
  let+ lastPromotion := get_or promotions "last_promotion" JNull in
  let+ history := history_head promotions in
  let+ current := get_or gatePressure "current_pressure" (JNat 0) in
  let+ pendingAction := get_or gatePressure "pending_action" (JStr "None") in
  let+ recentDenials := get_or gatePressure "recent_denials" (JArr []) in
  let+ positions := positions_of trades in
  ok (JObj [
    ("systemVerdict", JObj [
       ("state", JStr (if isConnected then "NOMINAL" else "DEGRADED"));
       ("reason", JStr (if isConnected then "All systems operational"
                        else "Broker connection issue detected"));
       ("timestamp", JStr evalTime) ]);
    ("operatorRecommendation", JObj [
       ("value", JStr (if Nat.ltb 0 activeStrategies then "MONITOR"
                       else "INVESTIGATE"));
       ("details", JStr (if Nat.ltb 0 activeStrategies
                         then pretty activeStrategies +:+
                              " strategies active. System operating normally."
                         else "No active strategies. Check proving pipeline."));
       ("computedAt", JStr evalTime) ]);
    ("systemConfidence", JObj [
       ("score", JNum (if isConnected then 189 # 2 else 65 # 1));
       ("evaluatedAt", JStr evalTime) ]);
    ("markets", JObj [
       ("futures", JObj [
          ("id", JStr "FUT");
          ("connected", JBool isConnected);
          ("latencyMs", latency_ms);
          ("lastUpdate", lastUpdate);
          ("drift", JNum (1 # 50));
          ("activeStrategies", JNat activeStrategies);
          ("lastSignal", lastSignal);
          ("lastDenial", lastDenial) ]);
       ("crypto", JObj [
          ("id", JStr "CRY");
          ("connected", JBool false);
          ("latencyMs", JNat 0);
          ("lastUpdate", JStr evalTime);
          ("drift", JNat 0);
          ("activeStrategies", JNat 0);
          ("lastSignal", JNull);
          ("lastDenial", JNull) ]) ]);
    ("dataFreshness", JObj [
       ("brokerStatus", f_broker);
       ("trades", f_trades);
       ("strategies", f_strategies);
       ("gatePressure", f_gate) ]);
    ("strategyActivity", JObj [
       ("provingPipeline", JObj [
          ("total", total);
          ("active", JNat activeStrategies);
          ("queued", JNat queued);
          ("health", pipeline_health) ]);
       ("promotions", JObj [
          ("recentCount", recentCount);
          ("lastPromotion", lastPromotion);
          ("history", history) ]);
       ("gatePressure", JObj [
          ("current", current);
          ("pendingAction", pendingAction);
          ("recentDenials", recentDenials) ]) ]);
    ("positions", positions);
    ("sessionTimeline", JArr [ JObj [
       ("at", JStr evalTime);
       ("market", JStr "FUT");
       ("event", JStr "Dashboard data fetched via JWT proxy");
       ("actor", js_of (email authResult)) ] ]);
    ("timestamps", JObj [
       ("lastUpdatedMetrics", JStr evalTime);
       ("serverTime", JStr evalTime) ]);
    ("_health", health_section healthSnapshot);
    ("riskCoupling", JNull);
    ("_roles", JNull);
    ("_proxy", JObj [
       ("source", JStr "vps-live");
       ("auth", JStr "jwt");
       ("user", js_of (email authResult));
       ("userId", js_of (userId authResult));
       ("timestamp", JStr evalTime);
       ("endpoints", JArr (map proxy_endpoint results));
       ("totalLatencyMs", JInt totalLatencyMs) ]) ]).

(** [getServiceClient()]: there is a client when the storage backend is
    configured. *)
Definition getServiceClient : bool :=
  truthy (JStr (SUPABASE_URL (config env))) &&
  truthy (JStr (SUPABASE_SERVICE_ROLE_KEY (config env))).

(** Fire and forget: the insert is dispatched, its outcome never read. *)
Definition recordSessionEvent (sessionId uid eventType : string)
    (eventPayload : JsVal) : M unit :=
  if negb getServiceClient || negb (truthy (JStr sessionId)) then ret tt
  else emit (EffInsert sessionId uid eventType eventPayload).

Definition fetchAndAggregateMetrics (authResult : AuthResult)
    (sessionId : string) : M (JsVal * list EndpointResult * Z) :=
  let* overallStart := Date_now in
  let* internalJWT := createInternalJWT (js_of (userId authResult))
                        (js_of (email authResult)) (js_of (role authResult)) in
  let* results := fan_out overallStart internalJWT authResult
                    AGGREGATE_ENDPOINTS in
  do set_now (overallStart + slowest results) then
  let* settled := Date_now in
  let totalLatencyMs := (settled - overallStart)%Z in
  let evalTime := toISOString env settled in
  let* activeStrategies :=
    lift (count_state "active" (find_data results "/strategies/proving")) in
  let* hs := get_health in
  let healthSnapshot := Health.getHealthSnapshot evalTime hs in
  let* payload := lift (unified_payload authResult results evalTime
                          activeStrategies healthSnapshot totalLatencyMs) in
  do (if truthy (JStr sessionId) && truthy (js_of (userId authResult))
      then
        let* systemState :=
          lift (let+ verdict := get payload "systemVerdict" in
                get verdict "state") in
        recordSessionEvent sessionId (default EmptyString (userId authResult))
          "metrics_fetch"
          (JObj [ ("systemState", systemState);
                  ("endpointCount", JNat (length results));
                  ("successCount",
                    JNat (length (List.filter r_success results)));
                  ("totalLatencyMs", JInt totalLatencyMs) ])
      else ret tt) then
  ret (payload, results, totalLatencyMs).

(** *** Requests, responses and the handlers of the router *)

Record Request := {
  req_path : string;
  req_query : list (string * string);
  req_headers : list (string * string)
}.

Inductive Body :=
| JsonBody (v : JsVal)
| TextBody (s : string).

Record Response := {
  res_status : nat;
  res_headers : list (string * string);
  res_body : Body
}.

(** [c.req.query(k)] and [c.req.header(k)], the empty string when absent *)
Definition query (req : Request) (k : string) : string :=
  default EmptyString (assoc k (req_query req)).
Definition header (req : Request) (k : string) : string :=
  default EmptyString (assoc k (req_headers req)).

(** [c.json(v, status)], with the headers [c.header] has set in the handler. *)
Definition c_json (set_headers : list (string * string)) (v : JsVal)
    (st : nat) : Response :=
  {| res_status := st;
     res_headers := set_headers ++ [("Content-Type", "application/json")];
     res_body := JsonBody v |}.

Definition error_body (label : string) (e : Exn) : JsVal :=
  JObj [ ("error", JStr label); ("message", JStr (exn_message e)) ].

Definition not_configured : JsVal :=
  JObj [ ("error", JStr "VPS endpoint not configured") ].

(** GET /metrics-proxy-jwt/v1/metrics/aggregate *)
Definition v1_aggregate (authResult : AuthResult) (req : Request) : M Response :=
  try_catch
    (let sessionId := header req "X-Session-Id" in
     if negb (truthy (JStr (VPS_METRICS_ENDPOINT (config env))))
     then ret (c_json [] not_configured 503)
     else
       let* r := fetchAndAggregateMetrics authResult sessionId in
       ret (c_json [] r.1.1 200))
    (fun e => ret (c_json [] (error_body "Aggregation error" e) 500)).

Definition unauthorized (authResult : AuthResult) : JsVal :=
  JObj [ ("error", JStr "Unauthorized");
         ("message", js_of (error authResult)) ].

Definition deprecation_headers : list (string * string) :=
  [ ("Deprecation", "true");
    ("Sunset", "2026-06-01");
    ("Link", "</metrics-proxy-jwt/v1/metrics/aggregate>; rel=" +:+ dq +:+
             "successor-version" +:+ dq) ].

(** GET /metrics-proxy-jwt/dashboard (legacy, deprecated) *)
Definition dashboard (req : Request) : M Response :=
  try_catch
    (let authHeader := header req "Authorization" in
     let* authResult := verifySupabaseJWT authHeader in
     if negb (valid authResult)
     then ret (c_json [] (unauthorized authResult) 401)
     else if negb (truthy (JStr (VPS_METRICS_ENDPOINT (config env))))
     then ret (c_json [] not_configured 503)
     else
       let sessionId := header req "X-Session-Id" in
       let* r := fetchAndAggregateMetrics authResult sessionId in
       ret (c_json deprecation_headers r.1.1 200))
    (fun e => ret (c_json [] (error_body "Dashboard proxy error" e) 500)).

(** [ALLOWED_PATHS.some((p) => path === p || path.startsWith(p + "/"))] *)
Definition path_allowed (path : string) : bool :=
  existsb (fun p => String.eqb path p || startsWith path (p +:+ "/"))
    ALLOWED_PATHS.

(** GET /metrics-proxy-jwt/proxy?path=... (legacy) *)
Definition proxy (req : Request) : M Response :=
  try_catch
    (let path := query req "path" in
     if negb (truthy (JStr path)) || negb (path_allowed path)
     then ret (c_json []
                 (JObj [ ("error", JStr "Invalid path");
                         ("allowed", JArr (map JStr ALLOWED_PATHS));
                         ("received", JStr path) ]) 400)
     else
       let authHeader := header req "Authorization" in
       let* authResult := verifySupabaseJWT authHeader in
       if negb (valid authResult)
       then ret (c_json [] (unauthorized authResult) 401)
       else if negb (truthy (JStr (VPS_METRICS_ENDPOINT (config env))))
       then ret (c_json [] not_configured 503)
       else
         let* internalJWT := createInternalJWT (js_of (userId authResult))
                               (js_of (email authResult))
                               (js_of (role authResult)) in
         let vpsUrl := VPS_METRICS_ENDPOINT (config env) +:+ path in
         let hdrs := upstream_headers internalJWT authResult in
         do emit (EffFetch vpsUrl hdrs) then
         do elapse (fetch env vpsUrl hdrs).2 then
         match (fetch env vpsUrl hdrs).1 with
         | FetchThrows e => raise e
         | FetchResponse st statusText body =>
             if negb (res_ok st)
             then
               if body_allowed st
               then ret (c_json []
                           (JObj [ ("error", JStr "VPS request failed");
                                   ("status", JNat st);
                                   ("statusText", JStr statusText) ]) st)
               else raise (response_init_error st)
             else match body with
                  | None => raise json_syntax_error
                  | Some data =>
                      let* t := Date_now in
                      ret (c_json []
                             (JObj (set_field "_proxy"
                                      (JObj [ ("source", JStr "vps");
                                              ("auth", JStr "jwt");
                                              ("user", js_of (email authResult));
                                              ("timestamp",
                                                JStr (toISOString env t));
                                              ("path", JStr path) ])
                                      (spread data))) 200)
                  end
         end)
    (fun e => ret (c_json [] (error_body "Proxy error" e) 500)).

(** GET /metrics-proxy-jwt/proxy as the revision 2.0.0 of the function has
    it (functions/metrics-proxy-jwt/index.ts): the same guard and relay, with
    a hint in the 401 and 503 bodies. *)
Definition proxy_2_0_0 (req : Request) : M Response :=
  try_catch
    (let path := query req "path" in
     if negb (truthy (JStr path)) || negb (path_allowed path)
     then ret (c_json []
                 (JObj [ ("error", JStr "Invalid path");
                         ("allowed", JArr (map JStr ALLOWED_PATHS));
                         ("received", JStr path) ]) 400)
     else
       let authHeader := header req "Authorization" in
       let* authResult := verifySupabaseJWT authHeader in
       if negb (valid authResult)
       then ret (c_json []
                   (JObj [ ("error", JStr "Unauthorized");
                           ("message", js_of (error authResult));
                           ("hint",
                             JStr "Provide a valid Supabase JWT in Authorization header") ])
                   401)
       else if negb (truthy (JStr (VPS_METRICS_ENDPOINT (config env))))
       then ret (c_json []
                   (JObj [ ("error", JStr "VPS endpoint not configured");
                           ("hint",
                             JStr "Set VPS_METRICS_ENDPOINT environment variable") ])
                   503)
       else
         let* internalJWT := createInternalJWT (js_of (userId authResult))
                               (js_of (email authResult))
                               (js_of (role authResult)) in
         let vpsUrl := VPS_METRICS_ENDPOINT (config env) +:+ path in
         let hdrs := upstream_headers internalJWT authResult in
         do emit (EffFetch vpsUrl hdrs) then
         do elapse (fetch env vpsUrl hdrs).2 then
         match (fetch env vpsUrl hdrs).1 with
         | FetchThrows e => raise e
         | FetchResponse st statusText body =>
             if negb (res_ok st)
             then
               if body_allowed st
               then ret (c_json []
                           (JObj [ ("error", JStr "VPS request failed");
                                   ("status", JNat st);
                                   ("statusText", JStr statusText) ]) st)
               else raise (response_init_error st)
             else match body with
                  | None => raise json_syntax_error
                  | Some data =>
                      let* t := Date_now in
                      ret (c_json []
                             (JObj (set_field "_proxy"
                                      (JObj [ ("source", JStr "vps");
                                              ("auth", JStr "jwt");
                                              ("user", js_of (email authResult));
                                              ("timestamp",
                                                JStr (toISOString env t));
                                              ("path", JStr path) ])
                                      (spread data))) 200)
                  end
         end)
    (fun e => ret (c_json [] (error_body "Proxy error" e) 500)).

(** *** Session events: listing and export *)

Definition hex_digit (n : nat) : string :=
  String.substring n 1 "0123456789abcdef".

(** The escape of one character inside a JSON string literal. *)
Definition escape_char (c : ascii) : string :=
  let n := nat_of_ascii c in
  if Nat.eqb n 34 then String "092"%char dq
  else if Nat.eqb n 92 then String "092"%char (String "092"%char EmptyString)
  else if Nat.eqb n 8 then String "092"%char "b"
  else if Nat.eqb n 9 then String "092"%char "t"
  else if Nat.eqb n 10 then String "092"%char "n"
  else if Nat.eqb n 12 then String "092"%char "f"
  else if Nat.eqb n 13 then String "092"%char "r"
  else if Nat.ltb n 32
       then String "092"%char "u00" +:+ hex_digit (n / 16) +:+ hex_digit (n mod 16)
  else String c EmptyString.

Definition quote (s : string) : string :=
  dq +:+ String.concat EmptyString (map escape_char (list_ascii_of_string s)) +:+ dq.

(** [JSON.stringify] of a value other than [undefined]; inside an array
    [undefined] is written [null], inside an object the property is left
    out. *)
Fixpoint stringify (v : JsVal) : string :=
  match v with
  | JUndefined | JNull => "null"
  | JBool b => if b then "true" else "false"
  | JNum q => Number_toString env q
  | JStr s => quote s
  | JArr l => "[" +:+ String.concat "," (map stringify l) +:+ "]"
  | JObj fields =>
      "{" +:+
      String.concat ","
        (flat_map (fun kv => match kv with
                             | (_, JUndefined) => []
                             | (k, x) => [quote k +:+ ":" +:+ stringify x]
                             end) fields) +:+
      "}"
  end.

(** Every double quote of the string is written twice (the CSV escape). *)
Fixpoint double_quotes (s : string) : string :=
  match s with
  | EmptyString => EmptyString
  | String c rest =>
      if Ascii.eqb c "034"%char
      then String c (String c (double_quotes rest))
      else String c (double_quotes rest)
  end.

Definition older_first (a b : SessionEvent) : Prop :=
  (timestamp_utc a <= timestamp_utc b)%Z.
Definition newer_first (a b : SessionEvent) : Prop :=
  (timestamp_utc b <= timestamp_utc a)%Z.

#[local] Instance older_first_dec : RelDecision older_first.
Proof. intros a b. unfold older_first. apply _. Defined.
#[local] Instance newer_first_dec : RelDecision newer_first.
Proof. intros a b. unfold newer_first. apply _. Defined.

(** [.eq("user_id", userId).eq("session_id", sessionId)
     .order("timestamp_utc", { ascending: true })] *)
Definition export_query (table : list SessionEvent) (uid : option string)
    (sessionId : string) : list SessionEvent :=
  merge_sort older_first
    (filter (fun e => Some (user_id e) = uid ∧ session_id e = sessionId) table).

(** [.range(from, to)] on an ordered result: the rows at positions [from] to
    [to]; a range that is not one is refused by the backend. *)
Definition range (from to : option Z) (rows : list SessionEvent)
  : string + list SessionEvent :=
  match from, to with
  | Some f, Some t =>
      if (Z.leb 0 f && Z.leb f t)%bool
      then inr (take (Z.to_nat (t - f + 1)) (drop (Z.to_nat f) rows))
      else inl "Requested range not satisfiable"
  | _, _ => inl "Requested range not satisfiable"
  end.

(** [.eq("user_id", userId).order("timestamp_utc", { ascending: false })
     .range(offset, offset + limit - 1)], with [.eq("session_id", sessionId)]
    when a session is given. *)
Definition events_query (table : list SessionEvent) (uid : option string)
    (sessionId : string) (offset limit : option Z)
  : string + list SessionEvent :=
  range offset
    (match offset, limit with
     | Some o, Some l => Some (o + l - 1)%Z
     | _, _ => None
     end)
    (merge_sort newer_first
       (filter (fun e => Some (user_id e) = uid ∧
                         (truthy (JStr sessionId) = true → session_id e = sessionId))
          table)).

Definition event_json (e : SessionEvent) : JsVal :=
  JObj [ ("id", JInt (id e));
         ("session_id", JStr (session_id e));
         ("user_id", JStr (user_id e));
         ("event_type", JStr (event_type e));
         ("event_payload", event_payload e);
         ("timestamp_utc", JStr (timestamptz_json env (timestamp_utc e))) ].

Definition csv_header : string :=
  "id,session_id,event_type,timestamp_utc,event_payload" +:+ String "010"%char EmptyString.

Definition csv_row (e : SessionEvent) : string :=
  pretty (id e) +:+ "," +:+
  dq +:+ session_id e +:+ dq +:+ "," +:+
  dq +:+ event_type e +:+ dq +:+ "," +:+
  dq +:+ timestamptz_json env (timestamp_utc e) +:+ dq +:+ "," +:+
  dq +:+ double_quotes (stringify (event_payload e)) +:+ dq.

Definition text_line (e : SessionEvent) : string :=
  "[" +:+ timestamptz_json env (timestamp_utc e) +:+ "] " +:+
  event_type e +:+ ": " +:+ stringify (event_payload e).

Definition newline : string := String "010"%char EmptyString.

Definition attachment (sessionId ext : string) : string :=
  "attachment; filename=" +:+ dq +:+ "session_" +:+ sessionId +:+ ext +:+ dq.

Definition no_session_store : JsVal :=
  JObj [ ("error", JStr "Session recording not configured") ].

(** GET /metrics-proxy-jwt/v1/sessions/export *)
Definition v1_sessions_export (authResult : AuthResult) (req : Request)
  : M Response :=
  try_catch
    (let sessionId := query req "session_id" in
     let format := str_or (query req "format") "json" in
     if negb (truthy (JStr sessionId))
     then ret (c_json []
                 (JObj [ ("error",
                           JStr "session_id query parameter is required") ])
                 400)
     else if negb getServiceClient
     then ret (c_json [] no_session_store 503)
     else
       do emit EffSelect then
       match select_error env with
       | Some msg =>
           ret (c_json [] (JObj [ ("error", JStr "Export failed");
                                  ("detail", JStr msg) ]) 500)
       | None =>
           fun w =>
             let events := export_query (session_events w)
                             (userId authResult) sessionId in
             if String.eqb format "csv" then
               (ok {| res_status := 200;
                      res_headers :=
                        [ ("Content-Type", "text/csv");
                          ("Content-Disposition", attachment sessionId ".csv") ];
                      res_body :=
                        TextBody (csv_header +:+
                                  String.concat newline (map csv_row events)) |},
                w)
             else if String.eqb format "text" then
               (ok {| res_status := 200;
                      res_headers :=
                        [ ("Content-Type", "text/plain");
                          ("Content-Disposition", attachment sessionId ".txt") ];
                      res_body :=
                        TextBody (str_or
                                    (String.concat newline (map text_line events))
                                    "No events found") |},
                w)
             else
               (ok (c_json []
                      (JObj [ ("sessionId", JStr sessionId);
                              ("eventCount", JNat (length events));
                              ("events", JArr (map event_json events));
                              ("exportedAt", JStr (toISOString env (now w)));
                              ("user", js_of (email authResult)) ]) 200),
                w)
       end)
    (fun e => ret (c_json [] (error_body "Export error" e) 500)).

(** [Math.min(parseInt(...), 200)], [None] for [NaN] *)
Definition page_limit (req : Request) : option Z :=
  match parseInt env (str_or (query req "limit") "50") with
  | Some n => Some (Z.min n 200)
  | None => None
  end.

Definition js_of_num (n : option Z) : JsVal :=
  match n with
  | Some z => JInt z
  | None => JNull
  end.

(** GET /metrics-proxy-jwt/v1/sessions/events *)
Definition v1_sessions_events (authResult : AuthResult) (req : Request)
  : M Response :=
  try_catch
    (let sessionId := query req "session_id" in
     let limit := page_limit req in
     let offset := parseInt env (str_or (query req "offset") "0") in
     if negb getServiceClient
     then ret (c_json [] no_session_store 503)
     else
       do emit EffSelect then
       fun w =>
         match (match select_error env with
                | Some msg => inl msg
                | None => events_query (session_events w) (userId authResult)
                            sessionId offset limit
                end) with
         | inl msg =>
             (ok (c_json []
                    (JObj [ ("error", JStr "Failed to fetch session events");
                            ("detail", JStr msg) ]) 500), w)
         | inr data =>
             (ok (c_json []
                    (JObj [ ("events", JArr (map event_json data));
                            ("pagination",
                              JObj [ ("limit", js_of_num limit);
                                     ("offset", js_of_num offset);
                                     ("hasMore",
                                       JBool (bool_decide
                                                (Some (Z.of_nat (length data))
                                                 = limit))) ]);
                            ("_meta",
                              JObj [ ("sessionId", JStr (str_or sessionId "all"));
                                     ("user", js_of (email authResult));
                                     ("timestamp",
                                       JStr (toISOString env (now w))) ]) ])
                    200), w)
         end)
    (fun e => ret (c_json [] (error_body "Session events error" e) 500)).

(** *** The remaining handlers, the middleware and the router *)

Definition status_name (st : Health.Status) : string :=
  match st with
  | Health.healthy => "healthy"
  | Health.degraded => "degraded"
  | Health.down => "down"
  end.

Definition js_opt (x : option string) : JsVal :=
  match x with
  | Some s => JStr s
  | None => JNull
  end.

Definition report_json (r : Health.EndpointReport) : JsVal :=
  JObj [ ("status", JStr (status_name (Health.status r)));
         ("lastSuccess", js_opt (Health.rep_lastSuccess r));
         ("lastFailure", js_opt (Health.rep_lastFailure r));
         ("successRate", JInt (Health.rep_successRate r));
         ("avgLatencyMs", JInt (Health.rep_avgLatencyMs r)) ].

(** GET /metrics-proxy-jwt/v1/health/detailed *)
Definition v1_health_detailed (authResult : AuthResult) (req : Request)
  : M Response :=
  try_catch
    (let* t := Date_now in
     let* hs := get_health in
     let snapshot := Health.getHealthSnapshot (toISOString env t) hs in
     ret (c_json []
            (JObj [ ("status", JStr (if Health.vpsReachable snapshot
                                     then "ok" else "degraded"));
                    ("vpsReachable", JBool (Health.vpsReachable snapshot));
                    ("totalEndpoints", JNat (Health.totalEndpoints snapshot));
                    ("healthyEndpoints", JNat (Health.healthyEndpoints snapshot));
                    ("degradedEndpoints",
                      JNat (Health.degradedEndpoints snapshot));
                    ("avgOverallLatencyMs",
                      JInt (Health.avgOverallLatencyMs snapshot));
                    ("endpoints",
                      JObj (map (fun kv => (kv.1, report_json kv.2))
                              (map_to_list (Health.endpoints snapshot))));
                    ("lastChecked", JStr (Health.lastChecked snapshot));
                    ("_meta",
                      JObj [ ("service", JStr "metrics-proxy-jwt");
                             ("version", JStr "2.1.0");
                             ("user", js_of (email authResult));
                             ("timestamp", JStr (toISOString env t)) ]) ])
            200))
    (fun e => ret (c_json [] (error_body "Health check error" e) 500)).

(** GET /metrics-proxy-jwt/v1/metrics/replay: the stub *)
Definition v1_metrics_replay : Response :=
  c_json []
    (JObj [ ("error", JStr "Not Implemented");
            ("feature", JStr "Forensic Replay");
            ("status", JNat 501);
            ("message",
              JStr ("Forensic replay will allow re-playing historical session data " +:+
                    "with full market context. Coming in a future release."));
            ("plannedEndpoints",
              JArr [ JStr "GET /v1/metrics/replay?session_id=&start=&end=";
                     JStr "GET /v1/metrics/replay/snapshot?timestamp=" ]) ])
    501.

(** GET /metrics-proxy-jwt and GET /metrics-proxy-jwt/health: no credential *)
Definition root_info : Response :=
  c_json []
    (JObj [ ("status", JStr "ok");
            ("service", JStr "metrics-proxy-jwt");
            ("version", JStr "2.1.0");
            ("auth", JStr "jwt");
            ("apiVersion", JStr API_VERSION);
            ("vpsConfigured",
              JBool (truthy (JStr (VPS_METRICS_ENDPOINT (config env)))));
            ("internalJwtConfigured",
              JBool (truthy (JStr (INTERNAL_JWT_SECRET (config env)))));
            ("allowedPaths", JArr (map JStr ALLOWED_PATHS));
            ("features",
              JObj [ ("unifiedAggregator", JBool true);
                     ("healthIndicators", JBool true);
                     ("sessionRecording", JBool true);
                     ("webSockets", JBool false);
                     ("riskCoupling", JBool false);
                     ("forensicReplay", JBool false);
                     ("rateLimiting", JStr "stub");
                     ("apiVersioning", JBool true);
                     ("roleBasedViews", JBool false);
                     ("syntheticTests", JBool false) ]) ])
    200.

Definition liveness : Response :=
  c_json []
    (JObj [ ("status", JStr "ok"); ("auth", JStr "jwt");
            ("version", JStr "2.1.0") ])
    200.

Definition not_found : Response :=
  {| res_status := 404;
     res_headers := [("Content-Type", "text/plain; charset=UTF-8")];
     res_body := TextBody "404 Not Found" |}.

(** Headers set on the context by a middleware reach the response of the
    handler that runs after it. *)
Definition with_headers (hs : list (string * string)) (r : Response) : Response :=
  {| res_status := res_status r;
     res_headers := hs ++ res_headers r;
     res_body := res_body r |}.

(** The advisory headers of the /v1/ middleware; the limits are fixed values. *)
Definition advisory_headers (now_ms : Z) : list (string * string) :=
  [ ("X-RateLimit-Limit", "60");
    ("X-RateLimit-Remaining", "59");
    ("X-RateLimit-Reset", pretty (now_ms / 1000 + 60)%Z);
    ("X-API-Version", API_VERSION) ].

(** [app.use("/metrics-proxy-jwt/v1/*", ...)] *)
Definition v1_middleware (req : Request) (next : AuthResult -> M Response)
  : M Response :=
  let authHeader := header req "Authorization" in
  let* authResult := verifySupabaseJWT authHeader in
  if negb (valid authResult)
  then ret (c_json []
              (JObj [ ("error", JStr "Unauthorized");
                      ("message", js_of (error authResult));
                      ("hint",
                        JStr "Provide a valid Supabase JWT in Authorization header") ])
              401)
  else
    let* t := Date_now in
    let* r := next authResult in
    ret (with_headers (advisory_headers t) r).

Definition v1_prefix : string := "/metrics-proxy-jwt/v1".

Definition under_v1 (path : string) : bool :=
  String.eqb path v1_prefix || startsWith path (v1_prefix +:+ "/").

Definition v1_route (req : Request) (authResult : AuthResult) : M Response :=
  let path := req_path req in
  if String.eqb path "/metrics-proxy-jwt/v1/metrics/aggregate"
  then v1_aggregate authResult req
  else if String.eqb path "/metrics-proxy-jwt/v1/health/detailed"
  then v1_health_detailed authResult req
  else if String.eqb path "/metrics-proxy-jwt/v1/sessions/events"
  then v1_sessions_events authResult req
  else if String.eqb path "/metrics-proxy-jwt/v1/sessions/export"
  then v1_sessions_export authResult req
  else if String.eqb path "/metrics-proxy-jwt/v1/metrics/replay"
  then ret v1_metrics_replay
  else ret not_found.

Definition cors_headers : list (string * string) :=
  [ ("Access-Control-Allow-Origin", "*") ].

(** The application on a GET request: CORS on every path, the middleware on
    the versioned paths, then the route. *)
Definition app (req : Request) : M Response :=
  let path := req_path req in
  let* r :=
    if under_v1 path then v1_middleware req (v1_route req)
    else if String.eqb path "/metrics-proxy-jwt" then ret root_info
    else if String.eqb path "/metrics-proxy-jwt/health" then ret liveness
    else if String.eqb path "/metrics-proxy-jwt/proxy" then proxy req
    else if String.eqb path "/metrics-proxy-jwt/dashboard" then dashboard req
    else ret not_found in
  ret (with_headers cors_headers r).

End WithEnv.

Definition json_content_type : list (string * string) :=
  [("Content-Type", "application/json")].

(** The world after one call of the fan-out. *)
Definition after_call (env : Env) (start : Z) (internalJWT : string)
    (a : AuthResult) (ep : string) (w : World) : World :=
  let url := VPS_METRICS_ENDPOINT (config env) +:+ ep in
  let hdrs := upstream_headers internalJWT a in
  let latencyMs := Z.max 0 (fetch env url hdrs).2 in
  {| healthState :=
       Health.recordEndpointResult (toISOString env (start + latencyMs)) ep
         (negb (call_fails (fetch env url hdrs).1)) latencyMs (healthState w);
     now := now w;
     trace := trace w ++ [EffFetch url hdrs];
     session_events := session_events w |}.

(** The upstream call of the fan-out for one path. *)
Definition upstream_call (env : Env) (jwt : string) (a : AuthResult)
    (ep : string) : Effect :=
  EffFetch (VPS_METRICS_ENDPOINT (config env) +:+ ep) (upstream_headers jwt a).

(** The response without the three deprecation headers. *)
Definition without_deprecation (r : Response) : Response :=
  {| res_status := res_status r;
     res_headers :=
       List.filter (fun h => negb (String.eqb h.1 "Deprecation" ||
                                   String.eqb h.1 "Sunset" ||
                                   String.eqb h.1 "Link"))
         (res_headers r);
     res_body := res_body r |}.

(** The paths that demand a credential: the versioned family and the two
    legacy relays. *)
Definition authenticated_path (path : string) : bool :=
  under_v1 path ||
  String.eqb path "/metrics-proxy-jwt/proxy" ||
  String.eqb path "/metrics-proxy-jwt/dashboard".

Definition has_header (name : string) (r : Response) : bool :=
  existsb (fun h => String.eqb h.1 name) (res_headers r).

Definition header_value (name : string) (r : Response) : option string :=
  assoc name (res_headers r).

End Edge.

(** ** The internal gatekeeper: the validator behind nginx's [auth_request]
    ([jwt_validator.py], written out by [setup_jwt_auth.sh]) and the nginx
    rule that consults it *)

Module Gatekeeper.

Definition EXPECTED_ISSUER : string := "supabase-metrics-proxy".
Definition EXPECTED_AUDIENCE : string := "vps-metrics-api".

(** The [aud] claim of a token: one audience, several, or a value that is
    neither and that Python takes for true (a number but zero, an object
    with a key, a list with a member that is no string). *)
Inductive Audience :=
| AudOne (a : string)
| AudMany (l : list string)
| AudMalformed.

(** [not payload["aud"]] on a claim that is there *)
Definition falsy (a : Audience) : bool :=
  match a with
  | AudOne a => String.eqb a EmptyString
  | AudMany [] => true
  | _ => false
  end.

(** The claims the validator reads; numeric dates are in whole seconds. *)
Record Claims := {
  sub : option string;
  email : option string;
  iss : option string;
  aud : option Audience;
  iat : option Z;
  nbf : option Z;
  exp : option Z
}.

(** A token that parses: its header algorithm, its claims, the part of it
    that is signed and the signature it carries. *)
Record Jwt := {
  alg : string;
  claims : Claims;
  signing_input : string;
  signature : string
}.

Record Env := {
  (** the content of the secret file, when the file exists *)
  secret_file : option string;
  (** compact serialisation to its parts, [None] when it is malformed *)
  parse : string -> option Jwt;
  (** the message of the error [jwt.decode] raises for a serialisation that
      is malformed *)
  decode_error : string -> string;
  (** HMAC-SHA256 of a message under a key, base64url encoded *)
  hs256 : string -> string -> string;
  (** the validator's clock, seconds since the epoch *)
  now : Z;
  (** whether nginx's [limit_req] turns the request away: the client is over
      10 requests a second with its burst of 20 spent *)
  throttled : bool
}.

(** The exceptions of [jwt.decode], all of them [InvalidTokenError]s. *)
Inductive InvalidTokenError :=
| DecodeError (msg : string)
| InvalidAlgorithmError
| InvalidSignatureError
| ImmatureSignatureError (claim : string)
| ExpiredSignatureError
| MissingRequiredClaimError (claim : string)
| InvalidIssuerError
| InvalidAudienceError.

Definition dq : string := String "034"%char EmptyString.

(** [str(e)] *)
Definition message (e : InvalidTokenError) : string :=
  match e with
  | DecodeError msg => msg
  | InvalidAlgorithmError => "The specified alg value is not allowed"
  | InvalidSignatureError => "Signature verification failed"
  | ImmatureSignatureError c => "The token is not yet valid (" +:+ c +:+ ")"
  | ExpiredSignatureError => "Signature has expired"
  | MissingRequiredClaimError c =>
      "Token is missing the " +:+ dq +:+ c +:+ dq +:+ " claim"
  | InvalidIssuerError => "Invalid issuer"
  | InvalidAudienceError => "Audience doesn't match"
  end.

Definition audiences (a : Audience) : option (list string) :=
  match a with
  | AudOne s => Some [s]
  | AudMany l => Some l
  | AudMalformed => None
  end.

Definition check (ok : bool) (e : InvalidTokenError) : InvalidTokenError + unit :=
  if ok then inr tt else inl e.

Definition and_then {A B} (r : InvalidTokenError + A)
    (k : A -> InvalidTokenError + B) : InvalidTokenError + B :=
  match r with
  | inl e => inl e
  | inr x => k x
  end.

Notation "'check!' c 'else' e 'in' k" := (and_then (check c e) (fun _ => k))
  (at level 10, c at level 9, e at level 9, k at level 200, only parsing).

(** A numeric date, when present, is not in the future. *)
Definition reached (now_s : Z) (date : option Z) : bool :=
  match date with
  | Some t => Z.leb t now_s
  | None => true
  end.

(** A numeric date, when present, is still to come. *)
Definition ahead (now_s : Z) (date : option Z) : bool :=
  match date with
  | Some t => Z.ltb now_s t
  | None => true
  end.

(** The claim checks of [jwt.decode], in the library's order: issued-at,
    not-before, expiry, issuer, audience. *)
Definition validate_claims (now_s : Z) (issuer audience : string) (c : Claims)
  : InvalidTokenError + unit :=
  check! (reached now_s (iat c)) else (ImmatureSignatureError "iat") in
  check! (reached now_s (nbf c)) else (ImmatureSignatureError "nbf") in
  check! (ahead now_s (exp c)) else ExpiredSignatureError in
  match iss c with
  | None => inl (MissingRequiredClaimError "iss")
  | Some i =>
      check! (String.eqb i issuer) else InvalidIssuerError in
      match aud c with
      | None => inl (MissingRequiredClaimError "aud")
      | Some a =>
          if falsy a then inl (MissingRequiredClaimError "aud") else
          match audiences a with
          | None => inl InvalidAudienceError
          | Some l =>
              check! (existsb (String.eqb audience) l)
                else InvalidAudienceError in
              inr tt
          end
      end
  end.

Section WithEnv.
Variable env : Env.

(** [jwt.decode(token, secret, algorithms=["HS256"], issuer=..., audience=...)]:
    the signature is verified before any claim is looked at. *)
Definition jwt_decode (token secret : string) (issuer audience : string)
  : InvalidTokenError + Claims :=
  match parse env token with
  | None => inl (DecodeError (decode_error env token))
  | Some t =>
      check! (String.eqb (alg t) "HS256") else InvalidAlgorithmError in
      check! (String.eqb (signature t) (hs256 env secret (signing_input t)))
        else InvalidSignatureError in
      and_then (validate_claims (now env) issuer audience (claims t))
        (fun _ => inr (claims t))
  end.

(** What the validator answers to nginx. *)
Record Response := {
  status_code : nat;
  detail : option string;
  headers : list (string * string)
}.

Definition HTTPException (code : nat) (reason : string) : Response :=
  {| status_code := code; detail := Some reason; headers := [] |}.

(** An exception no handler catches: the framework answers 500. *)
Definition internal_server_error : Response :=
  {| status_code := 500; detail := None; headers := [] |}.

(** [s.replace(p, r)] of Python: every occurrence, left to right. *)
Fixpoint replace_all_fuel (fuel : nat) (p r s : string) : string :=
  match fuel with
  | O => s
  | S fuel' =>
      if String.prefix p s
      then r +:+ replace_all_fuel fuel' p r
                   (String.substring (String.length p)
                      (String.length s - String.length p) s)
      else match s with
           | EmptyString => EmptyString
           | String c rest => String c (replace_all_fuel fuel' p r rest)
           end
  end.

Definition replace_all (p r s : string) : string :=
  replace_all_fuel (String.length s) p r s.

(** [str.strip()] is left to the reader of the file: [secret_file] is the
    stripped content. *)
Definition get_secret : option string := secret_file env.

(** GET /validate *)
Definition validate_jwt (authorization : option string) : Response :=
  match authorization with
  | None => HTTPException 401 "Missing Authorization header"
  | Some authz =>
      if String.eqb authz EmptyString
      then HTTPException 401 "Missing Authorization header"
      else if negb (String.prefix "Bearer " authz)
      then HTTPException 401 "Invalid Authorization format"
      else
        let token := replace_all "Bearer " EmptyString authz in
        match get_secret with
        | None => internal_server_error
        | Some secret =>
            match jwt_decode token secret EXPECTED_ISSUER EXPECTED_AUDIENCE with
            | inr payload =>
                {| status_code := 200; detail := None;
                   headers :=
                     [ ("X-Auth-User-Id", default EmptyString (sub payload));
                       ("X-Auth-User-Email",
                         default EmptyString (email payload)) ] |}
            | inl ExpiredSignatureError => HTTPException 401 "Token expired"
            | inl InvalidIssuerError => HTTPException 401 "Invalid issuer"
            | inl InvalidAudienceError => HTTPException 401 "Invalid audience"
            | inl e => HTTPException 401 ("Invalid token: " +:+ message e)
            end
        end
  end.

(** The nginx server, for a request with the given method and normalised
    path.  [location = /_validate_jwt] is [internal]: asked for from outside
    it is not found.  [location = /health] is public.  Everything else is
    [location /]: a preflight is answered in the rewrite phase; any other
    request asks the validator first ([auth_request]) and reaches the metrics
    service only on a 2xx answer, carrying the attribution headers of that
    answer.  The server-wide [limit_req] turns a request over the limit away
    with 503 once the rewrite phase is over, before the validator is asked
    and before anything is passed on. *)
Inductive Method := GET | POST | OPTIONS.

Inductive Outcome :=
| Forwarded (uri : string) (attribution : list (string * string))
| Refused (code : nat).

Definition nginx (m : Method) (uri : string) (authorization : option string)
  : Outcome :=
  if String.eqb uri "/_validate_jwt" then Refused 404
  else if String.eqb uri "/health"
  then if throttled env then Refused 503 else Forwarded "/health" []
  else match m with
       | OPTIONS => Refused 204
       | _ =>
           if throttled env then Refused 503 else
           let r := validate_jwt authorization in
           if Nat.leb 200 (status_code r) && Nat.leb (status_code r) 299
           then Forwarded uri (headers r)
           else if Nat.eqb (status_code r) 401 || Nat.eqb (status_code r) 403
           then Refused (status_code r)
           else Refused 500
       end.

(** The token a header carries is fully valid: it parses, is signed with
    HS256 under the shared secret, is current, and names the expected issuer
    and audience. *)
Definition signed (secret : string) (t : Jwt) : Prop :=
  alg t = "HS256" ∧ signature t = hs256 env secret (signing_input t).

(** Issued and valid from no later than now. *)
Definition started (t : Jwt) : Prop :=
  (∀ x, iat (claims t) = Some x → (x <= now env)%Z) ∧
  (∀ x, nbf (claims t) = Some x → (x <= now env)%Z).

(** The issued-at date is still to come. *)
Definition issued_ahead (t : Jwt) : Prop :=
  ∃ x, iat (claims t) = Some x ∧ (now env < x)%Z.

(** The not-before date is still to come. *)
Definition valid_ahead (t : Jwt) : Prop :=
  ∃ x, nbf (claims t) = Some x ∧ (now env < x)%Z.

Definition expired (t : Jwt) : Prop :=
  ∃ x, exp (claims t) = Some x ∧ (x <= now env)%Z.

Definition right_issuer (t : Jwt) : Prop :=
  iss (claims t) = Some EXPECTED_ISSUER.

Definition wrong_issuer (t : Jwt) : Prop :=
  ∃ i, iss (claims t) = Some i ∧ i ≠ EXPECTED_ISSUER.

Definition right_audience (t : Jwt) : Prop :=
  ∃ a l, aud (claims t) = Some a ∧ audiences a = Some l ∧
         EXPECTED_AUDIENCE ∈ l.

Definition fully_valid (secret : string) (t : Jwt) : Prop :=
  signed secret t ∧ started t ∧ ¬ expired t ∧
  right_issuer t ∧ right_audience t.

(** The audience claim is there and does not name the expected audience. *)
Definition wrong_audience (t : Jwt) : Prop :=
  ∃ a, aud (claims t) = Some a ∧
       ∀ l, audiences a = Some l → EXPECTED_AUDIENCE ∉ l.

(** The audience claim is absent, or is the empty string or the empty
    list. *)
Definition no_audience (t : Jwt) : Prop :=
  aud (claims t) = None ∨ ∃ a, aud (claims t) = Some a ∧ falsy a = true.

End WithEnv.

(** The answer that lets a request through, with its attribution headers. *)
Definition allow (t : Jwt) : Response :=
  {| status_code := 200; detail := None;
     headers := [ ("X-Auth-User-Id", default EmptyString (sub (claims t)));
                  ("X-Auth-User-Email", default EmptyString (email (claims t))) ] |}.

End Gatekeeper.

Module Samples.
Import Js Edge.

Definition json_of (r : Response) : JsVal :=
  match res_body r with
  | JsonBody v => v
  | TextBody _ => JUndefined
  end.

Definition sample_config (secret : string) : Config :=
  {| SUPABASE_URL := "https://project.supabase.co";
     SUPABASE_ANON_KEY := "anon-key";
     SUPABASE_SERVICE_ROLE_KEY := "service-role-key";
     VPS_METRICS_ENDPOINT := "https://metrics.example";
     INTERNAL_JWT_SECRET := secret |}.

(** An environment to run the relay in: one known browser token, a signing
    primitive that refuses an empty key, and the given upstream. *)
Definition sample_env (secret : string)
    (upstream : string → FetchOutcome * Z) : Env :=
  {| config := sample_config secret;
     auth_getUser := fun token =>
       (if String.eqb token "browser-token"
        then GotUser "user-1" (Some "ops@example.com") None
        else GetUserError "invalid JWT", 5%Z);
     fetch := fun url _ => upstream url;
     hs256_sign := fun key msg =>
       if String.eqb key EmptyString
       then throw (JsError "DataError" "Zero-length key is not supported")
       else ok ("mac-" +:+ key);
     base64url_json := fun _ => "e30";
     toISOString := fun ms => pretty ms;
     Number_toString := fun q => pretty (Qnum q);
     timestamptz_json := fun us => pretty us;
     parseInt := fun _ => None;
     select_error := None;
     clock_step := 0 |}.

(** The same environment without an upstream base address. *)
Definition unconfigured_env (upstream : string → FetchOutcome * Z) : Env :=
  let e := sample_env "k" upstream in
  {| config := {| SUPABASE_URL := "https://project.supabase.co";
                  SUPABASE_ANON_KEY := "anon-key";
                  SUPABASE_SERVICE_ROLE_KEY := "service-role-key";
                  VPS_METRICS_ENDPOINT := EmptyString;
                  INTERNAL_JWT_SECRET := "k" |};
     auth_getUser := auth_getUser e;
     fetch := fetch e;
     hs256_sign := hs256_sign e;
     base64url_json := base64url_json e;
     toISOString := toISOString e;
     Number_toString := Number_toString e;
     timestamptz_json := timestamptz_json e;
     parseInt := parseInt e;
     select_error := select_error e;
     clock_step := clock_step e |}.

(** The sample environment without the address of the identity provider. *)
Definition no_provider_env : Env :=
  let e := sample_env "k" (fun _ => (FetchThrows (JsError "TypeError"
                                        "error sending request"), 30%Z)) in
  {| config := {| SUPABASE_URL := EmptyString;
                  SUPABASE_ANON_KEY := "anon-key";
                  SUPABASE_SERVICE_ROLE_KEY := "service-role-key";
                  VPS_METRICS_ENDPOINT := "https://metrics.example";
                  INTERNAL_JWT_SECRET := "k" |};
     auth_getUser := auth_getUser e;
     fetch := fetch e;
     hs256_sign := hs256_sign e;
     base64url_json := base64url_json e;
     toISOString := toISOString e;
     Number_toString := Number_toString e;
     timestamptz_json := timestamptz_json e;
     parseInt := parseInt e;
     select_error := select_error e;
     clock_step := clock_step e |}.

(** An environment whose clock moves on by a millisecond between two reads
    of one run, and which renders a header or claims set readably. *)
Definition ticking_env : Env :=
  let e := sample_env "k" (fun _ => (FetchThrows (JsError "TypeError"
                                        "error sending request"), 30%Z)) in
  {| config := config e;
     auth_getUser := auth_getUser e;
     fetch := fetch e;
     hs256_sign := hs256_sign e;
     base64url_json := stringify e;
     toISOString := toISOString e;
     Number_toString := Number_toString e;
     timestamptz_json := timestamptz_json e;
     parseInt := parseInt e;
     select_error := select_error e;
     clock_step := 1 |}.

(** A world whose clock reads the last millisecond of a second. *)
Definition end_of_second : World :=
  {| healthState := ∅; now := 1700000000999; trace := [];
     session_events := [] |}.

Definition unreachable_upstream (url : string) : FetchOutcome * Z :=
  (FetchThrows (JsError "TypeError" "error sending request"), 30%Z).


Definition cold_start : World :=
  {| healthState := ∅; now := 1700000000123; trace := [];
     session_events := [] |}.

Definition nine_successes : list Health.Observation :=
  replicate 9 {| Health.obs_endpoint := "/brokers/status";
                 Health.obs_success := true;
                 Health.obs_latencyMs := 20;
                 Health.obs_time := "earlier" |}.

(** A process that has served nine good aggregations of the broker status. *)
Definition warmed_up : World :=
  {| healthState := Health.replay nine_successes; now := 1700000000123;
     trace := []; session_events := [] |}.

(** A process whose one endpoint has seen 23 successes, then 17 failures. *)
Definition after_mixed_history : World :=
  {| healthState := Health.replay Health.mixed_history; now := 1700000000123;
     trace := []; session_events := [] |}.

Definition login_event : SessionEvent :=
  {| id := 7; session_id := "s-1"; user_id := "user-1";
     event_type := "login"; event_payload := JObj [];
     timestamp_utc := 1700000000000000 |}.

(** A session table holding one login of the known user. *)
Definition one_login : World :=
  {| healthState := ∅; now := 1700000000123; trace := [];
     session_events := [login_event] |}.

Definition browser_request (path : string) (q : list (string * string)) : Request :=
  {| req_path := path; req_query := q;
     req_headers := [("Authorization", "Bearer browser-token")] |}.

Definition verified : AuthResult :=
  {| valid := true; userId := Some "user-1"; email := Some "ops@example.com";
     role := Some "authenticated"; error := None |}.

(** A gatekeeper with its secret in place, and two tokens it can be shown:
    one minted for this boundary and one minted for another audience. *)
Definition internal_token (audience : string) : Gatekeeper.Jwt :=
  {| Gatekeeper.alg := "HS256";
     Gatekeeper.claims :=
       {| Gatekeeper.sub := Some "user-1";
          Gatekeeper.email := Some "ops@example.com";
          Gatekeeper.iss := Some "supabase-metrics-proxy";
          Gatekeeper.aud := Some (Gatekeeper.AudOne audience);
          Gatekeeper.iat := Some 1700000000%Z;
          Gatekeeper.nbf := None;
          Gatekeeper.exp := Some 1700000060%Z |};
     Gatekeeper.signing_input := "e30.e30";
     Gatekeeper.signature := "mac-k" |}.

Definition sample_gatekeeper : Gatekeeper.Env :=
  {| Gatekeeper.secret_file := Some "k";
     Gatekeeper.parse := fun token =>
       if String.eqb token "for-this-boundary"
       then Some (internal_token "vps-metrics-api")
       else if String.eqb token "for-another-audience"
       then Some (internal_token "billing-api")
       else None;
     Gatekeeper.decode_error := fun _ => "Not enough segments";
     Gatekeeper.hs256 := fun key _ => "mac-" +:+ key;
     Gatekeeper.now := 1700000030;
     Gatekeeper.throttled := false |}.

(** The same gatekeeper with the client over its rate limit. *)
Definition busy_gatekeeper : Gatekeeper.Env :=
  {| Gatekeeper.secret_file := Gatekeeper.secret_file sample_gatekeeper;
     Gatekeeper.parse := Gatekeeper.parse sample_gatekeeper;
     Gatekeeper.decode_error := Gatekeeper.decode_error sample_gatekeeper;
     Gatekeeper.hs256 := Gatekeeper.hs256 sample_gatekeeper;
     Gatekeeper.now := Gatekeeper.now sample_gatekeeper;
     Gatekeeper.throttled := true |}.

(** The same gatekeeper half a minute after the tokens have expired. *)
Definition late_gatekeeper : Gatekeeper.Env :=
  {| Gatekeeper.secret_file := Gatekeeper.secret_file sample_gatekeeper;
     Gatekeeper.parse := Gatekeeper.parse sample_gatekeeper;
     Gatekeeper.decode_error := Gatekeeper.decode_error sample_gatekeeper;
     Gatekeeper.hs256 := Gatekeeper.hs256 sample_gatekeeper;
     Gatekeeper.now := 1700000090;
     Gatekeeper.throttled := false |}.

End Samples.

(** ** A working upstream, for running the relay end to end *)

Module Scenario.
Import Js Edge.

(** The broker is connected, one position is open, two strategies are in
    the proving pipeline (one active, one queued), the promotions endpoint
    is down and the gate is quiet. *)
Definition live_upstream (url : string) : FetchOutcome * Z :=
  if String.eqb url "https://metrics.example/brokers/status" then
    (FetchResponse 200 "OK"
       (Some (JObj [ ("connected", JBool true); ("latency_ms", JNat 12) ])),
     20%Z)
  else if String.eqb url "https://metrics.example/trades/live" then
    (FetchResponse 200 "OK"
       (Some (JObj [ ("positions",
                       JArr [ JObj [ ("symbol", JStr "ES");
                                     ("quantity", JNat 2);
                                     ("avg_price", JNat 5000) ] ]) ])),
     45%Z)
  else if String.eqb url "https://metrics.example/strategies/proving" then
    (FetchResponse 200 "OK"
       (Some (JObj [ ("strategies",
                       JArr [ JObj [ ("state", JStr "active") ];
                              JObj [ ("state", JStr "queued") ] ]) ])),
     30%Z)
  else if String.eqb url "https://metrics.example/strategies/promotions" then
    (FetchResponse 503 "Service Unavailable" None, 10%Z)
  else
    (FetchResponse 200 "OK" (Some (JObj [])), 15%Z).

Definition live_env : Env := Samples.sample_env "k" live_upstream.

End Scenario.

(** ** The hand-off of the internal token from the relay to the gatekeeper *)

Module Handoff.
Import Js Edge.

(** The claims set as the validator reads it off the wire, for the values
    the relay writes: a string, a whole number, or a property left out
    because it was [undefined].  A string claim: *)
Definition claim_string (payload : list (string * JsVal)) (k : string)
  : option string :=
  match assoc k payload with
  | Some (JStr x) => Some x
  | _ => None
  end.

(** A numeric date of the payload in whole seconds ([int(payload[k])]). *)
Definition claim_date (payload : list (string * JsVal)) (k : string)
  : option Z :=
  match assoc k payload with
  | Some (JNum q) => Some (Z.quot (Qnum q) (Zpos (Qden q)))
  | _ => None
  end.

(** The audience claim; a claim that is absent or falsy ([None], the empty
    string, the empty list) counts as missing. *)
Definition claim_audience (payload : list (string * JsVal))
  : option Gatekeeper.Audience :=
  match assoc "aud" payload with
  | None | Some JUndefined | Some JNull | Some (JBool false)
  | Some (JObj []) => None
  | Some (JNum q) => if Qeq_bool q 0 then None
                     else Some Gatekeeper.AudMalformed
  | Some (JStr x) =>
      if String.eqb x EmptyString then None else Some (Gatekeeper.AudOne x)
  | Some (JArr []) => None
  | Some (JArr l) =>
      Some (if forallb (fun v => match v with JStr _ => true | _ => false end) l
            then Gatekeeper.AudMany
                   (flat_map (fun v => match v with JStr x => [x] | _ => [] end) l)
            else Gatekeeper.AudMalformed)
  | Some _ => Some Gatekeeper.AudMalformed
  end.

(** The claims the validator reads from a claims set the relay serialised. *)
Definition decode_claims (payload : list (string * JsVal))
  : Gatekeeper.Claims :=
  {| Gatekeeper.sub := claim_string payload "sub";
     Gatekeeper.email := claim_string payload "email";
     Gatekeeper.iss := claim_string payload "iss";
     Gatekeeper.aud := claim_audience payload;
     Gatekeeper.iat := claim_date payload "iat";
     Gatekeeper.nbf := claim_date payload "nbf";
     Gatekeeper.exp := claim_date payload "exp" |}.

(** The token the validator has in hand when it reads a serialisation whose
    signed part is [input], made of the given header and claims set, and
    whose signature is [sig]. *)
Definition received (input : string) (header payload : list (string * JsVal))
    (sig : string) : Gatekeeper.Jwt :=
  {| Gatekeeper.alg := default EmptyString (claim_string header "alg");
     Gatekeeper.claims := decode_claims payload;
     Gatekeeper.signing_input := input;
     Gatekeeper.signature := sig |}.

(** The token the sample relay whose clock ticks mints for the known user in
    the last millisecond of a second: its claims set and its signed part. *)
Definition minted_claims : list (string * JsVal) :=
  [ ("sub", JStr "user-1"); ("email", JStr "ops@example.com");
    ("roles", JArr [JStr "authenticated"]);
    ("aud", JStr "vps-metrics-api");
    ("iat", JInt 1700000000);
    ("iss", JStr "supabase-metrics-proxy");
    ("exp", JInt 1700000061) ].

Definition minted_input : string :=
  base64url_json Samples.ticking_env (JObj [ ("alg", JStr "HS256") ]) +:+
  "." +:+ base64url_json Samples.ticking_env (JObj minted_claims).

(** A gatekeeper that shares the secret and the MAC of the sample relay, can
    read that one token, and whose clock reads [t]. *)
Definition paired_gatekeeper (t : Z) : Gatekeeper.Env :=
  {| Gatekeeper.secret_file := Some "k";
     Gatekeeper.parse := fun token =>
       if String.eqb token (minted_input +:+ ".mac-k")
       then Some (received minted_input [ ("alg", JStr "HS256") ]
                    minted_claims "mac-k")
       else None;
     Gatekeeper.decode_error := fun _ => "Not enough segments";
     Gatekeeper.hs256 := fun key _ => "mac-" +:+ key;
     Gatekeeper.now := t;
     Gatekeeper.throttled := false |}.

End Handoff.

(** ** The browser client of the relay ([metrics-jwt.ts], as bundled with the
    session timeline) *)

Module Client.
Import Js Edge.

Record Session := {
  access_token : string;
  user_id : string;
  user_email : option string
}.

(** What [supabase.auth.getSession()] can do; a failure to build the client
    is a throw as well. *)
Inductive GetSessionOutcome :=
| GotSession (s : option Session) (error : bool)
| GetSessionThrows.

Record Env := {
  getSession : GetSessionOutcome;
  (** the network between the browser and the deployed function: [Some e]
      when [fetch] rejects *)
  offline : option Exn;
  (** the deployed function *)
  relay : Edge.Env
}.

Record AuthState := {
  authenticated : bool;
  user : option (string * string);
  session : option Session
}.

Definition signed_out : AuthState :=
  {| authenticated := false; user := None; session := None |}.

Record FetchResult := {
  data : JsVal;
  error : JsVal;
  source : string
}.

Record ProxyHealth := {
  healthy : bool;
  auth : JsVal;
  vpsConfigured : JsVal
}.

Definition unhealthy : ProxyHealth :=
  {| healthy := false; auth := JStr "unknown"; vpsConfigured := JBool false |}.

(** A value after [JSON.stringify] on one side and [JSON.parse] on the
    other: a property that is [undefined] is gone, an element that is
    [undefined] is [null]. *)
Fixpoint wire (v : JsVal) : JsVal :=
  match v with
  | JUndefined => JNull
  | JArr l => JArr (map wire l)
  | JObj fields =>
      JObj (flat_map (fun kv => match kv with
                                | (_, JUndefined) => []
                                | (k, x) => [(k, wire x)]
                                end) fields)
  | x => x
  end.

(** [response.json()] *)
Definition response_json (r : Response) : Result JsVal :=
  match res_body r with
  | JsonBody v => ok (wire v)
  | TextBody _ => throw json_syntax_error
  end.

Definition not_authenticated : FetchResult :=
  {| data := JNull; error := JStr "Not authenticated. Please sign in.";
     source := "error" |}.

Definition session_expired : FetchResult :=
  {| data := JNull; error := JStr "Session expired. Please sign in again.";
     source := "error" |}.

(** The route of the function a URL under [EDGE_FUNCTION_BASE] reaches, and
    its query; [encodeURIComponent] is undone by the server. *)
Definition getSessionExportUrl (sessionId format : string)
  : string * list (string * string) :=
  ("/metrics-proxy-jwt/v1/sessions/export",
   [("session_id", sessionId); ("format", format)]).

Section WithEnv.
Variable env : Env.

Definition getAuthState : AuthState :=
  match getSession env with
  | GotSession (Some s) false =>
      {| authenticated := true;
         user := Some (user_id s, opt_str_or (user_email s) EmptyString);
         session := Some s |}
  | _ => signed_out
  end.

(** [authState.session?.access_token || null] *)
Definition getJWT : option string :=
  match session getAuthState with
  | Some s => if truthy (JStr (access_token s)) then Some (access_token s)
              else None
  | None => None
  end.

Definition buildHeaders (sessionId : string)
  : option (list (string * string)) :=
  match getJWT with
  | None => None
  | Some jwt =>
      Some ([ ("Authorization", "Bearer " +:+ jwt);
              ("Content-Type", "application/json") ] ++
            (if truthy (JStr sessionId) then [("X-Session-Id", sessionId)]
             else []))
  end.

(** [fetch(url, { headers })] against the deployed function. *)
Definition fetch (path : string) (q headers : list (string * string))
  : M Response :=
  match offline env with
  | Some e => raise e
  | None => app (relay env)
              {| req_path := path; req_query := q; req_headers := headers |}
  end.

(** [errorData.error || `Request failed: ${response.status}`] *)
Definition failure_of (response : Response) : M FetchResult :=
  let errorData := match response_json response with
                   | inr v => v
                   | inl _ => JObj []
                   end in
  let* e := lift (get errorData "error") in
  ret {| data := JNull;
         error := or_else e (JStr ("Request failed: " +:+
                                   pretty (res_status response)));
         source := "error" |}.

(** The deprecated fetch of the legacy route. *)
Definition fetchDashboardData (sessionId : string) : M FetchResult :=
  try_catch
    (match buildHeaders sessionId with
     | None => ret not_authenticated
     | Some headers =>
         let* response := fetch "/metrics-proxy-jwt/dashboard" [] headers in
         if Nat.eqb (res_status response) 401 then ret session_expired
         else if negb (res_ok (res_status response)) then failure_of response
         else
           let* d := lift (response_json response) in
           ret {| data := d; error := JNull; source := "vps" |}
     end)
    (fun err => ret {| data := JNull; error := JStr (exn_message err);
                       source := "error" |}).

(** The fetch of the versioned route, with its fall-back to the legacy one. *)
Definition fetchAggregateData (sessionId : string) : M FetchResult :=
  try_catch
    (match buildHeaders sessionId with
     | None => ret not_authenticated
     | Some headers =>
         let* response :=
           fetch "/metrics-proxy-jwt/v1/metrics/aggregate" [] headers in
         if Nat.eqb (res_status response) 401 then ret session_expired
         else if res_ok (res_status response) then
           let* d := lift (response_json response) in
           ret {| data := d; error := JNull; source := "vps" |}
         else fetchDashboardData sessionId
     end)
    (fun _ => fetchDashboardData sessionId).

Definition checkProxyHealth : M ProxyHealth :=
  try_catch
    (let* response := fetch "/metrics-proxy-jwt" [] [] in
     if negb (res_ok (res_status response)) then ret unhealthy
     else
       let* d := lift (response_json response) in
       let* st := lift (get d "status") in
       let* au := lift (get d "auth") in
       let* vc := lift (get d "vpsConfigured") in
       ret {| healthy := is_str "ok" st;
              auth := or_else au (JStr "unknown");
              vpsConfigured := or_else vc (JBool false) |})
    (fun _ => ret unhealthy).

(** [handleExport] of the session timeline: [window.open] on the export
    URL, a navigation, which carries no Authorization header. *)
Definition handleExport (sessionId format : string) : M Response :=
  let url := getSessionExportUrl sessionId format in
  fetch url.1 url.2 [].

End WithEnv.

(** A browser signed in with the given access token, online, in front of
    the given function. *)
Definition signed_in (token : string) (relay : Edge.Env) : Env :=
  {| getSession :=
       GotSession (Some {| access_token := token; user_id := "user-1";
                           user_email := Some "ops@example.com" |}) false;
     offline := None;
     relay := relay |}.

End Client.

(** ** The earlier relay, guarded by an API key ([metrics-proxy]) *)

Module KeyProxy.
Import Js Edge.

Record Env := {
  VPS_METRICS_ENDPOINT : string;
  PROXY_API_KEY : string;
  fetch : string -> list (string * string) -> FetchOutcome * Z;
  toISOString : Z -> string
}.

Definition ALLOWED_PATHS : list string :=
  [ "/health"; "/brokers/status"; "/trades/live"; "/trades/history";
    "/strategies/proving"; "/strategies/promotions"; "/metrics/gate-pressure";
    "/docs"; "/redoc" ].

(** [s.includes(sub)] *)
Definition includes (s sub : string) : bool :=
  match String.index 0 sub s with
  | Some _ => true
  | None => false
  end.

Definition unauthorized : Response :=
  c_json [] (JObj [ ("error", JStr "Unauthorized") ]) 401.

Section WithEnv.
Variable env : Env.

Definition path_allowed (path : string) : bool :=
  existsb (fun p => String.eqb path p || startsWith path (p +:+ "/"))
    ALLOWED_PATHS.

(** GET /metrics-proxy/proxy?path=... *)
Definition proxy (req : Request) : M Response :=
  try_catch
    (let path := query req "path" in
     if negb (truthy (JStr path)) || negb (path_allowed path)
     then ret (c_json []
                 (JObj [ ("error", JStr "Invalid path");
                         ("allowed", JArr (map JStr ALLOWED_PATHS));
                         ("received", JStr path) ]) 400)
     else
       let authHeader := header req "Authorization" in
       if truthy (JStr (PROXY_API_KEY env)) &&
          negb (includes authHeader (PROXY_API_KEY env))
       then ret unauthorized
       else if negb (truthy (JStr (VPS_METRICS_ENDPOINT env)))
       then ret (c_json []
                   (JObj [ ("error", JStr "VPS endpoint not configured");
                           ("hint",
                             JStr "Set VPS_METRICS_ENDPOINT environment variable") ])
                   503)
       else
         let vpsUrl := VPS_METRICS_ENDPOINT env +:+ path in
         let hdrs := [ ("Content-Type", "application/json");
                       ("Authorization", "Bearer " +:+ PROXY_API_KEY env) ] in
         do emit (EffFetch vpsUrl hdrs) then
         do elapse (fetch env vpsUrl hdrs).2 then
         match (fetch env vpsUrl hdrs).1 with
         | FetchThrows e => raise e
         | FetchResponse st statusText body =>
             if negb (res_ok st)
             then
               if body_allowed st
               then ret (c_json []
                           (JObj [ ("error", JStr "VPS request failed");
                                   ("status", JNat st);
                                   ("statusText", JStr statusText) ]) st)
               else raise (response_init_error st)
             else match body with
                  | None => raise json_syntax_error
                  | Some data =>
                      let* t := Date_now in
                      ret (c_json []
                             (JObj (set_field "_proxy"
                                      (JObj [ ("source", JStr "vps");
                                              ("timestamp",
                                                JStr (toISOString env t));
                                              ("path", JStr path) ])
                                      (spread data))) 200)
                  end
         end)
    (fun e => ret (c_json [] (error_body "Proxy error" e) 500)).

End WithEnv.

(** A relay with the key "k3y" in front of an upstream that answers. *)
Definition keyed : Env :=
  {| VPS_METRICS_ENDPOINT := "https://metrics.example";
     PROXY_API_KEY := "k3y";
     fetch := fun url _ => Scenario.live_upstream url;
     toISOString := fun ms => pretty ms |}.

End KeyProxy.

(** * Properties *)

(** ** Health monitor *)

Module DoubleFacts.
Import Double.

Lemma nearest_even_floor q : (Qfloor q <= nearest_even q)%Z.
Proof.
  unfold nearest_even.
  destruct (q - inject_Z (Qfloor q) ?= 1 # 2)%Q; [|lia|lia].
  destruct (Z.even (Qfloor q)); lia.
Qed.

(** Rounding to the nearest integer does not step over an integer. *)
Lemma nearest_even_le q (M : Z) :
  (q <= inject_Z M)%Q → (nearest_even q <= M)%Z.
Proof.
  intros Hq.
  assert (Hf : (Qfloor q <= M)%Z).
  { rewrite <- (Qfloor_Z M). by apply Qfloor_resp_le. }
  destruct (Z.eq_dec (Qfloor q) M) as [Heq|Hne].
  - assert (Hz : (q - inject_Z (Qfloor q) <= 0)%Q).
    { rewrite Heq. unfold Qminus. rewrite <- (Qplus_opp_r (inject_Z M)).
      apply Qplus_le_compat; [done | apply Qle_refl]. }
    unfold nearest_even.
    destruct (q - inject_Z (Qfloor q) ?= 1 # 2)%Q eqn:Hc; [| lia |].
    + apply Qeq_alt in Hc. rewrite Hc in Hz. by compute in Hz.
    + apply Qgt_alt in Hc. exfalso. apply (Qlt_not_le _ _ Hc).
      eapply Qle_trans; [exact Hz | done].
  - unfold nearest_even.
    destruct (q - inject_Z (Qfloor q) ?= 1 # 2)%Q; [|lia|lia].
    destruct (Z.even (Qfloor q)); lia.
Qed.

Lemma ilog2_small (x : Q) :
  (0 < x)%Q → (x < inject_Z (2 ^ 53))%Q → (ilog2 x <= 52)%Z.
Proof.
  destruct x as [n d]. unfold Qlt, ilog2. cbn [Qnum Qden inject_Z].
  intros Hpos Hlt.
  assert (Hn : (0 < n)%Z) by lia.
  assert (He0 : (Z.log2 n - Z.log2 (Z.pos d) <= 53)%Z).
  { pose proof (Z.log2_spec (Z.pos d) eq_refl) as [_ Hd].
    pose proof (Z.log2_nonneg (Z.pos d)) as Hld.
    assert (Hb : (Z.log2 n < 54 + Z.log2 (Z.pos d))%Z); [|lia].
    apply Z.log2_lt_pow2; [done|].
    rewrite Z.pow_add_r by lia.
    replace (Z.succ (Z.log2 (Z.pos d))) with (1 + Z.log2 (Z.pos d))%Z in Hd
      by lia.
    rewrite Z.pow_add_r in Hd by lia.
    change (2 ^ 1)%Z with 2%Z in Hd. change (2 ^ 54)%Z with (2 * 2 ^ 53)%Z.
    nia. }
  destruct (Qle_bool (pow2 (Z.log2 n - Z.log2 (Z.pos d))) (n # d)) eqn:Hc;
    [|lia].
  destruct (Z.eq_dec (Z.log2 n - Z.log2 (Z.pos d))%Z 53%Z) as [H53|]; [|lia].
  exfalso. rewrite H53 in Hc. apply Qle_bool_iff in Hc.
  unfold Qle in Hc. cbn in Hc. lia.
Qed.

(** A quantity between zero and a whole number below 2^53 rounds to a
    double in the same range. *)
Lemma RN_between (x : Q) (N : Z) :
  (0 <= x)%Q → (x <= inject_Z N)%Q → (N < 2 ^ 53)%Z →
  (0 <= RN x)%Q ∧ (RN x <= inject_Z N)%Q.
Proof.
  intros H0 HN Hsmall.
  assert (HN0 : (0 <= inject_Z N)%Q) by (by eapply Qle_trans).
  unfold RN. destruct (Qeq_bool x 0) eqn:Hz; [by split|].
  apply Qeq_bool_neq in Hz.
  assert (Hpos : (0 < x)%Q).
  { apply Qle_lteq in H0 as [?|Heq]; [done|]. by destruct Hz. }
  assert (Habs : Qabs x = x).
  { destruct x as [n d]. unfold Qlt in Hpos. cbn in Hpos.
    unfold Qabs. f_equal. lia. }
  assert (Hlt : (x < inject_Z (2 ^ 53))%Q).
  { eapply Qle_lt_trans; [exact HN|]. rewrite <- Zlt_Qlt. exact Hsmall. }
  pose proof (ilog2_small x Hpos Hlt) as Hlog.
  unfold ulp_exponent. rewrite Habs.
  set (e := Z.max (ilog2 x - 52) (-1074)).
  assert (He : (e <= 0)%Z) by (unfold e; lia).
  rewrite Qred_correct.
  destruct e as [|p|p]; [| lia |].
  - cbn [pow2].
    assert (Hq : (x / 1 == x)%Q) by (field).
    split.
    + rewrite Qmult_1_r. rewrite <- (Zle_Qle 0).
      eapply Z.le_trans; [|apply nearest_even_floor].
      change 0%Z with (Qfloor 0). by apply Qfloor_resp_le; rewrite Hq.
    + rewrite Qmult_1_r. rewrite <- Zle_Qle.
      apply nearest_even_le. by rewrite Hq.
  - cbn [pow2]. set (D := (2 ^ p)%positive).
    assert (Hq : (x / (1 # D) == x * inject_Z (Z.pos D))%Q).
    { unfold Qeq, Qdiv, Qmult, Qinv. cbn. lia. }
    assert (Hup : (nearest_even (x / (1 # D)) <= N * Z.pos D)%Z).
    { apply nearest_even_le. rewrite Hq, inject_Z_mult.
      apply Qmult_le_compat_r; [done|]. by rewrite <- (Zle_Qle 0). }
    assert (Hlow : (0 <= nearest_even (x / (1 # D)))%Z).
    { eapply Z.le_trans; [|apply nearest_even_floor].
      change 0%Z with (Qfloor 0). apply Qfloor_resp_le. rewrite Hq.
      apply Qmult_le_0_compat; [done|]. by rewrite <- (Zle_Qle 0). }
    split.
    + unfold Qle, Qmult. cbn. lia.
    + unfold Qle, Qmult. cbn. nia.
Qed.

Lemma nearest_even_integer (q : Q) (m : Z) :
  (q == inject_Z m)%Q → nearest_even q = m.
Proof.
  intros Hq. unfold nearest_even.
  assert (Hf : Qfloor q = m) by (by rewrite Hq, Qfloor_Z).
  rewrite Hf.
  assert (Hc : (q - inject_Z m ?= 1 # 2)%Q = Lt); [|by rewrite Hc].
  apply (proj1 (Qlt_alt _ _)). rewrite Hq. unfold Qlt. cbn. lia.
Qed.

(** A whole number below 2^53 is a double. *)
Lemma RN_integer (z : Z) :
  (0 <= z < 2 ^ 53)%Z → RN (inject_Z z) = inject_Z z.
Proof.
  intros [H0 Hsmall]. unfold RN.
  destruct (Qeq_bool (inject_Z z) 0) eqn:Hz.
  { apply Qeq_bool_eq in Hz. unfold Qeq in Hz. cbn in Hz.
    by replace z with 0%Z by lia. }
  apply Qeq_bool_neq in Hz.
  assert (Hpos : (0 < z)%Z).
  { destruct (Z.eq_dec z 0%Z) as [->|]; [by destruct Hz | lia]. }
  assert (Hlog : (ilog2 (inject_Z z) <= 52)%Z).
  { apply ilog2_small; [change 0%Q with (inject_Z 0)|];
      rewrite <- Zlt_Qlt; lia. }
  assert (Hred : ∀ q, (q == inject_Z z)%Q → Qred q = inject_Z z).
  { intros q Hq. rewrite (Qred_complete _ _ Hq).
    unfold Qred, inject_Z.
    pose proof (Z.ggcd_gcd z 1) as Hg.
    pose proof (Z.ggcd_correct_divisors z 1) as Hd.
    destruct (Z.ggcd z 1) as [g [n d]]. cbn in Hg, Hd |- *.
    rewrite Z.gcd_1_r in Hg. subst g. destruct Hd as [Hn Hd].
    f_equal; lia. }
  unfold ulp_exponent.
  change (Qabs (inject_Z z)) with (inject_Z (Z.abs z)).
  rewrite Z.abs_eq by lia.
  set (e := Z.max (ilog2 (inject_Z z) - 52) (-1074)).
  assert (He : (e <= 0)%Z) by (unfold e; lia).
  destruct e as [|p|p]; [| lia |].
  - cbn [pow2].
    rewrite (nearest_even_integer _ z) by (unfold Qeq; cbn; lia).
    apply Hred. unfold Qeq. cbn. lia.
  - cbn [pow2]. set (D := (2 ^ p)%positive).
    rewrite (nearest_even_integer _ (z * Z.pos D))
      by (unfold Qeq; cbn; lia).
    apply Hred. unfold Qeq. cbn. lia.
Qed.

(** Whole numbers add up exactly as long as the sum stays below 2^53. *)
Lemma add_integers (a b : Z) :
  (0 <= a + b < 2 ^ 53)%Z →
  add (inject_Z a) (inject_Z b) = inject_Z (a + b).
Proof.
  intros H. unfold add.
  change (inject_Z a + inject_Z b)%Q with (inject_Z (a * 1 + b * 1)).
  rewrite !Z.mul_1_r. by apply RN_integer.
Qed.

End DoubleFacts.

Module HealthFacts.
Import Health.

Lemma replay_snoc h o : replay (h ++ [o]) = observe (replay h) o.
Proof. unfold replay. by rewrite foldl_app. Qed.

Lemma reaches_replay h : reaches h (replay h).
Proof.
  induction h as [|o h IH] using rev_ind; [constructor|].
  rewrite replay_snoc. by constructor.
Qed.

Lemma reaches_inv h hs : reaches h hs → hs = replay h.
Proof.
  induction 1 as [|h hs o _ IH]; [done|].
  by rewrite replay_snoc, IH.
Qed.

Lemma on_endpoint_snoc ep h o :
  on_endpoint ep (h ++ [o]) =
  on_endpoint ep h ++ (if decide (obs_endpoint o = ep) then [o] else []).
Proof.
  unfold on_endpoint. rewrite filter_app. by f_equal.
Qed.

Lemma tail_snoc {A} (l : list A) x : l ≠ [] → tail (l ++ [x]) = tail l ++ [x].
Proof. by destruct l. Qed.

Lemma tail_drop {A} (l : list A) k : tail (drop k l) = drop (S k) l.
Proof.
  revert k. induction l as [|a l IH]; intros [|k]; simpl; done.
Qed.

(** Pushing a sample onto the window of a history yields the window of the
    history extended by that sample. *)
Lemma push_window_most_recent (l : list Z) x :
  push_window (most_recent HEALTH_WINDOW_SIZE l) x
  = most_recent HEALTH_WINDOW_SIZE (l ++ [x]).
Proof.
  unfold push_window, most_recent, HEALTH_WINDOW_SIZE.
  rewrite !length_app, length_drop. simpl length.
  destruct (Nat.ltb_spec 20 (length l - (length l - 20) + 1)) as [Hlt|Hge].
  - assert (20 ≤ length l) by lia.
    rewrite tail_snoc.
    + rewrite tail_drop.
      replace (length l + 1 - 20) with (S (length l - 20)) by lia.
      rewrite drop_app_le by lia. done.
    + intros Hnil. apply (f_equal length) in Hnil.
      rewrite length_drop in Hnil. simpl in Hnil. lia.
  - assert (length l < 20) by lia.
    replace (length l - 20) with 0 by lia.
    replace (length l + 1 - 20) with 0 by lia.
    by rewrite !drop_0.
Qed.

Lemma most_recent_length {A} n (l : list A) :
  n ≤ length l → length (most_recent n l) = n.
Proof. intros. unfold most_recent. rewrite length_drop. lia. Qed.

Lemma entry_matches_init ep : entry_matches [] (initEndpointHealth ep).
Proof. repeat split; done. Qed.

Lemma count_success_snoc obs o :
  count_success (obs ++ [o]) = count_success obs + (if obs_success o then 1 else 0).
Proof.
  unfold count_success. rewrite filter_app, length_app, filter_cons, filter_nil.
  destruct (decide _) as [->|Hn]; simpl; [done|].
  destruct (obs_success o); [done | simpl; lia].
Qed.

Lemma count_failure_snoc obs o :
  count_failure (obs ++ [o]) = count_failure obs + (if obs_success o then 0 else 1).
Proof.
  unfold count_failure. rewrite filter_app, length_app, filter_cons, filter_nil.
  destruct (decide _) as [->|Hn]; simpl; [done|].
  destruct (obs_success o); [simpl; lia | done].
Qed.

Lemma entry_matches_update obs e o :
  entry_matches obs e →
  entry_matches (obs ++ [o])
    (update_entry (obs_time o) (obs_success o) (obs_latencyMs o) e).
Proof.
  intros (Hl & Hs & Hf & _). unfold entry_matches, update_entry; simpl.
  rewrite Hl, map_app, push_window_most_recent, count_success_snoc,
    count_failure_snoc, Hs, Hf. simpl.
  repeat split; destruct (obs_success o); lia.
Qed.

(** The invariant of the health map: an endpoint has an entry exactly when it
    has been observed, and the entry matches its observations. *)
Lemma reaches_entry h hs ep :
  reaches h hs →
  match hs !! ep with
  | None => on_endpoint ep h = []
  | Some e => on_endpoint ep h ≠ [] ∧ entry_matches (on_endpoint ep h) e
  end.
Proof.
  induction 1 as [|h hs o _ IH]; [by rewrite lookup_empty|].
  rewrite on_endpoint_snoc. unfold observe, recordEndpointResult.
  destruct (decide (obs_endpoint o = ep)) as [->|Hne].
  - rewrite lookup_insert_eq. split; [by destruct (on_endpoint _ h)|].
    destruct (hs !! ep) as [e|].
    + apply entry_matches_update, IH.
    + rewrite IH. apply (entry_matches_update []), entry_matches_init.
  - rewrite lookup_insert_ne by done. by rewrite app_nil_r.
Qed.

Lemma counts_total obs : count_success obs + count_failure obs = length obs.
Proof.
  induction obs as [|o obs IH] using rev_ind; [done|].
  rewrite count_success_snoc, count_failure_snoc, length_app. simpl.
  destruct (obs_success o); lia.
Qed.

(** *** The snapshot loop *)

Lemma snapshot_loop_endpoints (l : list (string * EndpointHealthEntry)) acc ep :
  NoDup l.*1 →
  acc_endpoints (foldl snapshot_step acc l) !! ep =
  match (list_to_map l : gmap string EndpointHealthEntry) !! ep with
  | Some e => Some (report e)
  | None => acc_endpoints acc !! ep
  end.
Proof.
  revert acc. induction l as [|[k e] l IH]; intros acc Hnd; [done|].
  apply NoDup_cons in Hnd as [Hk Hnd]. simpl foldl. rewrite IH by done.
  simpl. destruct (decide (k = ep)) as [->|Hne].
  - rewrite lookup_insert_eq, (not_elem_of_list_to_map_1 _ _ Hk).
    by rewrite lookup_insert_eq.
  - rewrite !lookup_insert_ne by done. done.
Qed.

(** A snapshot reports exactly the entries of the map, each by [report]. *)
Lemma snapshot_endpoints iso (hs : gmap string EndpointHealthEntry) ep :
  endpoints (getHealthSnapshot iso hs) !! ep = report <$> hs !! ep.
Proof.
  unfold getHealthSnapshot; simpl.
  rewrite snapshot_loop_endpoints by apply NoDup_fst_map_to_list.
  rewrite list_to_map_to_list. by destruct (hs !! ep).
Qed.

Lemma snapshot_loop_healthy (l : list (string * EndpointHealthEntry)) acc :
  acc_healthyCount (foldl snapshot_step acc l)
  = acc_healthyCount acc + length (filter is_healthy l).
Proof.
  revert acc. induction l as [|kv l IH]; intros acc; simpl; [lia|].
  rewrite IH, filter_cons. unfold is_healthy at 2. simpl.
  destruct (decide _) as [->|Hn]; simpl; [lia|].
  destruct (status_of_rate (successRate kv.2)); [done | lia | lia].
Qed.

(** The upstream counts as reachable exactly when some endpoint is healthy. *)
Lemma vpsReachable_iff iso (hs : gmap string EndpointHealthEntry) :
  vpsReachable (getHealthSnapshot iso hs) = true ↔
  ∃ ep e, hs !! ep = Some e ∧ status (report e) = healthy.
Proof.
  unfold getHealthSnapshot; simpl.
  rewrite snapshot_loop_healthy. simpl. rewrite Nat.ltb_lt. split.
  - intros Hpos. destruct (filter is_healthy (map_to_list hs)) as [|[ep e] l] eqn:Hf;
      [simpl in Hpos; lia|].
    assert (Hin : (ep, e) ∈ filter is_healthy (map_to_list hs))
      by (rewrite Hf; left).
    apply list_elem_of_filter in Hin as [Hh Hin].
    apply elem_of_map_to_list in Hin. by exists ep, e.
  - intros (ep & e & Hl & Hh).
    assert (Hin : (ep, e) ∈ filter is_healthy (map_to_list hs)).
    { apply list_elem_of_filter. split; [done|]. by apply elem_of_map_to_list. }
    destruct (filter is_healthy (map_to_list hs)); [by inversion Hin|simpl; lia].
Qed.

Lemma status_healthy_iff r : status_of_rate r = healthy ↔ (9 # 10 <= r)%Q.
Proof.
  unfold status_of_rate. rewrite <- Qle_bool_iff.
  destruct (Qle_bool (9 # 10) r); [done|].
  destruct (Qle_bool (5 # 10) r); split; done.
Qed.

Lemma status_degraded_iff r :
  status_of_rate r = degraded ↔ (5 # 10 <= r)%Q ∧ ¬ (9 # 10 <= r)%Q.
Proof.
  unfold status_of_rate. rewrite <- !Qle_bool_iff.
  destruct (Qle_bool (9 # 10) r), (Qle_bool (5 # 10) r); split;
    try done; intros []; done.
Qed.

Lemma status_down_iff r : status_of_rate r = down ↔ ¬ (5 # 10 <= r)%Q.
Proof.
  unfold status_of_rate. rewrite <- !Qle_bool_iff.
  destruct (Qle_bool (9 # 10) r) eqn:H9, (Qle_bool (5 # 10) r) eqn:H5;
    split; try done.
  apply Qle_bool_iff in H9. intros _.
  assert (H : Qle_bool (5 # 10) r = true); [|congruence].
  apply Qle_bool_iff. eapply Qle_trans; [|exact H9]. done.
Qed.

(** Latencies of up to 2^40 ms add up exactly in a window. *)
Lemma sum_latencies_exact (l : list Z) (acc : Z) :
  (0 <= acc)%Z →
  Forall (fun x => (0 <= x < 2 ^ 40)%Z) l →
  (acc + Z.of_nat (length l) * 2 ^ 40 < 2 ^ 53)%Z →
  fold_left (fun a b => Double.add a (inject_Z b)) l (inject_Z acc)
  = inject_Z (acc + foldr Z.add 0%Z l).
Proof.
  intros Hacc Hl. revert acc Hacc.
  induction Hl as [|x l [Hx0 Hx] _ IH]; intros acc Hacc Hb; cbn [fold_left foldr].
  - by rewrite Z.add_0_r.
  - cbn [length] in Hb.
    rewrite DoubleFacts.add_integers by lia.
    rewrite IH by lia. f_equal. lia.
Qed.

(** C3. For a history in which an endpoint has been observed more than 20
    times, the endpoint's window is the 20 latest latencies of that endpoint,
    oldest first, and the stored average is their sum divided by 20 as the
    code computes it: for latencies that are not negative and below 2^40 ms
    it is the double nearest to their arithmetic mean; the counters span the whole history of the endpoint,
    not the window, and the snapshot derives the success rate from them:
    the rate is successCount / (successCount + failureCount) over that whole
    history, the status is decided on it, and the percentage written is that
    quotient as a double, times 100, rounded to a whole number. *)
Theorem window_is_fifo_and_rate_spans_history
    (h : list Observation) (ep iso : string) :
  let obs := on_endpoint ep h in
  let successes := inject_Z (Z.of_nat (count_success obs)) in
  let total := inject_Z (Z.of_nat (count_success obs + count_failure obs)) in
  HEALTH_WINDOW_SIZE < length obs →
  ∃ e r,
    replay h !! ep = Some e ∧
    endpoints (getHealthSnapshot iso (replay h)) !! ep = Some r ∧
    latencies e = most_recent HEALTH_WINDOW_SIZE (map obs_latencyMs obs) ∧
    length (latencies e) = HEALTH_WINDOW_SIZE ∧
    avgLatencyMs e
    = Double.div
        (fold_left (fun a b => Double.add a (inject_Z b)) (latencies e) 0%Q)
        20 ∧
    (Forall (fun x => (0 <= x < 2 ^ 40)%Z) (latencies e) →
     avgLatencyMs e
     = Double.RN (inject_Z (foldr Z.add 0%Z (latencies e)) / 20)) ∧
    successCount e = count_success obs ∧
    failureCount e = count_failure obs ∧
    count_success obs + count_failure obs = length obs ∧
    successRate e = (successes / total)%Q ∧
    rep_successRate r
    = Qfloor (Double.mul (Double.div successes total) 100 + (1 # 2)) ∧
    (status r = healthy ↔ (9 # 10 <= successes / total)%Q) ∧
    (status r = degraded ↔
     (5 # 10 <= successes / total)%Q ∧ ¬ (9 # 10 <= successes / total)%Q) ∧
    (status r = down ↔ ¬ (5 # 10 <= successes / total)%Q).
Proof.
  intros obs successes total Hlen.
  pose proof (reaches_entry h (replay h) ep (reaches_replay h)) as Hinv.
  destruct (replay h !! ep) as [e|] eqn:He; fold obs in Hinv;
    [|rewrite Hinv in Hlen; simpl in Hlen; lia].
  destruct Hinv as (Hne & Hl & Hs & Hf & Havg).
  assert (Hwin : length (latencies e) = HEALTH_WINDOW_SIZE).
  { rewrite Hl. apply most_recent_length. rewrite length_map. lia. }
  pose proof (counts_total obs) as Ht.
  assert (Hrate : successRate e = (successes / total)%Q).
  { unfold successRate. rewrite Hs, Hf.
    destruct (Nat.ltb_spec 0 (count_success obs + count_failure obs));
      [done | unfold HEALTH_WINDOW_SIZE in Hlen; lia]. }
  exists e, (report e).
  split; [done|]. split; [by rewrite snapshot_endpoints, He|].
  split; [done|]. split; [done|].
  split.
  { rewrite (Havg Hne). unfold window_average, sum_latencies.
    by rewrite Hwin. }
  split.
  { intros Hb. rewrite (Havg Hne). unfold window_average, sum_latencies.
    rewrite Hwin. unfold Double.div. do 2 f_equal.
    apply (sum_latencies_exact (latencies e) 0 (Z.le_refl 0) Hb).
    rewrite Hwin. reflexivity. }
  split; [done|]. split; [done|]. split; [lia|]. split; [done|].
  unfold report; cbn [rep_successRate status]. rewrite Hrate.
  split; [|split; [|split]].
  - reflexivity.
  - apply status_healthy_iff.
  - apply status_degraded_iff.
  - apply status_down_iff.
Qed.

Lemma window_is_fifo_and_rate_spans_history_witness :
  ∃ e r,
    replay mixed_history !! "/trades/live" = Some e ∧
    endpoints (getHealthSnapshot "now" (replay mixed_history)) !! "/trades/live"
      = Some r ∧
    latencies e = replicate 3 40%Z ++ replicate 17 90%Z ∧
    avgLatencyMs e = (165 # 2)%Q ∧
    successCount e = 23 ∧ failureCount e = 17 ∧
    rep_successRate r = 57%Z ∧ status r = degraded.
Proof.
  destruct (window_is_fifo_and_rate_spans_history mixed_history
              "/trades/live" "now")
    as (e & r & He & Hr & Hl & _ & _ & Havg & Hs & Hf & _ & _ & Hrep & _ &
        Hst & _).
  { vm_compute. lia. }
  exists e, r.
  split; [exact He|]. split; [exact Hr|]. split; [exact Hl|].
  split.
  { rewrite Havg; rewrite Hl; [vm_compute; reflexivity|].
    clear. repeat constructor; vm_compute; congruence. }
  split; [exact Hs|]. split; [exact Hf|]. split; [exact Hrep|].
  apply Hst. clear. split.
  - vm_compute. discriminate.
  - vm_compute. intros H. apply H. reflexivity.
Defined.

(** C6. In every state the health map can reach, a snapshot reports an
    endpoint exactly when the endpoint has been observed at least once (an
    endpoint never observed is absent), and the status of a reported endpoint
    is healthy when successCount / (successCount + failureCount) is at least
    0.9, degraded when it is at least 0.5 and below 0.9, and down
    otherwise. *)
Theorem snapshot_reports_observed_endpoints_by_rate
    (h : list Observation) (hs : gmap string EndpointHealthEntry)
    (iso ep : string) :
  reaches h hs →
  match endpoints (getHealthSnapshot iso hs) !! ep with
  | None => on_endpoint ep h = []
  | Some r =>
      ∃ e, hs !! ep = Some e ∧
        1 ≤ length (on_endpoint ep h) ∧
        successCount e + failureCount e = length (on_endpoint ep h) ∧
        let rate := (inject_Z (Z.of_nat (successCount e))
                     / inject_Z (Z.of_nat (successCount e + failureCount e)))%Q in
        (status r = healthy ↔ (9 # 10 <= rate)%Q) ∧
        (status r = degraded ↔ (5 # 10 <= rate)%Q ∧ ¬ (9 # 10 <= rate)%Q) ∧
        (status r = down ↔ ¬ (5 # 10 <= rate)%Q)
  end.
Proof.
  intros Hreach. pose proof (reaches_entry h hs ep Hreach) as Hinv.
  rewrite snapshot_endpoints.
  destruct (hs !! ep) as [e|]; simpl; [|done].
  destruct Hinv as (Hne & _ & Hs & Hf & _).
  pose proof (counts_total (on_endpoint ep h)) as Ht.
  assert (1 ≤ length (on_endpoint ep h))
    by (destruct (on_endpoint ep h); [done | simpl; lia]).
  exists e. split; [done|]. split; [done|]. split; [lia|].
  assert (Hrate : successRate e
                  = (inject_Z (Z.of_nat (successCount e))
                     / inject_Z (Z.of_nat (successCount e + failureCount e)))%Q).
  { unfold successRate.
    destruct (Nat.ltb_spec 0 (successCount e + failureCount e)); [done | lia]. }
  rewrite <- Hrate.
  split; [apply status_healthy_iff|].
  split; [apply status_degraded_iff | apply status_down_iff].
Qed.

Lemma snapshot_reports_observed_endpoints_by_rate_witness :
  reaches ([] ++ [one_failure]) (observe ∅ one_failure) ∧
  match endpoints (getHealthSnapshot "now" (observe ∅ one_failure))
          !! "/brokers/status" with
  | None => on_endpoint "/brokers/status" ([] ++ [one_failure]) = []
  | Some r =>
      ∃ e, observe ∅ one_failure !! "/brokers/status" = Some e ∧
        1 ≤ length (on_endpoint "/brokers/status" ([] ++ [one_failure])) ∧
        successCount e + failureCount e
        = length (on_endpoint "/brokers/status" ([] ++ [one_failure])) ∧
        let rate := (inject_Z (Z.of_nat (successCount e))
                     / inject_Z (Z.of_nat (successCount e + failureCount e)))%Q in
        (status r = healthy ↔ (9 # 10 <= rate)%Q) ∧
        (status r = degraded ↔ (5 # 10 <= rate)%Q ∧ ¬ (9 # 10 <= rate)%Q) ∧
        (status r = down ↔ ¬ (5 # 10 <= rate)%Q)
  end.
Proof.
  assert (Hr : reaches ([] ++ [one_failure]) (observe ∅ one_failure))
    by (constructor; constructor).
  split; [exact Hr|].
  exact (snapshot_reports_observed_endpoints_by_rate _ _ "now"
           "/brokers/status" Hr).
Defined.

(** *** Failures never make an endpoint healthy *)

Lemma healthy_counts e :
  status (report e) = healthy ↔
  0 < successCount e + failureCount e ∧
  9 * (successCount e + failureCount e) ≤ 10 * successCount e.
Proof.
  unfold report; simpl. rewrite status_healthy_iff. unfold successRate.
  destruct (Nat.ltb_spec 0 (successCount e + failureCount e)) as [Hpos|Hz].
  - destruct (Z.of_nat (successCount e + failureCount e)) as [|p|p] eqn:Hp;
      [lia| |lia].
    unfold Qle, Qdiv, Qmult, Qinv; simpl. split.
    + intros H. split; [done|]. lia.
    + intros [_ H]. lia.
  - split; [|lia]. unfold Qle; simpl. lia.
Qed.

Lemma record_failure_no_healthy iso ep latencyMs hs :
  no_healthy hs →
  no_healthy (recordEndpointResult iso ep false latencyMs hs).
Proof.
  intros Hno ep' e'. unfold recordEndpointResult.
  destruct (decide (ep = ep')) as [->|Hne].
  - rewrite lookup_insert_eq. intros [= <-]. rewrite healthy_counts. simpl.
    destruct (hs !! ep') as [e|] eqn:He; [|simpl; lia].
    specialize (Hno _ _ He). rewrite healthy_counts in Hno. lia.
  - rewrite lookup_insert_ne by done. apply Hno.
Qed.

Lemma no_healthy_empty : no_healthy ∅.
Proof. intros ep e. by rewrite lookup_empty. Qed.

Lemma no_healthy_unreachable iso hs :
  no_healthy hs → vpsReachable (getHealthSnapshot iso hs) = false.
Proof.
  intros Hno. apply not_true_is_false. rewrite vpsReachable_iff.
  intros (ep & e & He & Hh). by apply (Hno ep e).
Qed.

End HealthFacts.

(** ** Edge function *)

Module EdgeFacts.
Import Js Edge.

(** *** Running computations *)

Lemma bind_ok {A B} (m : M A) (k : A → M B) w x w' :
  m w = (inr x, w') → bind m k w = k x w'.
Proof. unfold bind. by intros ->. Qed.


(** A [try]/[catch] whose handler returns never throws. *)
Lemma try_catch_returns {A} (m : M A) (h : Exn → A) w :
  ∃ x w', try_catch m (fun e => ret (h e)) w = (inr x, w').
Proof.
  unfold try_catch, ret. destruct (m w) as [[e|x] w']; eauto.
Qed.

Lemma prefix_app p rest : String.prefix p (p +:+ rest) = true.
Proof.
  induction p as [|c p IH]; simpl; [by destruct rest|].
  by destruct (ascii_dec c c).
Qed.

Lemma prefix_inv p s : String.prefix p s = true → ∃ rest, s = p +:+ rest.
Proof.
  revert s. induction p as [|c p IH]; intros s; simpl.
  - by exists s.
  - destruct s as [|c' s]; [done|]. simpl.
    destruct (ascii_dec c c') as [->|]; [|done].
    intros [rest ->]%IH. by exists rest.
Qed.

Lemma startsWith_iff s p : startsWith s p = true ↔ ∃ rest, s = p +:+ rest.
Proof.
  split; [apply prefix_inv|]. intros [rest ->]. apply prefix_app.
Qed.

Lemma append_assoc (a b c : string) : (a +:+ b) +:+ c = a +:+ b +:+ c.
Proof.
  induction a as [|x a IH]; [done|].
  change (String x ((a +:+ b) +:+ c) = String x (a +:+ b +:+ c)).
  by rewrite IH.
Qed.

(** *** C1: the internal token *)

(** C1. For every identity (userId, email, role), the minted token is the
    serialised header naming HS256, a dot, the serialised claims set holding
    exactly sub = userId, email = email, roles = [role],
    aud = vps-metrics-api, iat, iss = supabase-metrics-proxy and exp, a dot,
    and the HMAC-SHA256 of what precedes under the configured secret (minting
    throws exactly when that signing does, and leaves the world as it was).
    iat is the clock read in whole seconds and exp a second reading of the
    clock plus 60: exp - iat is 60 plus the whole seconds that began between
    the two readings, so it is 60 exactly when both fall in the same
    second. *)
Theorem internal_token_claims_ttl_and_signature
    (env : Env) (w : World) (uid mail r : string) :
  let iat := epoch (now w) in
  let exp := (epoch (now w + clock_step env) + 60)%Z in
  let header := base64url_json env (JObj [ ("alg", JStr "HS256") ]) in
  let claims :=
    base64url_json env
      (JObj [ ("sub", JStr uid); ("email", JStr mail);
              ("roles", JArr [JStr r]);
              ("aud", JStr "vps-metrics-api");
              ("iat", JInt iat);
              ("iss", JStr "supabase-metrics-proxy");
              ("exp", JInt exp) ]) in
  createInternalJWT env (JStr uid) (JStr mail) (JStr r) w
  = (match hs256_sign env (INTERNAL_JWT_SECRET (config env))
             (header +:+ "." +:+ claims) with
     | inr signature =>
         inr (header +:+ "." +:+ claims +:+ "." +:+ signature)
     | inl e => inl e
     end, w) ∧
  (exp - iat = 60 + (epoch (now w + clock_step env) - epoch (now w)))%Z ∧
  ((exp - iat = 60)%Z ↔ epoch (now w + clock_step env) = epoch (now w)) ∧
  ((0 ≤ clock_step env < 1000)%Z → (60 ≤ exp - iat ≤ 61)%Z).
Proof.
  intros iat exp header claims. split; [|split; [|split]].
  - unfold createInternalJWT, bind, Date_now, lift, sign, ok, rbind.
    cbn [fst snd].
    change (signing_input env
              (internal_jwt (now w) (now w + clock_step env)
                 (JStr uid) (JStr mail) (JStr r)))
      with (header +:+ "." +:+ claims).
    destruct (hs256_sign env _ _) as [e|signature]; [reflexivity|].
    by rewrite !append_assoc.
  - subst exp iat. lia.
  - subst exp iat. lia.
  - subst exp iat. unfold epoch. intros [H0 H1].
    assert (now w / 1000 ≤ (now w + clock_step env) / 1000)%Z
      by (apply Z.div_le_mono; lia).
    assert ((now w + clock_step env) / 1000 ≤ (now w + 1000) / 1000)%Z
      by (apply Z.div_le_mono; lia).
    replace ((now w + 1000) / 1000)%Z with (now w / 1000 + 1)%Z in *
      by (replace (now w + 1000)%Z with (now w + 1 * 1000)%Z by lia;
          by rewrite Z.div_add).
    lia.
Qed.

Lemma internal_token_claims_ttl_and_signature_witness :
  createInternalJWT Samples.ticking_env (JStr "user-1")
    (JStr "ops@example.com") (JStr "authenticated") Samples.cold_start
  = (inr (base64url_json Samples.ticking_env
            (JObj [ ("alg", JStr "HS256") ]) +:+ "." +:+
          base64url_json Samples.ticking_env
            (JObj [ ("sub", JStr "user-1"); ("email", JStr "ops@example.com");
                    ("roles", JArr [JStr "authenticated"]);
                    ("aud", JStr "vps-metrics-api");
                    ("iat", JInt 1700000000);
                    ("iss", JStr "supabase-metrics-proxy");
                    ("exp", JInt 1700000060) ]) +:+ "." +:+ "mac-k"),
     Samples.cold_start) ∧
  (1700000060 - 1700000000 = 60)%Z.
Proof.
  destruct (internal_token_claims_ttl_and_signature Samples.ticking_env
              Samples.cold_start "user-1" "ops@example.com" "authenticated")
    as (Hmint & _ & Hsame & _).
  split; [|apply Hsame; reflexivity].
  rewrite Hmint. vm_compute. reflexivity.
Defined.

(** For the claim C1: a token built across the turn of a second expires 61
    seconds after its iat, not 60. *)
Lemma internal_token_outlives_its_ttl_across_a_second :
  let env := Samples.ticking_env in
  let token (exp : Z) :=
    base64url_json env (JObj [ ("alg", JStr "HS256") ]) +:+ "." +:+
    base64url_json env
      (JObj [ ("sub", JStr "user-1"); ("email", JStr "ops@example.com");
              ("roles", JArr [JStr "authenticated"]);
              ("aud", JStr "vps-metrics-api");
              ("iat", JInt 1700000000);
              ("iss", JStr "supabase-metrics-proxy");
              ("exp", JInt exp) ]) +:+ "." +:+ "mac-k" in
  createInternalJWT env (JStr "user-1") (JStr "ops@example.com")
    (JStr "authenticated") Samples.end_of_second
  = (inr (token 1700000061%Z), Samples.end_of_second) ∧
  token 1700000061%Z ≠ token 1700000060%Z ∧
  (1700000061 - 1700000000 = 61)%Z.
Proof.
  split; [|split].
  - vm_compute. reflexivity.
  - vm_compute. discriminate.
  - reflexivity.
Qed.

(** *** C10: the whitelist of the generic relay *)

Lemma path_allowed_iff path :
  path_allowed path = true ↔
  ∃ p, p ∈ ALLOWED_PATHS ∧ (path = p ∨ ∃ rest, path = p +:+ "/" +:+ rest).
Proof.
  unfold path_allowed. rewrite existsb_exists. split.
  - intros (p & Hin & H). exists p. split; [by apply list_elem_of_In|].
    apply orb_true_iff in H as [H|H].
    + left. by apply String.eqb_eq.
    + right. apply startsWith_iff in H as [rest ->]. exists rest.
      apply append_assoc.
  - intros (p & Hin & H). exists p. split; [by apply list_elem_of_In|].
    apply orb_true_iff. destruct H as [->|[rest ->]].
    + left. apply String.eqb_refl.
    + right. apply startsWith_iff. exists rest.
      symmetry. apply append_assoc.
Qed.

(** C10. A request to the generic relay whose [path] parameter is empty, or
    is neither one of the seven whitelisted paths nor one of them followed by
    a slash and more, is answered 400 "Invalid path"; the world is left as it
    was: the credential has not been verified and nothing has been fetched
    from the upstream base address.  Both revisions of the handler do so. *)
Theorem proxy_refuses_paths_off_the_whitelist
    (env : Env) (req : Request) (w : World) :
  let path := query req "path" in
  let refusal := JsonBody (JObj [ ("error", JStr "Invalid path");
                                  ("allowed", JArr (map JStr ALLOWED_PATHS));
                                  ("received", JStr path) ]) in
  (path = EmptyString ∨
   ¬ ∃ p, p ∈ ALLOWED_PATHS ∧ (path = p ∨ ∃ rest, path = p +:+ "/" +:+ rest)) →
  (∃ r, proxy env req w = (inr r, w) ∧
        res_status r = 400 ∧ res_body r = refusal) ∧
  (∃ r, proxy_2_0_0 env req w = (inr r, w) ∧
        res_status r = 400 ∧ res_body r = refusal).
Proof.
  intros path refusal Hbad.
  assert (Hguard : negb (truthy (JStr path)) || negb (path_allowed path) = true).
  { apply orb_true_iff. destruct Hbad as [->|Hno]; [by left|right].
    apply negb_true_iff, not_true_is_false. by rewrite path_allowed_iff. }
  split.
  - unfold proxy, try_catch. fold path. rewrite Hguard. simpl.
    eexists. by repeat split.
  - unfold proxy_2_0_0, try_catch. fold path. rewrite Hguard. simpl.
    eexists. by repeat split.
Qed.

(** *** Totality of the pieces *)

Lemma verifySupabaseJWT_returns env authHeader w :
  ∃ a w', verifySupabaseJWT env authHeader w = (inr a, w').
Proof.
  unfold verifySupabaseJWT.
  destruct (negb (truthy (JStr authHeader)) || negb (startsWith authHeader "Bearer "));
    [simpl; eauto|].
  destruct (createClient _ _); simpl; eauto.
Qed.

Lemma v1_route_returns env req a w :
  ∃ r w', v1_route env req a w = (inr r, w').
Proof.
  unfold v1_route.
  repeat (match goal with
          | |- context [if ?b then _ else _] => destruct b
          end);
    first [ apply try_catch_returns | unfold ret; eauto ].
Qed.

Lemma proxy_returns env req w : ∃ r w', proxy env req w = (inr r, w').
Proof. unfold proxy. apply try_catch_returns. Qed.

Lemma dashboard_returns env req w : ∃ r w', dashboard env req w = (inr r, w').
Proof. unfold dashboard. apply try_catch_returns. Qed.

(** The router never lets an exception escape a handler. *)
Lemma app_returns env req w : ∃ r w', app env req w = (inr r, w').
Proof.
  unfold app, bind.
  destruct (under_v1 (req_path req)).
  - unfold v1_middleware, bind.
    destruct (verifySupabaseJWT_returns env (header req "Authorization") w)
      as (a & w1 & ->).
    destruct (negb (valid a)); [unfold ret; eauto|]. simpl.
    destruct (v1_route_returns env req a w1) as (r & w2 & ->).
    unfold ret; eauto.
  - destruct (String.eqb _ "/metrics-proxy-jwt"); [unfold ret; eauto|].
    destruct (String.eqb _ "/metrics-proxy-jwt/health"); [unfold ret; eauto|].
    destruct (String.eqb _ "/metrics-proxy-jwt/proxy").
    { destruct (proxy_returns env req w) as (r & w' & ->). unfold ret; eauto. }
    destruct (String.eqb _ "/metrics-proxy-jwt/dashboard").
    { destruct (dashboard_returns env req w) as (r & w' & ->). unfold ret; eauto. }
    unfold ret; eauto.
Qed.

(** *** C8 and C5: advisory and deprecation headers *)

Lemma vps_configured env :
  VPS_METRICS_ENDPOINT (config env) ≠ EmptyString →
  negb (truthy (JStr (VPS_METRICS_ENDPOINT (config env)))) = false.
Proof. intros H. simpl. rewrite negb_involutive. by apply String.eqb_neq. Qed.

Lemma proxy_headers env req w r w' :
  proxy env req w = (inr r, w') → res_headers r = json_content_type.
Proof.
  unfold proxy, try_catch, bind, ret, raise, emit, elapse, Date_now, ok.
  intros H. repeat (case_match; simpl in *; simplify_eq); reflexivity.
Qed.

Lemma dashboard_headers env req w r w' :
  dashboard env req w = (inr r, w') →
  res_headers r = json_content_type ∨
  res_headers r = deprecation_headers ++ json_content_type.
Proof.
  unfold dashboard, try_catch, bind, ret, ok.
  intros H. repeat (case_match; simpl in *; simplify_eq); auto.
Qed.

(** C8 (as the code has it). Every response to a request on a /v1/ path
    whose credential has been verified carries X-RateLimit-Limit,
    X-RateLimit-Remaining, X-RateLimit-Reset (epoch seconds, one minute
    ahead) and X-API-Version.  The two legacy paths are outside the
    middleware that sets them: no response of /dashboard or /proxy carries
    any of the four. *)
Theorem advisory_headers_on_versioned_paths_only
    (env : Env) (req : Request) (w : World) (a : AuthResult) (w1 : World) :
  verifySupabaseJWT env (header req "Authorization") w = (inr a, w1) →
  valid a = true →
  (under_v1 (req_path req) = true →
   ∃ r w', app env req w = (inr r, w') ∧
     header_value "X-RateLimit-Limit" r = Some "60" ∧
     header_value "X-RateLimit-Remaining" r = Some "59" ∧
     header_value "X-RateLimit-Reset" r = Some (pretty (now w1 / 1000 + 60)%Z) ∧
     header_value "X-API-Version" r = Some API_VERSION) ∧
  (req_path req = "/metrics-proxy-jwt/dashboard" ∨
   req_path req = "/metrics-proxy-jwt/proxy" →
   ∃ r w', app env req w = (inr r, w') ∧
     has_header "X-RateLimit-Limit" r = false ∧
     has_header "X-RateLimit-Remaining" r = false ∧
     has_header "X-RateLimit-Reset" r = false ∧
     has_header "X-API-Version" r = false).
Proof.
  intros Hv Hvalid. split.
  - intros Hv1. unfold app, bind. rewrite Hv1.
    unfold v1_middleware, bind. rewrite Hv, Hvalid. simpl.
    destruct (v1_route_returns env req a w1) as (r & w2 & ->).
    unfold ret. eexists _, _. split; [reflexivity|]. by repeat split.
  - intros Hpath. destruct (app_returns env req w) as (r & w' & Hr).
    exists r, w'. split; [done|].
    revert Hr. unfold app, bind.
    destruct Hpath as [Hp|Hp]; rewrite Hp; simpl.
    + destruct (dashboard env req w) as [[e|r0] w0] eqn:Hd; [done|].
      intros [= <- <-].
      by destruct (dashboard_headers _ _ _ _ _ Hd) as [Hh|Hh];
        unfold has_header; simpl; rewrite Hh.
    + destruct (proxy env req w) as [[e|r0] w0] eqn:Hd; [done|].
      intros [= <- <-].
      unfold has_header; simpl. by rewrite (proxy_headers _ _ _ _ _ Hd).
Qed.

Lemma advisory_headers_on_versioned_paths_only_witness :
  let env := Samples.sample_env "k" Samples.unreachable_upstream in
  let req := Samples.browser_request "/metrics-proxy-jwt/v1/health/detailed" [] in
  ∃ r w', app env req Samples.cold_start = (inr r, w') ∧
    header_value "X-RateLimit-Limit" r = Some "60" ∧
    header_value "X-RateLimit-Remaining" r = Some "59" ∧
    header_value "X-RateLimit-Reset" r = Some "1700000060" ∧
    header_value "X-API-Version" r = Some "v1".
Proof.
  intros env req.
  assert (Hv : ∃ w1, verifySupabaseJWT env (header req "Authorization")
                       Samples.cold_start = (inr Samples.verified, w1)
                     ∧ now w1 = 1700000000128%Z)
    by (eexists; split; vm_compute; reflexivity).
  destruct Hv as (w1 & Hv & Hnow).
  destruct (advisory_headers_on_versioned_paths_only env req _ _ _ Hv eq_refl)
    as [H _].
  destruct (H eq_refl) as (r & w' & Hr & H1 & H2 & H3 & H4).
  exists r, w'. rewrite Hnow in H3. by repeat split.
Defined.

(** C8, as stated, fails on the legacy dashboard: a verified request is
    answered 200 without any of the advisory headers. *)
Lemma legacy_dashboard_lacks_advisory_headers :
  let env := Samples.sample_env "k" Samples.unreachable_upstream in
  let req := Samples.browser_request "/metrics-proxy-jwt/dashboard" [] in
  authenticated_path (req_path req) = true ∧
  ∃ r w', app env req Samples.cold_start = (inr r, w') ∧
    res_status r = 200 ∧
    has_header "X-RateLimit-Limit" r = false ∧
    has_header "X-RateLimit-Remaining" r = false ∧
    has_header "X-RateLimit-Reset" r = false ∧
    has_header "X-API-Version" r = false.
Proof.
  split; [reflexivity|].
  eexists _, _. split; [vm_compute; reflexivity|]. by repeat split.
Qed.

Lemma proxy_refuses_paths_off_the_whitelist_witness :
  (∃ r, proxy (Samples.sample_env "k" Samples.unreachable_upstream)
          (Samples.browser_request "/metrics-proxy-jwt/proxy"
             [("path", "/healthz")])
          Samples.cold_start
        = (inr r, Samples.cold_start) ∧
        res_status r = 400) ∧
  (∃ r, proxy_2_0_0 (Samples.sample_env "k" Samples.unreachable_upstream)
          (Samples.browser_request "/metrics-proxy-jwt/proxy"
             [("path", "/healthz")])
          Samples.cold_start
        = (inr r, Samples.cold_start) ∧
        res_status r = 400).
Proof.
  destruct (proxy_refuses_paths_off_the_whitelist
              (Samples.sample_env "k" Samples.unreachable_upstream)
              (Samples.browser_request "/metrics-proxy-jwt/proxy"
                 [("path", "/healthz")])
              Samples.cold_start)
    as [(r & Hr & Hst & _) (r' & Hr' & Hst' & _)].
  - right. rewrite <- path_allowed_iff. vm_compute. congruence.
  - split; [by exists r | by exists r'].
Defined.

(** C5 (as the code has it). For one verified identity and session id, from
    one state of the world, the legacy /dashboard path and the versioned
    /v1/metrics/aggregate path run the same aggregation and leave the same
    state behind.  When the aggregation returns, both answer 200 with the
    same payload, and the responses differ in their headers: the legacy one
    carries Deprecation: true, Sunset: 2026-06-01 and the successor-version
    Link, the versioned one the four advisory headers of the /v1/
    middleware.  When the upstream base address is unset, both answer 503
    "VPS endpoint not configured", and when the aggregation throws, both
    answer 500 with the message of the exception, the legacy path under the
    label "Dashboard proxy error" and the versioned one under "Aggregation
    error"; in these two cases the legacy response carries no deprecation
    header. *)
Theorem legacy_and_versioned_aggregate_alike
    (env : Env) (w : World) (headers q : list (string * string))
    (a : AuthResult) (w1 : World) :
  let legacy := {| req_path := "/metrics-proxy-jwt/dashboard";
                   req_query := q; req_headers := headers |} in
  let versioned := {| req_path := "/metrics-proxy-jwt/v1/metrics/aggregate";
                      req_query := q; req_headers := headers |} in
  let deprecation :=
    [ ("Deprecation", "true"); ("Sunset", "2026-06-01");
      ("Link", "</metrics-proxy-jwt/v1/metrics/aggregate>; rel=" +:+ dq +:+
               "successor-version" +:+ dq) ] in
  let advisory :=
    [ ("X-RateLimit-Limit", "60"); ("X-RateLimit-Remaining", "59");
      ("X-RateLimit-Reset", pretty (now w1 / 1000 + 60)%Z);
      ("X-API-Version", "v1") ] in
  let answer (set_headers : list (string * string)) (body : JsVal)
        (st : nat) :=
    {| res_status := st;
       res_headers := [ ("Access-Control-Allow-Origin", "*") ] ++ set_headers
                      ++ [ ("Content-Type", "application/json") ];
       res_body := JsonBody body |} in
  let failure (label : string) (e : Exn) :=
    JObj [ ("error", JStr label); ("message", JStr (exn_message e)) ] in
  let sessionId := header legacy "X-Session-Id" in
  verifySupabaseJWT env (header legacy "Authorization") w = (inr a, w1) →
  valid a = true →
  (VPS_METRICS_ENDPOINT (config env) = EmptyString →
   app env legacy w
   = (inr (answer [] (JObj [ ("error", JStr "VPS endpoint not configured") ])
             503), w1) ∧
   app env versioned w
   = (inr (answer advisory
             (JObj [ ("error", JStr "VPS endpoint not configured") ]) 503),
      w1)) ∧
  (VPS_METRICS_ENDPOINT (config env) ≠ EmptyString →
   ∀ payload results total w2,
     fetchAndAggregateMetrics env a sessionId w1
     = (inr (payload, results, total), w2) →
     app env legacy w = (inr (answer deprecation payload 200), w2) ∧
     app env versioned w = (inr (answer advisory payload 200), w2)) ∧
  (VPS_METRICS_ENDPOINT (config env) ≠ EmptyString →
   ∀ e w2,
     fetchAndAggregateMetrics env a sessionId w1 = (inl e, w2) →
     app env legacy w
     = (inr (answer [] (failure "Dashboard proxy error" e) 500), w2) ∧
     app env versioned w
     = (inr (answer advisory (failure "Aggregation error" e) 500), w2)).
Proof.
  intros legacy versioned deprecation advisory answer failure sessionId
    Hv Hvalid.
  assert (Hlegacy : app env legacy w
                    = let (r, w') := dashboard env legacy w in
                      (match r with
                       | inr r => inr (with_headers cors_headers r)
                       | inl e => inl e
                       end, w')).
  { unfold app, bind. simpl. by destruct (dashboard env legacy w) as [[]]. }
  assert (Hversioned : app env versioned w
                       = let (r, w') := v1_aggregate env a versioned w1 in
                         (match r with
                          | inr r =>
                              inr (with_headers cors_headers
                                     (with_headers (advisory_headers (now w1))
                                        r))
                          | inl e => inl e
                          end, w')).
  { unfold app, bind. change (under_v1 (req_path versioned)) with true.
    cbv iota. unfold v1_middleware, bind.
    change (header versioned "Authorization")
      with (header legacy "Authorization").
    rewrite Hv, Hvalid. cbv beta iota delta [negb Date_now ok].
    change (v1_route env versioned a) with (v1_aggregate env a versioned).
    by destruct (v1_aggregate env a versioned w1) as [[]]. }
  rewrite Hlegacy, Hversioned.
  unfold dashboard, v1_aggregate, try_catch, bind.
  change (header versioned "X-Session-Id") with sessionId.
  change (header legacy "X-Session-Id") with sessionId.
  rewrite Hv, Hvalid. simpl negb. cbv iota.
  split; [|split].
  - intros ->. split; reflexivity.
  - intros Hvps payload results total w2 Hagg.
    rewrite (vps_configured env Hvps). cbv beta iota delta [negb].
    rewrite Hagg. split; reflexivity.
  - intros Hvps e w2 Hagg.
    rewrite (vps_configured env Hvps). cbv beta iota delta [negb].
    rewrite Hagg. split; reflexivity.
Qed.

Lemma legacy_and_versioned_aggregate_alike_witness :
  ∃ payload w2,
    app (Samples.sample_env "k" Samples.unreachable_upstream)
      (Samples.browser_request "/metrics-proxy-jwt/dashboard" [])
      Samples.cold_start
    = (inr {| res_status := 200;
              res_headers := cors_headers ++ deprecation_headers
                             ++ json_content_type;
              res_body := JsonBody payload |}, w2) ∧
    app (Samples.sample_env "k" Samples.unreachable_upstream)
      (Samples.browser_request "/metrics-proxy-jwt/v1/metrics/aggregate" [])
      Samples.cold_start
    = (inr {| res_status := 200;
              res_headers := cors_headers ++ advisory_headers 1700000000128
                             ++ json_content_type;
              res_body := JsonBody payload |}, w2).
Proof.
  let r := eval vm_compute in
    (fetchAndAggregateMetrics
       (Samples.sample_env "k" Samples.unreachable_upstream)
       Samples.verified EmptyString
       {| healthState := ∅; now := 1700000000128;
          trace := [EffGetUser "browser-token"]; session_events := [] |}) in
  match r with
  | (inr (?p, ?rs, ?total), ?w2) =>
      exists p, w2;
      apply (proj1 (proj2
               (legacy_and_versioned_aggregate_alike
                  (Samples.sample_env "k" Samples.unreachable_upstream)
                  Samples.cold_start
                  [("Authorization", "Bearer browser-token")] []
                  Samples.verified
                  {| healthState := ∅; now := 1700000000128;
                     trace := [EffGetUser "browser-token"];
                     session_events := [] |}
                  ltac:(vm_compute; reflexivity) eq_refl))
               ltac:(discriminate) p rs total w2)
  end.
  vm_compute. reflexivity.
Defined.

(** C5, as stated, fails: with the deprecation headers set aside the two
    responses still differ, the versioned one alone carrying the advisory
    headers. *)
Lemma legacy_and_versioned_differ_beyond_deprecation :
  ∃ rl wl rv wv,
    app (Samples.sample_env "k" Samples.unreachable_upstream)
      (Samples.browser_request "/metrics-proxy-jwt/dashboard" [])
      Samples.cold_start = (inr rl, wl) ∧
    app (Samples.sample_env "k" Samples.unreachable_upstream)
      (Samples.browser_request "/metrics-proxy-jwt/v1/metrics/aggregate" [])
      Samples.cold_start = (inr rv, wv) ∧
    res_body rl = res_body rv ∧
    has_header "X-API-Version" rv = true ∧
    has_header "X-API-Version" rl = false ∧
    without_deprecation rl ≠ rv.
Proof.
  eexists _, _, _, _.
  split; [vm_compute; reflexivity|].
  split; [vm_compute; reflexivity|].
  split; [reflexivity|]. split; [reflexivity|]. split; [reflexivity|].
  vm_compute. congruence.
Qed.

(** *** The fan-out absorbs every fault *)

(** One call of the fan-out always returns a result for its endpoint, records
    exactly one observation, and hands back no data when it failed. *)
Lemma fetchOne_absorbs env start jwt a ep w :
  ∃ r, fetchOne env start jwt a ep w = (inr r, after_call env start jwt a ep w) ∧
       r_endpoint r = ep ∧
       r_success r = negb (call_fails (fetch env (VPS_METRICS_ENDPOINT (config env) +:+ ep)
                                         (upstream_headers jwt a)).1) ∧
       (r_success r = false → r_data r = JNull).
Proof.
  unfold fetchOne, after_call, bind, emit, ret, recordEndpointResult, call_fails.
  destruct (fetch env _ _) as [[e|st txt [data|]] d]; simpl.
  - eexists. split; [reflexivity|]. by repeat split.
  - destruct (res_ok st); simpl; (eexists; split; [reflexivity|]); by repeat split.
  - destruct (res_ok st); simpl; (eexists; split; [reflexivity|]); by repeat split.
Qed.

Lemma fan_out_absorbs env start jwt a eps w :
  ∃ rs w', fan_out env start jwt a eps w = (inr rs, w') ∧
           map r_endpoint rs = eps ∧
           w' = foldl (fun w ep => after_call env start jwt a ep w) w eps ∧
           Forall (fun r => r_success r = false → r_data r = JNull) rs ∧
           (∀ r, r ∈ rs →
              r_success r = negb (call_fails
                (fetch env (VPS_METRICS_ENDPOINT (config env) +:+ r_endpoint r)
                   (upstream_headers jwt a)).1)).
Proof.
  revert w. induction eps as [|ep eps IH]; intros w; simpl.
  - exists [], w. unfold ret. repeat split; [constructor | by inversion 1].
  - destruct (fetchOne_absorbs env start jwt a ep w) as (r & Hr & Hep & Hs & Hd).
    destruct (IH (after_call env start jwt a ep w)) as (rs & w' & Hrs & Hm & Hw & Hf & Hall).
    exists (r :: rs), w'. unfold bind. rewrite Hr, Hrs. unfold ret.
    repeat split; [by rewrite <- Hep, <- Hm | done | by constructor |].
    intros r' [->|Hin]%elem_of_cons; [by rewrite Hep | by apply Hall].
Qed.

(** *** C4 and C7: what makes an aggregation fail *)

Ltac run_with H := erewrite bind_ok by exact H; cbv beta.
Ltac run := erewrite bind_ok by reflexivity; cbv beta.

Lemma find_data_failed rs ep :
  Forall (fun r => r_data r = JNull) rs → find_data rs ep = JObj [].
Proof.
  intros Hall. unfold find_data.
  destruct (find _ rs) as [r|] eqn:Hfind; [|done].
  apply find_some in Hfind as [Hin _].
  rewrite Forall_forall in Hall. rewrite (Hall r); [done|].
  by apply list_elem_of_In.
Qed.

Lemma createInternalJWT_world env uid mail r w :
  (createInternalJWT env uid mail r w).2 = w.
Proof. reflexivity. Qed.

Lemma failed_calls_no_healthy env start jwt a eps w :
  (∀ ep hdrs, ep ∈ eps →
     call_fails (fetch env (VPS_METRICS_ENDPOINT (config env) +:+ ep) hdrs).1 = true) →
  Health.no_healthy (healthState w) →
  Health.no_healthy
    (healthState (foldl (fun w ep => after_call env start jwt a ep w) w eps)).
Proof.
  revert w. induction eps as [|ep eps IH]; intros w Hfail Hno; [done|].
  simpl. apply IH.
  - intros ep' hdrs Hin. apply Hfail. by right.
  - unfold after_call; simpl. rewrite Hfail by left. simpl.
    by apply HealthFacts.record_failure_no_healthy.
Qed.

Lemma aggregate_all_fail env a sid w jwt :
  createInternalJWT env (js_of (userId a)) (js_of (email a)) (js_of (role a)) w
  = (inr jwt, w) →
  (∀ ep hdrs, ep ∈ AGGREGATE_ENDPOINTS →
     call_fails (fetch env (VPS_METRICS_ENDPOINT (config env) +:+ ep) hdrs).1 = true) →
  ∃ p rs total w',
    fetchAndAggregateMetrics env a sid w = (inr (p, rs, total), w') ∧
    at_path ["error"] p = None ∧
    at_path ["markets"; "futures"; "connected"] p = Some (JBool false) ∧
    at_path ["markets"; "crypto"; "connected"] p = Some (JBool false) ∧
    at_path ["positions"] p = Some (JArr []) ∧
    at_path ["_health"; "vpsReachable"] p
    = Some (JBool (Health.vpsReachable
                     (Health.getHealthSnapshot (toISOString env (now w'))
                        (healthState w')))) ∧
    (Health.no_healthy (healthState w) → Health.no_healthy (healthState w')).
Proof.
  intros Hjwt Hfail.
  destruct (fan_out_absorbs env (now w) jwt a AGGREGATE_ENDPOINTS w)
    as (rs & w1 & Hfo & Hm & Hw1 & Hd & Hs).
  assert (Hnull : Forall (fun r => r_data r = JNull) rs).
  { rewrite Forall_forall in Hd |- *. intros r Hr. apply Hd; [done|].
    rewrite (Hs r Hr), Hfail; [done|].
    rewrite <- Hm. by apply list_elem_of_fmap_2. }
  unfold fetchAndAggregateMetrics.
  run. run_with Hjwt. run_with Hfo. run. run.
  rewrite (find_data_failed rs) by done. run. run.
  unfold unified_payload. rewrite !(find_data_failed rs) by done.
  run.
  assert (Hno : Health.no_healthy (healthState w) → Health.no_healthy (healthState w1)).
  { rewrite Hw1. by apply failed_calls_no_healthy. }
  unfold recordSessionEvent.
  destruct (truthy (JStr sid) && truthy (js_of (userId a)));
    [destruct (negb (getServiceClient env) || negb (truthy (JStr sid)))|];
    eexists _, _, _, _; (split; [reflexivity|]); repeat split; done.
Qed.

(** C4 (as the code has it). When every one of the five fan-out calls fails,
    the aggregation still answers 200 with a payload that has no top-level
    error, in which markets.futures.connected and markets.crypto.connected
    are false and positions is empty.  [_health.vpsReachable] is taken from
    the health map as it stands once the five failures are recorded: it is
    false when no endpoint was healthy before the call, as after a cold
    start. *)
Theorem aggregation_survives_total_upstream_failure
    (env : Env) (a : AuthResult) (req : Request) (w : World) (jwt : string) :
  VPS_METRICS_ENDPOINT (config env) ≠ EmptyString →
  createInternalJWT env (js_of (userId a)) (js_of (email a)) (js_of (role a)) w
  = (inr jwt, w) →
  (∀ ep hdrs, ep ∈ AGGREGATE_ENDPOINTS →
     call_fails (fetch env (VPS_METRICS_ENDPOINT (config env) +:+ ep) hdrs).1 = true) →
  ∃ p w',
    v1_aggregate env a req w = (inr (c_json [] p 200), w') ∧
    at_path ["error"] p = None ∧
    at_path ["markets"; "futures"; "connected"] p = Some (JBool false) ∧
    at_path ["markets"; "crypto"; "connected"] p = Some (JBool false) ∧
    at_path ["positions"] p = Some (JArr []) ∧
    at_path ["_health"; "vpsReachable"] p
    = Some (JBool (Health.vpsReachable
                     (Health.getHealthSnapshot (toISOString env (now w'))
                        (healthState w')))) ∧
    (Health.no_healthy (healthState w) →
     at_path ["_health"; "vpsReachable"] p = Some (JBool false)).
Proof.
  intros Hvps Hjwt Hfail.
  destruct (aggregate_all_fail env a (header req "X-Session-Id") w jwt Hjwt Hfail)
    as (p & rs & total & w' & Hagg & He & Hf & Hc & Hp & Hh & Hno).
  exists p, w'. unfold v1_aggregate, try_catch, bind.
  rewrite (vps_configured env Hvps), Hagg.
  repeat split; try done.
  intros Hw. rewrite Hh.
  by rewrite (HealthFacts.no_healthy_unreachable _ _ (Hno Hw)).
Qed.

Lemma aggregation_survives_total_upstream_failure_witness :
  ∃ p w',
    v1_aggregate (Samples.sample_env "k" Samples.unreachable_upstream)
      Samples.verified
      (Samples.browser_request "/metrics-proxy-jwt/v1/metrics/aggregate" [])
      Samples.cold_start
    = (inr (c_json [] p 200), w') ∧
    at_path ["markets"; "futures"; "connected"] p = Some (JBool false) ∧
    at_path ["markets"; "crypto"; "connected"] p = Some (JBool false) ∧
    at_path ["positions"] p = Some (JArr []) ∧
    at_path ["_health"; "vpsReachable"] p = Some (JBool false).
Proof.
  destruct (aggregation_survives_total_upstream_failure
              (Samples.sample_env "k" Samples.unreachable_upstream)
              Samples.verified
              (Samples.browser_request "/metrics-proxy-jwt/v1/metrics/aggregate" [])
              Samples.cold_start "e30.e30.mac-k")
    as (p & w' & Hr & _ & Hf & Hc & Hp & _ & Hh).
  - vm_compute. congruence.
  - reflexivity.
  - intros ep hdrs _. reflexivity.
  - exists p, w'.
    split; [exact Hr|]. split; [exact Hf|]. split; [exact Hc|].
    split; [exact Hp|]. apply Hh, HealthFacts.no_healthy_empty.
Defined.

(** C4, as stated, fails on a process that has seen the upstream work: after
    nine good calls of the broker status, an aggregation whose five calls all
    fail is answered 200 with [_health.vpsReachable] still true. *)
Lemma all_calls_fail_yet_vps_reachable :
  let env := Samples.sample_env "k" Samples.unreachable_upstream in
  (∀ ep hdrs, ep ∈ AGGREGATE_ENDPOINTS →
     call_fails (fetch env (VPS_METRICS_ENDPOINT (config env) +:+ ep) hdrs).1 = true) ∧
  ∃ p w',
    v1_aggregate env Samples.verified
      (Samples.browser_request "/metrics-proxy-jwt/v1/metrics/aggregate" [])
      Samples.warmed_up
    = (inr (c_json [] p 200), w') ∧
    at_path ["_health"; "vpsReachable"] p = Some (JBool true).
Proof.
  split; [intros ep hdrs _; reflexivity|].
  eexists _, _. split; [vm_compute; reflexivity|]. reflexivity.
Qed.




(** *** C9: session export *)

#[local] Instance older_first_trans : Transitive older_first.
Proof. unfold older_first. intros x y z. lia. Qed.
#[local] Instance older_first_total : Total older_first.
Proof. unfold older_first. intros x y. lia. Qed.
#[local] Instance newer_first_trans : Transitive newer_first.
Proof. unfold newer_first. intros x y z. lia. Qed.
#[local] Instance newer_first_total : Total newer_first.
Proof. unfold newer_first. intros x y. lia. Qed.

Lemma str_or_inv q fallback v :
  fallback ≠ v → str_or q fallback = v → q = v.
Proof. unfold str_or. by destruct (String.eqb q EmptyString). Qed.

Lemma export_reversed_newest_first (l : list SessionEvent) :
  StronglySorted older_first l → StronglySorted newer_first (reverse l).
Proof.
  intros Hl. apply Sorted_StronglySorted; [apply _|].
  apply (Sorted_reverse older_first). by apply StronglySorted_Sorted.
Qed.

Lemma export_query_sorted table uid sid :
  StronglySorted older_first (export_query table uid sid).
Proof. unfold export_query. apply (StronglySorted_merge_sort _). Qed.

Lemma StronglySorted_take_drop {A} (R : relation A) (l : list A) n m :
  StronglySorted R l → StronglySorted R (take n (drop m l)).
Proof.
  intros Hl.
  assert (Hd : StronglySorted R (drop m l)).
  { rewrite <- (take_drop m l) in Hl. by apply StronglySorted_app_1_r in Hl. }
  rewrite <- (take_drop n (drop m l)) in Hd.
  by apply StronglySorted_app_1_l in Hd.
Qed.

Lemma events_query_sorted table uid sid offset limit page :
  events_query table uid sid offset limit = inr page →
  StronglySorted newer_first page.
Proof.
  unfold events_query, range.
  destruct offset as [o|]; [|done].
  destruct limit as [l|]; [|done].
  destruct (_ && _)%bool; [|done].
  intros [= <-]. apply StronglySorted_take_drop.
  apply (StronglySorted_merge_sort _).
Qed.

(** A text line is never empty. *)
Lemma text_lines_nonempty env (events : list SessionEvent) :
  events ≠ [] →
  String.eqb (String.concat newline (map (text_line env) events)) EmptyString
  = false.
Proof. by destruct events as [|e [|e' l]]. Qed.

(** C9. A session export answers 200 with the events of the session, those
    of the caller alone, ordered oldest first, in every format; read
    backwards the export is in the newest-first order of the paginated
    listing.  The CSV body is the header row
    id,session_id,event_type,timestamp_utc,event_payload and then one row per
    event: the id, and between double quotes the session id, the type, the
    timestamp and the serialised payload with its quotes doubled.  The text
    body is one line per event, the timestamp between brackets, the type, a
    colon and the serialised payload, or "No events found" for none.  The
    JSON body lists the rows as they are stored, with their count.  So for a
    session holding one event of type login with the empty object as
    payload, the CSV body is the header row followed by one row with the
    event's id, session id, type, timestamp and the payload written as {}
    between quotes.  Row ids are taken to fit a JavaScript number. *)
Theorem session_export_rows_and_order
    (env : Env) (a : AuthResult) (req : Request) (w : World) :
  let sid := query req "session_id" in
  let format := query req "format" in
  let events := export_query (session_events w) (userId a) sid in
  let nl := String "010"%char EmptyString in
  let stamp (e : SessionEvent) := timestamptz_json env (timestamp_utc e) in
  let csv (e : SessionEvent) :=
    pretty (id e) +:+ "," +:+
    dq +:+ session_id e +:+ dq +:+ "," +:+
    dq +:+ event_type e +:+ dq +:+ "," +:+
    dq +:+ stamp e +:+ dq +:+ "," +:+
    dq +:+ double_quotes (stringify env (event_payload e)) +:+ dq in
  let text (e : SessionEvent) :=
    "[" +:+ stamp e +:+ "] " +:+ event_type e +:+ ": " +:+
    stringify env (event_payload e) in
  let row (e : SessionEvent) :=
    JObj [ ("id", JInt (id e)); ("session_id", JStr (session_id e));
           ("user_id", JStr (user_id e)); ("event_type", JStr (event_type e));
           ("event_payload", event_payload e);
           ("timestamp_utc", JStr (stamp e)) ] in
  sid ≠ EmptyString →
  getServiceClient env = true →
  select_error env = None →
  Forall (fun e => (Z.abs (id e) < 2 ^ 53)%Z) (session_events w) →
  ∃ r w',
    v1_sessions_export env a req w = (inr r, w') ∧
    res_status r = 200 ∧
    StronglySorted older_first events ∧
    events ≡ₚ filter (fun e => Some (user_id e) = userId a ∧ session_id e = sid)
                (session_events w) ∧
    StronglySorted newer_first (reverse events) ∧
    (∀ offset limit page,
       events_query (session_events w) (userId a) sid offset limit = inr page →
       StronglySorted newer_first page) ∧
    (format = "csv" →
     res_body r
     = TextBody ("id,session_id,event_type,timestamp_utc,event_payload" +:+
                 nl +:+ String.concat nl (map csv events))) ∧
    (format = "text" →
     res_body r = TextBody (match events with
                            | [] => "No events found"
                            | _ => String.concat nl (map text events)
                            end)) ∧
    (format ≠ "csv" → format ≠ "text" →
     at_path ["sessionId"] (Samples.json_of r) = Some (JStr sid) ∧
     at_path ["eventCount"] (Samples.json_of r)
     = Some (JNat (length events)) ∧
     at_path ["events"] (Samples.json_of r) = Some (JArr (map row events))) ∧
    (∀ e, events = [e] → event_type e = "login" → event_payload e = JObj [] →
          (format = "csv" →
           res_body r
           = TextBody ("id,session_id,event_type,timestamp_utc,event_payload"
                       +:+ nl +:+
                       pretty (id e) +:+ "," +:+
                       dq +:+ sid +:+ dq +:+ "," +:+
                       dq +:+ "login" +:+ dq +:+ "," +:+
                       dq +:+ stamp e +:+ dq +:+ "," +:+
                       dq +:+ "{}" +:+ dq)) ∧
          (format = "text" →
           res_body r = TextBody ("[" +:+ stamp e +:+ "] login: {}")) ∧
          (format ≠ "csv" → format ≠ "text" →
           at_path ["events"] (Samples.json_of r)
           = Some (JArr [ JObj [ ("id", JInt (id e));
                                 ("session_id", JStr sid);
                                 ("user_id", JStr (user_id e));
                                 ("event_type", JStr "login");
                                 ("event_payload", JObj []);
                                 ("timestamp_utc", JStr (stamp e)) ] ]))).
Proof.
  intros sid format events nl stamp csv text row Hsid Hclient Hsel _.
  assert (Hsorted : StronglySorted older_first events)
    by apply export_query_sorted.
  assert (Hperm : events ≡ₚ filter (fun e => Some (user_id e) = userId a
                                             ∧ session_id e = sid)
                              (session_events w))
    by apply merge_sort_Permutation.
  assert (Hguard : negb (truthy (JStr sid)) = false).
  { simpl. rewrite negb_involutive. by apply String.eqb_neq. }
  assert (Hone : ∀ e, events = [e] → session_id e = sid).
  { intros e He. assert (Hin : e ∈ events) by (rewrite He; left).
    rewrite Hperm in Hin. by apply list_elem_of_filter in Hin as [[_ ?] _]. }
  unfold v1_sessions_export, try_catch, bind. fold sid format.
  rewrite Hguard, Hclient, Hsel. simpl negb. cbv iota.
  unfold emit at 1. cbv beta iota. simpl session_events. fold events.
  destruct (String.eqb (str_or format "json") "csv") eqn:Hcsv;
    [|destruct (String.eqb (str_or format "json") "text") eqn:Htext];
    (eexists _, _; split; [reflexivity|]; split; [reflexivity|];
     split; [exact Hsorted|]; split; [exact Hperm|];
     split; [by apply export_reversed_newest_first|];
     split; [intros ????; by eapply events_query_sorted|]).
  - apply String.eqb_eq, str_or_inv in Hcsv; [|done].
    split.
    { intros _. reflexivity. }
    split; [by rewrite Hcsv|]. split; [done|].
    intros e He Ht Hp.
    split; [|split; [by rewrite Hcsv | done]]. intros _.
    cbn [res_body session_events]. fold events. rewrite He.
    simpl map. unfold csv_row. rewrite Ht, Hp, (Hone e He). reflexivity.
  - apply String.eqb_eq, str_or_inv in Htext; [|done].
    assert (Hbody : str_or (String.concat newline (map (text_line env) events))
                      "No events found"
                    = match events with
                      | [] => "No events found"
                      | _ => String.concat nl (map text events)
                      end).
    { destruct events as [|e l] eqn:He; [reflexivity|].
      unfold str_or. by rewrite text_lines_nonempty. }
    split; [by rewrite Htext|].
    split.
    { intros _. cbn [res_body session_events]. fold events.
      by rewrite Hbody. }
    split; [done|].
    intros e He Ht Hp.
    split; [by rewrite Htext|]. split; [|done]. intros _.
    cbn [res_body session_events]. fold events.
    rewrite Hbody, He. simpl map. unfold text.
    rewrite Ht, Hp. reflexivity.
  - split; [intros Hf; by rewrite Hf in Hcsv|].
    split; [intros Hf; by rewrite Hf in Htext|].
    split; [by repeat split|].
    intros e He Ht Hp.
    split; [intros Hf; by rewrite Hf in Hcsv|].
    split; [intros Hf; by rewrite Hf in Htext|]. intros _ _.
    cbn [Samples.json_of res_body c_json at_path assoc String.eqb Ascii.eqb
         Bool.eqb session_events].
    fold events. rewrite He. simpl map. unfold event_json.
    rewrite Ht, Hp, (Hone e He). reflexivity.
Qed.

Lemma session_export_rows_and_order_witness :
  let env := Samples.sample_env "k" Samples.unreachable_upstream in
  let export (format : string) :=
    v1_sessions_export env Samples.verified
      (Samples.browser_request "/metrics-proxy-jwt/v1/sessions/export"
         [("session_id", "s-1"); ("format", format)])
      Samples.one_login in
  (∃ r w',
     export "csv" = (inr r, w') ∧
     res_body r
     = TextBody ("id,session_id,event_type,timestamp_utc,event_payload"
                 +:+ newline +:+ "7," +:+
                 dq +:+ "s-1" +:+ dq +:+ "," +:+
                 dq +:+ "login" +:+ dq +:+ "," +:+
                 dq +:+ "1700000000000000" +:+ dq +:+ "," +:+
                 dq +:+ "{}" +:+ dq)) ∧
  (∃ r w',
     export "text" = (inr r, w') ∧
     res_body r = TextBody "[1700000000000000] login: {}") ∧
  (∃ r w',
     export "json" = (inr r, w') ∧
     at_path ["events"] (Samples.json_of r)
     = Some (JArr [ JObj [ ("id", JInt 7); ("session_id", JStr "s-1");
                           ("user_id", JStr "user-1");
                           ("event_type", JStr "login");
                           ("event_payload", JObj []);
                           ("timestamp_utc", JStr "1700000000000000") ] ])).
Proof.
  intros env export.
  assert (Hids : Forall (fun e => (Z.abs (id e) < 2 ^ 53)%Z)
                   (session_events Samples.one_login)).
  { repeat constructor. }
  split; [|split].
  - destruct (session_export_rows_and_order env Samples.verified
                (Samples.browser_request
                   "/metrics-proxy-jwt/v1/sessions/export"
                   [("session_id", "s-1"); ("format", "csv")])
                Samples.one_login)
      as (r & w' & Hr & _ & _ & _ & _ & _ & _ & _ & _ & Hrow);
      [vm_compute; congruence | reflexivity | reflexivity | exact Hids |].
    exists r, w'. split; [exact Hr|].
    destruct (Hrow Samples.login_event eq_refl eq_refl eq_refl)
      as (Hcsv & _ & _).
    rewrite Hcsv; reflexivity.
  - destruct (session_export_rows_and_order env Samples.verified
                (Samples.browser_request
                   "/metrics-proxy-jwt/v1/sessions/export"
                   [("session_id", "s-1"); ("format", "text")])
                Samples.one_login)
      as (r & w' & Hr & _ & _ & _ & _ & _ & _ & _ & _ & Hrow);
      [vm_compute; congruence | reflexivity | reflexivity | exact Hids |].
    exists r, w'. split; [exact Hr|].
    destruct (Hrow Samples.login_event eq_refl eq_refl eq_refl)
      as (_ & Htext & _).
    rewrite Htext; reflexivity.
  - destruct (session_export_rows_and_order env Samples.verified
                (Samples.browser_request
                   "/metrics-proxy-jwt/v1/sessions/export"
                   [("session_id", "s-1"); ("format", "json")])
                Samples.one_login)
      as (r & w' & Hr & _ & _ & _ & _ & _ & _ & _ & _ & Hrow);
      [vm_compute; congruence | reflexivity | reflexivity | exact Hids |].
    exists r, w'. split; [exact Hr|].
    destruct (Hrow Samples.login_event eq_refl eq_refl eq_refl)
      as (_ & _ & Hjson).
    rewrite Hjson; [reflexivity | discriminate | discriminate].
Defined.

End EdgeFacts.

(** ** Internal gatekeeper *)

Module GatekeeperFacts.
Import Gatekeeper.

Section WithEnv.
Variable env : Env.

Lemma started_iff t :
  reached (now env) (iat (claims t)) && reached (now env) (nbf (claims t)) = true
  ↔ started env t.
Proof.
  unfold started, reached. rewrite andb_true_iff.
  destruct (iat _) as [i|], (nbf _) as [n|]; rewrite ?Z.leb_le;
    split; try done.
  - intros [??]. split; by intros ? [= <-].
  - intros [Hi Hn]. split; [by apply Hi | by apply Hn].
  - intros [??]. split; [by intros ? [= <-] | done].
  - intros [Hi _]. split; [by apply Hi | done].
  - intros [??]. split; [done | by intros ? [= <-]].
  - intros [_ Hn]. split; [done | by apply Hn].
Qed.

Lemma expired_iff t :
  ahead (now env) (exp (claims t)) = false ↔ expired env t.
Proof.
  unfold expired, ahead. destruct (exp _) as [x|]; split.
  - intros H%Z.ltb_ge. eauto.
  - intros (y & [= <-] & Hy). by apply Z.ltb_ge.
  - done.
  - by intros (y & ? & _).
Qed.

Lemma audience_iff a :
  match audiences a with
  | Some l => existsb (String.eqb EXPECTED_AUDIENCE) l
  | None => false
  end = true ↔ ∃ l, audiences a = Some l ∧ EXPECTED_AUDIENCE ∈ l.
Proof.
  destruct (audiences a) as [l|]; [|split; [done | by intros (? & ? & _)]].
  rewrite existsb_exists. split.
  - intros (x & Hin & ->%String.eqb_eq). exists l. split; [done|].
    by apply list_elem_of_In.
  - intros (l' & [= <-] & Hin). exists EXPECTED_AUDIENCE.
    split; [by apply list_elem_of_In | apply String.eqb_refl].
Qed.

Lemma issued_ahead_iff t :
  reached (now env) (iat (claims t)) = false ↔ issued_ahead env t.
Proof.
  unfold issued_ahead, reached. destruct (iat _) as [x|]; split.
  - intros H%Z.leb_gt. eauto.
  - intros (y & [= <-] & Hy). by apply Z.leb_gt.
  - done.
  - by intros (y & ? & _).
Qed.

Lemma valid_ahead_iff t :
  reached (now env) (nbf (claims t)) = false ↔ valid_ahead env t.
Proof.
  unfold valid_ahead, reached. destruct (nbf _) as [x|]; split.
  - intros H%Z.leb_gt. eauto.
  - intros (y & [= <-] & Hy). by apply Z.leb_gt.
  - done.
  - by intros (y & ? & _).
Qed.

(** An audience claim that names the expected audience is not empty. *)
Lemma named_audience_truthy a l :
  audiences a = Some l → EXPECTED_AUDIENCE ∈ l → falsy a = false.
Proof.
  destruct a as [x|[|x l']|]; simpl; try done.
  - intros [= <-] <-%list_elem_of_singleton. reflexivity.
  - intros [= <-] Hin. by apply elem_of_nil in Hin.
Qed.

Lemma no_audience_not_right t : no_audience t → ¬ right_audience t.
Proof.
  intros [Hn|(a & Ha & Hf)] (a' & l & Ha' & Hl & Hin); [congruence|].
  assert (a' = a) as -> by congruence.
  by rewrite (named_audience_truthy a l Hl Hin) in Hf.
Qed.

(** The claim checks pass exactly on a current token of the right issuer and
    audience, and fail with the error of the first check that does not. *)
Lemma validate_claims_spec t :
  match validate_claims (now env) EXPECTED_ISSUER EXPECTED_AUDIENCE (claims t) with
  | inr _ =>
      started env t ∧ ¬ issued_ahead env t ∧ ¬ valid_ahead env t ∧
      ¬ expired env t ∧ right_issuer t ∧ right_audience t ∧ ¬ no_audience t
  | inl (ImmatureSignatureError c) =>
      ¬ started env t ∧
      (issued_ahead env t ∧ c = "iat" ∨
       ¬ issued_ahead env t ∧ valid_ahead env t ∧ c = "nbf")
  | inl ExpiredSignatureError =>
      started env t ∧ ¬ issued_ahead env t ∧ ¬ valid_ahead env t ∧
      expired env t
  | inl (MissingRequiredClaimError c) =>
      started env t ∧ ¬ issued_ahead env t ∧ ¬ valid_ahead env t ∧
      ¬ expired env t ∧
      (iss (claims t) = None ∧ c = "iss" ∨
       right_issuer t ∧ no_audience t ∧ c = "aud")
  | inl InvalidIssuerError =>
      started env t ∧ ¬ issued_ahead env t ∧ ¬ valid_ahead env t ∧
      ¬ expired env t ∧ wrong_issuer t
  | inl InvalidAudienceError =>
      started env t ∧ ¬ issued_ahead env t ∧ ¬ valid_ahead env t ∧
      ¬ expired env t ∧ right_issuer t ∧ wrong_audience t ∧ ¬ no_audience t
  | inl _ => False
  end.
Proof.
  unfold validate_claims, and_then, check.
  pose proof (started_iff t) as Hst. pose proof (expired_iff t) as Hexp.
  pose proof (issued_ahead_iff t) as Hia.
  pose proof (valid_ahead_iff t) as Hva.
  destruct (reached (now env) (iat (claims t))); simpl in Hst.
  2: { split; [by rewrite <- Hst|]. left. split; [by apply Hia | done]. }
  assert (Hi : ¬ issued_ahead env t) by (rewrite <- Hia; done).
  destruct (reached (now env) (nbf (claims t))).
  2: { split; [by rewrite <- Hst|]. right. split; [done|].
       split; [by apply Hva | done]. }
  assert (Hv : ¬ valid_ahead env t) by (rewrite <- Hva; done).
  assert (Hs : started env t) by by apply Hst.
  destruct (ahead (now env) (exp (claims t)));
    [|do 3 (split; [done|]); by apply Hexp].
  assert (He : ¬ expired env t) by (rewrite <- Hexp; done).
  unfold right_issuer, wrong_issuer, right_audience, wrong_audience,
    no_audience.
  destruct (iss (claims t)) as [i|]; [|by auto 10].
  destruct (String.eqb_spec i EXPECTED_ISSUER) as [->|Hi'];
    [|do 4 (split; [done|]); by eauto].
  destruct (aud (claims t)) as [a|]; [|by auto 10].
  destruct (falsy a) eqn:Hf.
  { do 4 (split; [done|]). right. split; [done|]. split; [|done].
    right. by exists a. }
  assert (Hno : ¬ (Some a = None ∨ ∃ a', Some a = Some a' ∧ falsy a' = true)).
  { intros [?|(a' & [= <-] & Hf')]; [done | congruence]. }
  pose proof (audience_iff a) as Ha.
  destruct (audiences a) as [l|] eqn:Haud.
  - destruct (existsb _ l).
    + destruct Ha as [(l' & [= <-] & ?) _]; [done|].
      do 5 (split; [done|]). split; [by exists a, l | done].
    + do 5 (split; [done|]). split; [|done]. exists a. split; [done|].
      intros l' Hl' Hin.
      assert (false = true); [|done].
      apply Ha. exists l'. split; [congruence | done].
  - do 5 (split; [done|]). split; [|done]. exists a. split; [done|].
    congruence.
Qed.

Lemma bearer_nonempty authz :
  String.prefix "Bearer " authz = true → String.eqb authz EmptyString = false.
Proof. by destruct authz. Qed.

(** The decision on a bearer header whose token parses: one case per check,
    in the order the checks are made. *)
Lemma validate_jwt_cases authz secret t :
  secret_file env = Some secret →
  String.prefix "Bearer " authz = true →
  parse env (replace_all "Bearer " EmptyString authz) = Some t →
  let r := validate_jwt env (Some authz) in
  (fully_valid env secret t ∧ ¬ issued_ahead env t ∧ ¬ valid_ahead env t ∧
   ¬ no_audience t ∧ r = allow t) ∨
  (alg t ≠ "HS256" ∧
   r = HTTPException 401 "Invalid token: The specified alg value is not allowed") ∨
  (alg t = "HS256" ∧ signature t ≠ hs256 env secret (signing_input t) ∧
   r = HTTPException 401 "Invalid token: Signature verification failed") ∨
  (signed env secret t ∧ ¬ started env t ∧ issued_ahead env t ∧
   r = HTTPException 401 "Invalid token: The token is not yet valid (iat)") ∨
  (signed env secret t ∧ ¬ started env t ∧ ¬ issued_ahead env t ∧
   valid_ahead env t ∧
   r = HTTPException 401 "Invalid token: The token is not yet valid (nbf)") ∨
  (signed env secret t ∧ started env t ∧ ¬ issued_ahead env t ∧
   ¬ valid_ahead env t ∧ expired env t ∧
   r = HTTPException 401 "Token expired") ∨
  (signed env secret t ∧ started env t ∧ ¬ issued_ahead env t ∧
   ¬ valid_ahead env t ∧ ¬ expired env t ∧ iss (claims t) = None ∧
   r = HTTPException 401
         ("Invalid token: Token is missing the " +:+ dq +:+ "iss" +:+ dq +:+
          " claim")) ∨
  (signed env secret t ∧ started env t ∧ ¬ issued_ahead env t ∧
   ¬ valid_ahead env t ∧ ¬ expired env t ∧ wrong_issuer t ∧
   r = HTTPException 401 "Invalid issuer") ∨
  (signed env secret t ∧ started env t ∧ ¬ issued_ahead env t ∧
   ¬ valid_ahead env t ∧ ¬ expired env t ∧ right_issuer t ∧ no_audience t ∧
   r = HTTPException 401
         ("Invalid token: Token is missing the " +:+ dq +:+ "aud" +:+ dq +:+
          " claim")) ∨
  (signed env secret t ∧ started env t ∧ ¬ issued_ahead env t ∧
   ¬ valid_ahead env t ∧ ¬ expired env t ∧ right_issuer t ∧
   wrong_audience t ∧ ¬ no_audience t ∧
   r = HTTPException 401 "Invalid audience").
Proof.
  intros Hsecret Hbearer Hparse. simpl.
  rewrite (bearer_nonempty _ Hbearer), Hbearer. simpl.
  unfold get_secret. rewrite Hsecret. unfold jwt_decode. rewrite Hparse.
  unfold check, and_then.
  destruct (String.eqb_spec (alg t) "HS256") as [Halg|Halg]; [|by auto].
  destruct (String.eqb_spec (signature t) (hs256 env secret (signing_input t)))
    as [Hsig|Hsig]; [|by auto 6].
  assert (Hsigned : signed env secret t) by done.
  pose proof (validate_claims_spec t) as Hc.
  destruct (validate_claims _ _ _ _) as [[]|[]]; try done.
  - destruct Hc as (? & [(? & ->)|(? & ? & ->)]).
    + do 3 right. left. repeat (split; [assumption|]). reflexivity.
    + do 4 right. left. repeat (split; [assumption|]). reflexivity.
  - destruct Hc as (?&?&?&?). do 5 right. left.
    repeat (split; [assumption|]). reflexivity.
  - destruct Hc as (?&?&?&?& [(? & ->)|(? & ? & ->)]).
    + do 6 right. left. repeat (split; [assumption|]). reflexivity.
    + do 8 right. left. repeat (split; [assumption|]). reflexivity.
  - destruct Hc as (?&?&?&?&?). do 7 right. left.
    repeat (split; [assumption|]). reflexivity.
  - destruct Hc as (?&?&?&?&?&?&?). do 9 right.
    repeat (split; [assumption|]). reflexivity.
  - destruct Hc as (?&?&?&?&?&?&?). left. unfold fully_valid.
    repeat (split; [tauto|]). reflexivity.
Qed.

Lemma validate_jwt_status secret authorization :
  secret_file env = Some secret →
  status_code (validate_jwt env authorization) = 200 ∨
  status_code (validate_jwt env authorization) = 401.
Proof.
  intros Hsecret. unfold validate_jwt, get_secret. rewrite Hsecret.
  destruct authorization as [authz|]; [|by right].
  destruct (String.eqb authz EmptyString); [by right|].
  destruct (negb (String.prefix "Bearer " authz)); [by right|].
  destruct (jwt_decode _ _ _ _ _) as [[]|]; auto.
Qed.

(** nginx lets a protected request through only on the validator's 200, and
    then to the path it asked for, with the attribution headers of that
    answer. *)
Lemma nginx_forwards_on_200 m uri uri' authorization attribution :
  uri ≠ "/health" →
  nginx env m uri authorization = Forwarded uri' attribution →
  m ≠ OPTIONS ∧ uri' = uri ∧
  Nat.leb 200 (status_code (validate_jwt env authorization))
  && Nat.leb (status_code (validate_jwt env authorization)) 299 = true ∧
  attribution = headers (validate_jwt env authorization).
Proof.
  intros Huri%String.eqb_neq. unfold nginx. rewrite Huri.
  destruct (String.eqb uri "/_validate_jwt"); [done|].
  destruct m; try done;
    (destruct (throttled env); [done|];
     destruct (Nat.leb 200 _ && Nat.leb _ 299) eqn:Hok;
     [by intros [= <- <-] | by destruct (_ || _)]).
Qed.

End WithEnv.

(** C2. With the shared secret in place, the gatekeeper answers every
    Authorization header with 200 or 401, and nginx passes a protected
    request on to the metrics service only on the 200.  A header that is
    absent or empty is denied as "Missing Authorization header", one without
    the bearer prefix as "Invalid Authorization format", a bearer header
    whose token is malformed as "Invalid token: " followed by the decoder's
    message.  For a bearer header whose token parses, the answer is 200
    exactly when the token is fully valid (HS256 signature under the shared
    secret, current, expected issuer and audience), and then carries
    X-Auth-User-Id and X-Auth-User-Email from the token's subject and email.
    Otherwise the token is denied with 401 and the reason of the first check
    that fails, the checks being made in the order algorithm, signature,
    issued-at, not-before, expiry, issuer, audience: so a token with the
    wrong audience is always denied, with the reason "Invalid audience" when
    every earlier check passes and the claim is not empty, and a signature
    mismatch, an expired token and a wrong issuer are denied with
    "Invalid token: Signature verification failed", "Token expired" and
    "Invalid issuer", each when the checks made before it pass.  The four
    reasons are pairwise distinct. *)
Theorem gatekeeper_denies_with_distinct_reasons
    (env : Env) (secret : string) (authorization : option string) :
  secret_file env = Some secret →
  let r := validate_jwt env authorization in
  let missing claim :=
    HTTPException 401
      ("Invalid token: Token is missing the " +:+ dq +:+ claim +:+ dq +:+
       " claim") in
  (status_code r = 200 ∨ status_code r = 401) ∧
  (∀ m uri, uri ≠ "/health" → status_code r ≠ 200 →
            ∃ code, nginx env m uri authorization = Refused code) ∧
  (authorization = None ∨ authorization = Some EmptyString →
   r = HTTPException 401 "Missing Authorization header") ∧
  (∀ authz,
     authorization = Some authz → authz ≠ EmptyString →
     String.prefix "Bearer " authz = false →
     r = HTTPException 401 "Invalid Authorization format") ∧
  (∀ authz,
     authorization = Some authz →
     String.prefix "Bearer " authz = true →
     parse env (replace_all "Bearer " EmptyString authz) = None →
     r = HTTPException 401
           ("Invalid token: " +:+
            decode_error env (replace_all "Bearer " EmptyString authz))) ∧
  (∀ authz t,
     authorization = Some authz →
     String.prefix "Bearer " authz = true →
     parse env (replace_all "Bearer " EmptyString authz) = Some t →
     (status_code r = 200 ↔ fully_valid env secret t) ∧
     (fully_valid env secret t →
      r = {| status_code := 200; detail := None;
             headers :=
               [ ("X-Auth-User-Id", default EmptyString (sub (claims t)));
                 ("X-Auth-User-Email",
                   default EmptyString (email (claims t))) ] |}) ∧
     (wrong_audience t → status_code r = 401) ∧
     (alg t ≠ "HS256" →
      r = HTTPException 401
            "Invalid token: The specified alg value is not allowed") ∧
     (alg t = "HS256" → signature t ≠ hs256 env secret (signing_input t) →
      r = HTTPException 401 "Invalid token: Signature verification failed") ∧
     (signed env secret t → issued_ahead env t →
      r = HTTPException 401 "Invalid token: The token is not yet valid (iat)") ∧
     (signed env secret t → ¬ issued_ahead env t → valid_ahead env t →
      r = HTTPException 401 "Invalid token: The token is not yet valid (nbf)") ∧
     (signed env secret t → started env t → expired env t →
      r = HTTPException 401 "Token expired") ∧
     (signed env secret t → started env t → ¬ expired env t →
      iss (claims t) = None → r = missing "iss") ∧
     (signed env secret t → started env t → ¬ expired env t → wrong_issuer t →
      r = HTTPException 401 "Invalid issuer") ∧
     (signed env secret t → started env t → ¬ expired env t → right_issuer t →
      no_audience t → r = missing "aud") ∧
     (signed env secret t → started env t → ¬ expired env t → right_issuer t →
      wrong_audience t → ¬ no_audience t →
      r = HTTPException 401 "Invalid audience")) ∧
  NoDup [ "Invalid audience"; "Invalid issuer"; "Token expired";
          "Invalid token: Signature verification failed" ].
Proof.
  intros Hsecret r missing. subst r missing.
  pose proof (validate_jwt_status env secret authorization Hsecret) as Hstatus.
  split; [exact Hstatus|]. split; [|split; [|split; [|split; [|split]]]].
  - intros m uri Huri Hdenied.
    destruct (nginx env m uri authorization) as [uri' attribution|code] eqn:Hn;
      [|by eauto].
    apply nginx_forwards_on_200 in Hn as (_ & _ & Hok & _); [|done].
    destruct Hstatus as [?|H401]; [done|].
    by rewrite H401 in Hok.
  - by intros [->| ->].
  - intros authz -> Hne%String.eqb_neq Hp. unfold validate_jwt.
    by rewrite Hne, Hp.
  - intros authz -> Hp Hparse. unfold validate_jwt, get_secret, jwt_decode.
    by rewrite (bearer_nonempty _ Hp), Hp, Hsecret, Hparse.
  - intros authz t -> Hbearer Hparse.
    pose proof (validate_jwt_cases env authz secret t Hsecret Hbearer Hparse)
      as Hcases. cbv zeta in Hcases.
    pose proof (no_audience_not_right t) as Hnone.
    unfold fully_valid, signed, right_issuer, wrong_issuer, right_audience,
      wrong_audience, allow, HTTPException in *.
    destruct Hcases as [H|[H|[H|[H|[H|[H|[H|[H|[H|H]]]]]]]]];
      destruct_and?;
      repeat match goal with
             | H : validate_jwt _ _ = _ |- _ => rewrite H; clear H
             end;
      clear Hstatus Hsecret Hbearer Hparse; simpl;
      repeat (split; [naive_solver|]); naive_solver.
  - repeat constructor; set_solver.
Qed.

Lemma gatekeeper_denies_with_distinct_reasons_witness :
  validate_jwt Samples.sample_gatekeeper (Some "Bearer for-another-audience")
  = HTTPException 401 "Invalid audience" ∧
  nginx Samples.sample_gatekeeper GET "/brokers/status"
    (Some "Bearer for-another-audience") = Refused 401 ∧
  validate_jwt Samples.sample_gatekeeper (Some "Bearer for-this-boundary")
  = allow (Samples.internal_token "vps-metrics-api") ∧
  validate_jwt Samples.sample_gatekeeper (Some "Bearer garbled")
  = HTTPException 401 "Invalid token: Not enough segments".
Proof.
  destruct (gatekeeper_denies_with_distinct_reasons Samples.sample_gatekeeper
              "k" (Some "Bearer for-another-audience") eq_refl)
    as (_ & _ & _ & _ & _ & Hwrong & _).
  destruct (Hwrong "Bearer for-another-audience"
              (Samples.internal_token "billing-api") eq_refl eq_refl eq_refl)
    as (_ & _ & _ & _ & _ & _ & _ & _ & _ & _ & _ & Haud).
  destruct (gatekeeper_denies_with_distinct_reasons Samples.sample_gatekeeper
              "k" (Some "Bearer for-this-boundary") eq_refl)
    as (_ & _ & _ & _ & _ & Hright & _).
  destruct (Hright "Bearer for-this-boundary"
              (Samples.internal_token "vps-metrics-api") eq_refl eq_refl eq_refl)
    as (_ & Hallow & _).
  destruct (gatekeeper_denies_with_distinct_reasons Samples.sample_gatekeeper
              "k" (Some "Bearer garbled") eq_refl)
    as (_ & _ & _ & _ & Hgarbled & _).
  assert (Hsigned : ∀ audience,
            signed Samples.sample_gatekeeper "k" (Samples.internal_token audience))
    by (intros; split; reflexivity).
  assert (Hstarted : ∀ audience,
            started Samples.sample_gatekeeper (Samples.internal_token audience)).
  { intros audience. split; intros x [= <-]. vm_compute. congruence. }
  assert (Hcurrent : ∀ audience,
            ¬ expired Samples.sample_gatekeeper (Samples.internal_token audience)).
  { intros audience (x & [= <-] & Hx). vm_compute in Hx. by apply Hx. }
  split; [|split; [|split]].
  - apply Haud; [done | done | done | reflexivity | |].
    + eexists. split; [reflexivity|]. intros l [= <-].
      intros Hin%list_elem_of_singleton. discriminate Hin.
    + intros [H|(a & [= <-] & H)]; discriminate H.
  - reflexivity.
  - apply Hallow. split; [done|]. split; [done|]. split; [done|].
    split; [reflexivity|]. eexists _, _. split; [reflexivity|].
    split; [reflexivity|]. apply list_elem_of_singleton. reflexivity.
  - exact (Hgarbled "Bearer garbled" eq_refl eq_refl eq_refl).
Defined.

(** For the claim C2: a token for another audience that has also expired is
    denied as expired; the audience is never looked at. *)
Lemma wrong_audience_is_denied_as_expired :
  let env := Samples.late_gatekeeper in
  let t := Samples.internal_token "billing-api" in
  parse env (replace_all "Bearer " EmptyString "Bearer for-another-audience")
  = Some t ∧
  wrong_audience t ∧
  validate_jwt env (Some "Bearer for-another-audience")
  = HTTPException 401 "Token expired" ∧
  HTTPException 401 "Token expired" ≠ HTTPException 401 "Invalid audience".
Proof.
  split; [reflexivity|]. split; [|split; [reflexivity | discriminate]].
  eexists. split; [reflexivity|]. intros l [= <-].
  intros Hin%list_elem_of_singleton. discriminate Hin.
Qed.

End GatekeeperFacts.

(** * Further properties of the code *)

(** ** Health monitor: window, timestamps, aggregates *)

Module HealthMore.
Import Health HealthFacts.

(** X1. In every reachable state the window of an endpoint holds at least one
    and at most 20 samples, and while the endpoint has been observed at most
    20 times the window holds every latency observed, oldest first. *)
Theorem window_never_exceeds_capacity
    (h : list Observation) (hs : gmap string EndpointHealthEntry)
    (ep : string) (e : EndpointHealthEntry) :
  reaches h hs →
  hs !! ep = Some e →
  1 ≤ length (latencies e) ≤ HEALTH_WINDOW_SIZE ∧
  length (latencies e) = min HEALTH_WINDOW_SIZE (length (on_endpoint ep h)) ∧
  (length (on_endpoint ep h) ≤ HEALTH_WINDOW_SIZE →
   latencies e = map obs_latencyMs (on_endpoint ep h)).
Proof.
  intros Hreach He. pose proof (reaches_entry h hs ep Hreach) as Hinv.
  rewrite He in Hinv. destruct Hinv as (Hne & Hl & _).
  assert (Hpos : 1 ≤ length (on_endpoint ep h))
    by (destruct (on_endpoint ep h); [done | simpl; lia]).
  assert (Hlen : length (latencies e)
                 = min HEALTH_WINDOW_SIZE (length (on_endpoint ep h))).
  { rewrite Hl. unfold most_recent. rewrite length_drop, length_map.
    unfold HEALTH_WINDOW_SIZE. lia. }
  split; [unfold HEALTH_WINDOW_SIZE in *; lia|]. split; [done|].
  intros Hfew. rewrite Hl. unfold most_recent. rewrite length_map.
  replace (length (on_endpoint ep h) - HEALTH_WINDOW_SIZE) with 0 by lia.
  apply drop_0.
Qed.

Lemma window_never_exceeds_capacity_witness :
  ∃ e, replay sample_history !! "/trades/live" = Some e ∧
       length (latencies e) = 20.
Proof.
  destruct (replay sample_history !! "/trades/live") as [e|] eqn:He;
    [|vm_compute in He; discriminate He].
  exists e. split; [reflexivity|].
  destruct (window_never_exceeds_capacity sample_history (replay sample_history)
              "/trades/live" e (reaches_replay _) He) as (_ & Hlen & _).
  rewrite Hlen. reflexivity.
Defined.

Lemma latest_time_snoc outcome obs o :
  latest_time outcome (obs ++ [o])
  = if bool_decide (obs_success o = outcome) then Some (obs_time o)
    else latest_time outcome obs.
Proof.
  unfold latest_time. rewrite filter_app, map_app, filter_cons, filter_nil.
  case_bool_decide as Hd; destruct (decide _); try done.
  - simpl. by rewrite last_snoc.
  - simpl. by rewrite app_nil_r.
Qed.

(** X2. In every reachable state, [lastSuccess] of an endpoint is the time of
    its latest successful observation and [lastFailure] the time of its
    latest failed one; each is null until such an observation is made. *)
Theorem last_times_follow_latest_outcomes
    (h : list Observation) (hs : gmap string EndpointHealthEntry)
    (ep : string) (e : EndpointHealthEntry) :
  reaches h hs →
  hs !! ep = Some e →
  lastSuccess e = latest_time true (on_endpoint ep h) ∧
  lastFailure e = latest_time false (on_endpoint ep h).
Proof.
  intros Hreach. revert e.
  induction Hreach as [|h hs o Hreach IH]; intros e; [by rewrite lookup_empty|].
  rewrite on_endpoint_snoc. unfold observe, recordEndpointResult.
  destruct (decide (obs_endpoint o = ep)) as [->|Hne].
  - rewrite lookup_insert_eq. intros [= <-]. rewrite !latest_time_snoc.
    pose proof (reaches_entry h hs ep Hreach) as Hinv.
    destruct (hs !! ep) as [e0|] eqn:He0.
    + destruct (IH e0 eq_refl) as [Hs Hf]. simpl.
      destruct (obs_success o); simpl; by rewrite ?Hs, ?Hf.
    + rewrite Hinv. simpl. destruct (obs_success o); by simpl.
  - rewrite lookup_insert_ne by done. rewrite app_nil_r. apply IH.
Qed.

Lemma last_times_follow_latest_outcomes_witness :
  ∃ e, replay sample_history !! "/trades/live" = Some e ∧
       lastSuccess e = Some "t" ∧ lastFailure e = Some "t0".
Proof.
  destruct (replay sample_history !! "/trades/live") as [e|] eqn:He;
    [|vm_compute in He; discriminate He].
  exists e. split; [reflexivity|].
  destruct (last_times_follow_latest_outcomes sample_history
              (replay sample_history) "/trades/live" e (reaches_replay _) He)
    as [Hs Hf].
  rewrite Hs, Hf. split; reflexivity.
Defined.

(** X3. Recording an observation leaves every other endpoint's entry as it
    was, and observations of two different endpoints can be recorded in
    either order with the same resulting map. *)
Theorem observations_of_distinct_endpoints_commute
    (hs : gmap string EndpointHealthEntry) (o1 o2 : Observation) :
  obs_endpoint o1 ≠ obs_endpoint o2 →
  observe hs o1 !! obs_endpoint o2 = hs !! obs_endpoint o2 ∧
  observe (observe hs o1) o2 = observe (observe hs o2) o1.
Proof.
  intros Hne. unfold observe, recordEndpointResult. split.
  - by rewrite lookup_insert_ne.
  - rewrite !lookup_insert_ne by done. by apply insert_insert_ne.
Qed.

Lemma observations_of_distinct_endpoints_commute_witness :
  let o2 := {| obs_endpoint := "/trades/live"; obs_success := true;
               obs_latencyMs := 7; obs_time := "t1" |} in
  observe (observe ∅ one_failure) o2 = observe (observe ∅ o2) one_failure.
Proof.
  intros o2.
  apply (observations_of_distinct_endpoints_commute ∅ one_failure o2).
  vm_compute. congruence.
Defined.

Lemma snapshot_loop_total (l : list (string * EndpointHealthEntry)) acc :
  acc_totalEndpoints (foldl snapshot_step acc l)
  = acc_totalEndpoints acc + length l.
Proof.
  revert acc. induction l as [|kv l IH]; intros acc; simpl; [lia|].
  rewrite IH. simpl. lia.
Qed.

Lemma snapshot_loop_degraded (l : list (string * EndpointHealthEntry)) acc :
  acc_degradedCount (foldl snapshot_step acc l)
  = acc_degradedCount acc + length (filter is_degraded l).
Proof.
  revert acc. induction l as [|kv l IH]; intros acc; simpl; [lia|].
  rewrite IH, filter_cons. unfold is_degraded at 2. simpl.
  destruct (decide _) as [->|Hn]; simpl; [lia|].
  destruct (status_of_rate (successRate kv.2)); [lia | done | lia].
Qed.

Lemma healthy_or_degraded (l : list (string * EndpointHealthEntry)) :
  length (filter is_healthy l) + length (filter is_degraded l) ≤ length l.
Proof.
  induction l as [|kv l IH]; [done|].
  rewrite !filter_cons. unfold is_healthy at 1, is_degraded at 1.
  destruct (decide (status _ = healthy)) as [Hh|], (decide (status _ = degraded));
    simpl; try lia.
  congruence.
Qed.

(** X4. The aggregate fields of a snapshot: totalEndpoints is the number of
    endpoints in the map, healthyEndpoints and degradedEndpoints count the
    entries of each status and together never exceed the total, vpsReachable
    holds exactly when at least one endpoint is healthy, and the snapshot of
    the empty map reports nothing reachable, zero endpoints and zero
    latency. *)
Theorem snapshot_aggregates_count_the_map
    (iso : string) (hs : gmap string EndpointHealthEntry) :
  let snap := getHealthSnapshot iso hs in
  totalEndpoints snap = size hs ∧
  healthyEndpoints snap = length (filter is_healthy (map_to_list hs)) ∧
  degradedEndpoints snap = length (filter is_degraded (map_to_list hs)) ∧
  healthyEndpoints snap + degradedEndpoints snap ≤ totalEndpoints snap ∧
  (vpsReachable snap = true ↔ 0 < healthyEndpoints snap) ∧
  lastChecked snap = iso ∧
  getHealthSnapshot iso ∅
  = {| vpsReachable := false; totalEndpoints := 0; healthyEndpoints := 0;
       degradedEndpoints := 0; avgOverallLatencyMs := 0; endpoints := ∅;
       lastChecked := iso |}.
Proof.
  unfold getHealthSnapshot; simpl.
  rewrite snapshot_loop_total, snapshot_loop_healthy, snapshot_loop_degraded.
  simpl. rewrite length_map_to_list.
  split; [done|]. split; [done|]. split; [done|].
  split; [rewrite <- (length_map_to_list hs); apply healthy_or_degraded|].
  split; [apply Nat.ltb_lt|]. split; [done|].
  by rewrite map_to_list_empty.
Qed.

Lemma rate_between_0_and_1 (sc total : nat) :
  sc ≤ total →
  (0 <= inject_Z (Z.of_nat sc) / inject_Z (Z.of_nat total))%Q ∧
  (inject_Z (Z.of_nat sc) / inject_Z (Z.of_nat total) <= 1)%Q.
Proof.
  intros Hle. destruct (Z.of_nat total) as [|p|p] eqn:Hp; [| |lia].
  - unfold Qle, Qdiv, Qmult, Qinv; simpl. lia.
  - unfold Qle, Qdiv, Qmult, Qinv; simpl. lia.
Qed.

Lemma successRate_bounds e : (0 <= successRate e)%Q ∧ (successRate e <= 1)%Q.
Proof.
  unfold successRate.
  destruct (Nat.ltb 0 (successCount e + failureCount e)); [|done].
  apply rate_between_0_and_1. lia.
Qed.

(** X5. The success rate a snapshot reports for an endpoint is a whole
    percentage between 0 and 100, whatever the counters of the entry. *)
Theorem reported_success_rate_is_a_percentage (e : EndpointHealthEntry) :
  (0 <= rep_successRate (report e) <= 100)%Z.
Proof.
  destruct (successRate_bounds e) as [H0 H1]. unfold report; simpl.
  destruct (DoubleFacts.RN_between (successRate e) 1 H0 H1 eq_refl)
    as [Hr0 Hr1].
  assert (Hp0 : (0 <= Double.RN (successRate e) * 100)%Q).
  { apply Qmult_le_0_compat; [done | by compute]. }
  assert (Hp1 : (Double.RN (successRate e) * 100 <= inject_Z 100)%Q).
  { change (inject_Z 100) with (1 * 100)%Q. by apply Qmult_le_compat_r. }
  destruct (DoubleFacts.RN_between _ 100 Hp0 Hp1 eq_refl) as [Hm0 Hm1].
  fold (Double.mul (Double.RN (successRate e)) 100) in Hm0, Hm1.
  unfold Math_round. split.
  - change 0%Z with (Qfloor (0 + (1 # 2))). apply Qfloor_resp_le.
    apply Qplus_le_compat; [done | apply Qle_refl].
  - change 100%Z with (Qfloor (inject_Z 100 + (1 # 2))). apply Qfloor_resp_le.
    apply Qplus_le_compat; [done | apply Qle_refl].
Qed.

End HealthMore.

(** ** Edge function: verifier, fan-out, merge, relay, sessions *)

Module EdgeMore.
Import Js Edge EdgeFacts.

Lemma substring_all s : String.substring 0 (String.length s) s = s.
Proof. induction s as [|c s IH]; simpl; [done | by rewrite IH]. Qed.

Lemma strip_bearer token :
  replace_first "Bearer " EmptyString ("Bearer " +:+ token) = token.
Proof.
  unfold replace_first.
  assert (Hi : String.index 0 "Bearer " ("Bearer " +:+ token) = Some 0).
  { pose proof (prefix_app "Bearer " token) as Hp.
    change ("Bearer " +:+ token)
      with (String "B" ("earer " +:+ token)) in Hp |- *.
    cbn [String.index]. by rewrite Hp. }
  rewrite Hi.
  change ("Bearer " +:+ token)
    with (String "B" (String "e" (String "a" (String "r" (String "e"
            (String "r" (String " " token))))))).
  cbn [String.substring String.length Nat.add Nat.sub].
  rewrite Nat.sub_0_r.
  change (EmptyString +:+ EmptyString +:+
          String.substring 0 (String.length token) token)
    with (String.substring 0 (String.length token) token).
  apply substring_all.
Qed.

(** X6. A header that is absent or does not start with the bearer prefix is
    refused by the credential verifier on the spot: the result is invalid
    with the message "Missing or invalid Authorization header", and the
    identity provider is not asked. *)
Theorem verifier_refuses_malformed_header_unasked
    (env : Env) (authHeader : string) (w : World) :
  authHeader = EmptyString ∨ startsWith authHeader "Bearer " = false →
  verifySupabaseJWT env authHeader w
  = (inr (auth_failure "Missing or invalid Authorization header"), w).
Proof.
  intros Hbad. unfold verifySupabaseJWT.
  destruct Hbad as [->|Hp]; [done|]. rewrite Hp.
  by rewrite orb_true_r.
Qed.

Lemma verifier_refuses_malformed_header_unasked_witness :
  verifySupabaseJWT (Samples.sample_env "k" Samples.unreachable_upstream)
    "Basic dXNlcjpwYXNz" Samples.cold_start
  = (inr (auth_failure "Missing or invalid Authorization header"),
     Samples.cold_start).
Proof.
  apply verifier_refuses_malformed_header_unasked. right. reflexivity.
Defined.

(** X7. For a header made of the bearer prefix and a token, the verifier
    first builds its client of the identity provider.  With the provider's
    address or anonymous key unset that throws, and the credential is refused
    with the message of the throw, the provider unasked.  With both set, the
    verifier asks the provider about exactly that token, once, and waits for
    its answer; a verified identity then has a user id and a non-empty role
    ("authenticated" when the provider names none) and no error, and a failed
    verification carries an error and no identity. *)
Theorem verifier_asks_about_the_bearer_token
    (env : Env) (token : string) (w : World) :
  let url := SUPABASE_URL (config env) in
  let key := SUPABASE_ANON_KEY (config env) in
  (url = EmptyString →
   verifySupabaseJWT env ("Bearer " +:+ token) w
   = (inr (auth_failure "supabaseUrl is required."), w)) ∧
  (url ≠ EmptyString → key = EmptyString →
   verifySupabaseJWT env ("Bearer " +:+ token) w
   = (inr (auth_failure "supabaseKey is required."), w)) ∧
  (url ≠ EmptyString → key ≠ EmptyString →
   ∃ a,
     verifySupabaseJWT env ("Bearer " +:+ token) w
     = (inr a, {| healthState := healthState w;
                  now := now w + Z.max 0 (auth_getUser env token).2;
                  trace := trace w ++ [EffGetUser token];
                  session_events := session_events w |}) ∧
     (valid a = true →
      ∃ uid r, userId a = Some uid ∧ role a = Some r ∧ r ≠ EmptyString ∧
               error a = None ∧
               ∃ mail given,
                 (auth_getUser env token).1 = GotUser uid mail given ∧
                 email a = mail) ∧
     (valid a = false →
      userId a = None ∧ email a = None ∧ role a = None ∧
      is_Some (error a))).
Proof.
  intros url key. unfold verifySupabaseJWT.
  assert (Hp : startsWith ("Bearer " +:+ token) "Bearer " = true)
    by apply prefix_app.
  rewrite Hp, strip_bearer. simpl negb. cbv iota.
  unfold createClient. fold url key.
  split; [|split].
  - intros ->. reflexivity.
  - intros Hu ->. apply String.eqb_neq in Hu. by rewrite Hu.
  - intros Hu Hk. apply String.eqb_neq in Hu, Hk. rewrite Hu, Hk.
    unfold bind, emit, elapse, ret. simpl.
    eexists. split; [reflexivity|].
    destruct (auth_getUser env token).1 as [uid mail given| m | | [e|]];
      simpl; split; try done; try (intros _; by eauto).
    intros _. exists uid, (opt_str_or given "authenticated").
    repeat split; [|by eauto].
    unfold opt_str_or, str_or. destruct given as [g|]; [|done].
    destruct (String.eqb_spec g EmptyString); [done | done].
Qed.

Lemma verifier_asks_about_the_bearer_token_witness :
  (∃ a,
     verifySupabaseJWT (Samples.sample_env "k" Samples.unreachable_upstream)
       "Bearer browser-token" Samples.cold_start
     = (inr a, {| healthState := ∅; now := 1700000000128;
                  trace := [EffGetUser "browser-token"];
                  session_events := [] |})) ∧
  verifySupabaseJWT Samples.no_provider_env "Bearer browser-token"
    Samples.cold_start
  = (inr (auth_failure "supabaseUrl is required."), Samples.cold_start).
Proof.
  split.
  - destruct (proj2 (proj2 (verifier_asks_about_the_bearer_token
                              (Samples.sample_env "k"
                                 Samples.unreachable_upstream)
                              "browser-token" Samples.cold_start)))
      as (a & Ha & _); [discriminate | discriminate |].
    exists a. exact Ha.
  - apply (proj1 (verifier_asks_about_the_bearer_token
                    Samples.no_provider_env "browser-token"
                    Samples.cold_start)).
    reflexivity.
Defined.

(** *** The fan-out *)

Lemma observed_count_record iso ep b lat hs ep' :
  Health.observed_count (Health.recordEndpointResult iso ep b lat hs !! ep')
  = Health.observed_count (hs !! ep') + (if decide (ep = ep') then 1 else 0).
Proof.
  unfold Health.recordEndpointResult.
  destruct (decide (ep = ep')) as [<-|Hne].
  - rewrite lookup_insert_eq.
    destruct (hs !! ep) as [e|]; destruct b; simpl; lia.
  - rewrite lookup_insert_ne by done. lia.
Qed.

Lemma after_calls_world env start jwt a eps w :
  let w' := foldl (fun w ep => after_call env start jwt a ep w) w eps in
  trace w' = trace w ++ map (upstream_call env jwt a) eps ∧
  now w' = now w ∧
  session_events w' = session_events w ∧
  ∀ ep, Health.observed_count (healthState w' !! ep)
        = Health.observed_count (healthState w !! ep)
          + length (filter (fun x => x = ep) eps).
Proof.
  revert w. induction eps as [|e eps IH]; intros w; simpl.
  - rewrite app_nil_r. repeat split; intros; simpl; lia.
  - destruct (IH (after_call env start jwt a e w)) as (Ht & Hn & Hs & Hc).
    repeat split; [| done | done |].
    { rewrite Ht. unfold after_call at 1. cbn [trace].
      by rewrite <- app_assoc. }
    intros ep. rewrite Hc. unfold after_call. cbn [healthState].
    rewrite observed_count_record, filter_cons.
    destruct (decide (e = ep)); simpl; lia.
Qed.

Lemma occurrences_NoDup (l : list string) (x : string) :
  NoDup l →
  length (filter (fun y => y = x) l) = if bool_decide (x ∈ l) then 1 else 0.
Proof.
  induction 1 as [|y l Hy Hnd IH]; [done|].
  rewrite filter_cons. destruct (decide (y = x)) as [->|Hne].
  - simpl. rewrite IH. rewrite (bool_decide_eq_false_2 _ Hy).
    by rewrite bool_decide_eq_true_2 by left.
  - rewrite IH. case_bool_decide as Hin.
    + by rewrite bool_decide_eq_true_2 by by right.
    + rewrite bool_decide_eq_false_2; [done|].
      by intros [->|?]%elem_of_cons.
Qed.

Lemma aggregate_paths_distinct : NoDup AGGREGATE_ENDPOINTS.
Proof.
  unfold AGGREGATE_ENDPOINTS.
  repeat (apply NoDup_cons; split;
          [intros Hin; repeat (apply elem_of_cons in Hin as [Hin|Hin];
                               [discriminate|]);
           by apply elem_of_nil in Hin|]).
  apply NoDup_nil_2.
Qed.

Lemma fan_out_calls_each_aggregate_path_once_aux env start jwt a w :
  ∃ rs w',
    fan_out env start jwt a AGGREGATE_ENDPOINTS w = (inr rs, w') ∧
    map r_endpoint rs = AGGREGATE_ENDPOINTS ∧
    trace w' = trace w ++ map (upstream_call env jwt a) AGGREGATE_ENDPOINTS ∧
    now w' = now w ∧
    session_events w' = session_events w ∧
    ∀ ep, Health.observed_count (healthState w' !! ep)
          = Health.observed_count (healthState w !! ep)
            + (if bool_decide (ep ∈ AGGREGATE_ENDPOINTS) then 1 else 0).
Proof.
  destruct (fan_out_absorbs env start jwt a AGGREGATE_ENDPOINTS w)
    as (rs & w' & Hfo & Hm & Hw & _).
  pose proof (after_calls_world env start jwt a AGGREGATE_ENDPOINTS w) as Hworld.
  cbv zeta in Hworld. rewrite <- Hw in Hworld.
  destruct Hworld as (Ht & Hn & Hs & Hc).
  exists rs, w'. do 5 (split; [done|]).
  intros ep. rewrite Hc. f_equal.
  apply occurrences_NoDup, aggregate_paths_distinct.
Qed.



(** X8. The fan-out of an aggregation makes exactly one upstream call per
    aggregate path, in the order of the list, each to the base address
    followed by the path and each carrying the internal token as a bearer
    credential; no call raises, the five results come back in the same
    order, every aggregate path gains exactly one health observation and no
    other path gains any, and neither the clock reading taken at dispatch
    nor the session table is touched. *)
Theorem fan_out_calls_each_aggregate_path_once
    (env : Env) (start : Z) (jwt : string) (a : AuthResult) (w : World) :
  ∃ rs w',
    fan_out env start jwt a AGGREGATE_ENDPOINTS w = (inr rs, w') ∧
    map r_endpoint rs = AGGREGATE_ENDPOINTS ∧
    trace w' = trace w ++ map (upstream_call env jwt a) AGGREGATE_ENDPOINTS ∧
    Forall (fun e => ∃ ep, ep ∈ AGGREGATE_ENDPOINTS ∧
                      e = EffFetch (VPS_METRICS_ENDPOINT (config env) +:+ ep)
                            [ ("Content-Type", "application/json");
                              ("Authorization", "Bearer " +:+ jwt);
                              ("X-Proxy-User",
                                opt_str_or (email a) "unknown") ])
      (map (upstream_call env jwt a) AGGREGATE_ENDPOINTS) ∧
    now w' = now w ∧
    session_events w' = session_events w ∧
    ∀ ep, Health.observed_count (healthState w' !! ep)
          = Health.observed_count (healthState w !! ep)
            + (if bool_decide (ep ∈ AGGREGATE_ENDPOINTS) then 1 else 0).
Proof.
  destruct (fan_out_absorbs env start jwt a AGGREGATE_ENDPOINTS w)
    as (rs & w' & Hfo & Hm & Hw & _).
  pose proof (after_calls_world env start jwt a AGGREGATE_ENDPOINTS w) as Hworld.
  cbv zeta in Hworld. rewrite <- Hw in Hworld.
  destruct Hworld as (Ht & Hn & Hs & Hc).
  exists rs, w'. do 3 (split; [done|]).
  split.
  { apply Forall_forall. intros e [ep [-> Hin]]%list_elem_of_fmap. by exists ep. }
  do 2 (split; [done|]).
  intros ep. rewrite Hc. f_equal.
  apply occurrences_NoDup, aggregate_paths_distinct.
Qed.

(** *** The aggregation as a whole *)

Lemma bind_inv {A B} (m : M A) (k : A → M B) w y w' :
  bind m k w = (inr y, w') →
  ∃ x w1, m w = (inr x, w1) ∧ k x w1 = (inr y, w').
Proof.
  unfold bind. destruct (m w) as [[e|x] w1]; [discriminate|]. eauto.
Qed.

Ltac invert_rbind H :=
  repeat match type of H with
         | rbind ?r _ = inr _ =>
             let x := fresh "x" in
             let E := fresh "E" in
             destruct r as [?|x] eqn:E; [discriminate H|]; cbn [rbind] in H
         end.


(** What a returning aggregation went through: the token was minted at the
    dispatch time, the fan-out ran from the same world, the settle time is
    the dispatch time plus the slowest call, the payload was merged from the
    results and from the health map as the fan-out left it, and at most one
    session event was dispatched. *)
Lemma aggregate_inv env a sid w p rs total w' :
  fetchAndAggregateMetrics env a sid w = (inr (p, rs, total), w') →
  let settled := (now w + slowest rs)%Z in
  ∃ jwt w1 active,
    createInternalJWT env (js_of (userId a)) (js_of (email a))
      (js_of (role a)) w = (inr jwt, w) ∧
    fan_out env (now w) jwt a AGGREGATE_ENDPOINTS w = (inr rs, w1) ∧
    total = slowest rs ∧
    count_state "active" (find_data rs "/strategies/proving") = inr active ∧
    unified_payload a rs (toISOString env settled) active
      (Health.getHealthSnapshot (toISOString env settled) (healthState w1))
      (slowest rs) = inr p ∧
    healthState w' = healthState w1 ∧
    now w' = settled ∧
    session_events w' = session_events w1 ∧
    ∃ state,
      rbind (get p "systemVerdict") (fun v => get v "state") = inr state ∧
      trace w'
      = trace w1 ++
        (if truthy (JStr sid) && truthy (js_of (userId a)) &&
            getServiceClient env
         then [EffInsert sid (default EmptyString (userId a)) "metrics_fetch"
                 (JObj [ ("systemState", state);
                         ("endpointCount", JNat (length rs));
                         ("successCount",
                           JNat (length (List.filter r_success rs)));
                         ("totalLatencyMs", JInt (slowest rs)) ])]
         else []).
Proof.
  intros H settled. unfold fetchAndAggregateMetrics in H.
  apply bind_inv in H as (t & w0 & Ht & H).
  unfold Date_now, ok in Ht. injection Ht as <- <-.
  apply bind_inv in H as (jwt & w0 & Hjwt & H).
  pose proof (createInternalJWT_world env (js_of (userId a)) (js_of (email a))
                (js_of (role a)) w) as Hw0.
  rewrite Hjwt in Hw0. simpl in Hw0. subst w0.
  apply bind_inv in H as (rs' & w1 & Hfo & H).
  destruct (fan_out_absorbs env (now w) jwt a AGGREGATE_ENDPOINTS w)
    as (rs0 & w1' & Hfo' & _ & Hw1 & _).
  rewrite Hfo in Hfo'. injection Hfo' as <- <-.
  pose proof (after_calls_world env (now w) jwt a AGGREGATE_ENDPOINTS w)
    as Hworld.
  cbv zeta in Hworld. rewrite <- Hw1 in Hworld.
  destruct Hworld as (_ & Hnow1 & _).
  apply bind_inv in H as ([] & w2 & Hset & H).
  unfold set_now, ok in Hset. injection Hset as <-.
  apply bind_inv in H as (t & w3 & Ht & H).
  unfold Date_now, ok in Ht. cbn [now] in Ht. injection Ht as <- <-.
  apply bind_inv in H as (active & w3 & Hact & H).
  unfold lift in Hact. injection Hact as Hact <-.
  apply bind_inv in H as (hs & w3 & Hhs & H).
  unfold get_health, ok in Hhs. cbn [healthState] in Hhs.
  injection Hhs as <- <-.
  apply bind_inv in H as (p' & w3 & Hp & H).
  unfold lift in Hp. injection Hp as Hp <-.
  apply bind_inv in H as ([] & w3 & Hrec & H).
  unfold ret, ok in H. injection H as <- <- <- <-.
  replace (now w + slowest rs' - now w)%Z with (slowest rs') in * by lia.
  exists jwt, w1, active. fold settled in Hp, Hrec |- *.
  do 5 (split; [done|]).
  pose proof Hp as Hshape. unfold unified_payload in Hshape.
  cbv zeta in Hshape. invert_rbind Hshape.
  unfold ok in Hshape. injection Hshape as Hshape.
  assert (Hstate : ∃ state,
             rbind (get p' "systemVerdict") (fun v => get v "state")
             = inr state).
  { rewrite <- Hshape. eexists. reflexivity. }
  destruct Hstate as [state Hstate].
  unfold recordSessionEvent in Hrec. rewrite Hstate in Hrec.
  destruct (truthy (JStr sid)) eqn:Hsid; simpl in Hrec |- *.
  - destruct (truthy (js_of (userId a))) eqn:Huid; simpl in Hrec |- *.
    + unfold bind, lift in Hrec.
      destruct (getServiceClient env); simpl in Hrec;
        unfold ret, emit, ok in Hrec; injection Hrec as <-; simpl;
        repeat split; exists state; (split; [done|]);
        [done | by rewrite app_nil_r].
    + unfold ret, ok in Hrec. injection Hrec as <-. simpl.
      repeat split. exists state. by rewrite app_nil_r.
  - unfold ret, ok in Hrec. injection Hrec as <-. simpl.
    repeat split. exists state. by rewrite app_nil_r.
Qed.

Lemma snapshot_total iso (hs : gmap string Health.EndpointHealthEntry) :
  Health.totalEndpoints (Health.getHealthSnapshot iso hs) = size hs.
Proof.
  unfold Health.getHealthSnapshot; simpl.
  rewrite HealthMore.snapshot_loop_total. simpl.
  by rewrite length_map_to_list.
Qed.





(** X10. The effects of a returning aggregation are exactly the five upstream
    calls, all carrying the one token minted for it, followed by at most one
    insert into the session table.  The insert is dispatched exactly when
    the request names a session, the verified identity has a user id and the
    storage backend is configured; it is an event of type "metrics_fetch"
    for that session and user, whose payload holds the verdict of the
    payload just built, the number of results (five), the number of those
    that succeeded and the total latency. *)
Theorem aggregation_calls_upstream_then_records_once
    (env : Env) (a : AuthResult) (sid : string) (w w' : World)
    (p : JsVal) (rs : list EndpointResult) (total : Z) :
  fetchAndAggregateMetrics env a sid w = (inr (p, rs, total), w') →
  ∃ jwt state,
    createInternalJWT env (js_of (userId a)) (js_of (email a))
      (js_of (role a)) w = (inr jwt, w) ∧
    at_path ["systemVerdict"; "state"] p = Some state ∧
    length rs = 5 ∧
    trace w'
    = trace w ++ map (upstream_call env jwt a) AGGREGATE_ENDPOINTS ++
      (if truthy (JStr sid) && truthy (js_of (userId a)) &&
          getServiceClient env
       then [EffInsert sid (default EmptyString (userId a)) "metrics_fetch"
               (JObj [ ("systemState", state);
                       ("endpointCount", JNat 5);
                       ("successCount",
                         JNat (length (List.filter r_success rs)));
                       ("totalLatencyMs", JInt total) ])]
       else []).
Proof.
  intros H.
  apply aggregate_inv in H as (jwt & w1 & active & Hjwt & Hfo & -> & Hact &
                               Hp & Hh & Hn & Hs & state & Hstate & Ht).
  destruct (fan_out_calls_each_aggregate_path_once_aux env (now w) jwt a w)
    as (rs0 & w0 & Hfo0 & Hm & Ht1 & _ & Hs1 & _).
  rewrite Hfo in Hfo0. injection Hfo0 as <- <-.
  assert (Hlen : length rs = 5).
  { rewrite <- (length_map r_endpoint), Hm. reflexivity. }
  exists jwt, state. split; [done|].
  split.
  { unfold unified_payload in Hp. cbv zeta in Hp. invert_rbind Hp.
    unfold ok in Hp. injection Hp as <-.
    simpl in Hstate. injection Hstate as <-. reflexivity. }
  split; [done|].
  rewrite Ht, Ht1, Hlen, <- app_assoc. reflexivity.
Qed.

Lemma aggregation_calls_upstream_then_records_once_witness :
  ∃ p rs total w',
    fetchAndAggregateMetrics Scenario.live_env Samples.verified "s-1"
      Samples.cold_start = (inr (p, rs, total), w') ∧
    trace w'
    = map (upstream_call Scenario.live_env "e30.e30.mac-k" Samples.verified)
        AGGREGATE_ENDPOINTS ++
      [EffInsert "s-1" "user-1" "metrics_fetch"
         (JObj [ ("systemState", JStr "NOMINAL");
                 ("endpointCount", JNat 5);
                 ("successCount", JNat 4);
                 ("totalLatencyMs", JInt 45) ])].
Proof.
  let r := eval vm_compute in
    (fetchAndAggregateMetrics Scenario.live_env Samples.verified "s-1"
       Samples.cold_start) in
  match r with
  | (inr (?p, ?rs, ?total), ?w') =>
      assert (H : fetchAndAggregateMetrics Scenario.live_env Samples.verified
                    "s-1" Samples.cold_start = (inr (p, rs, total), w'))
        by (vm_compute; reflexivity);
      exists p, rs, total, w'; split; [exact H|];
      destruct (aggregation_calls_upstream_then_records_once _ _ _ _ _ _ _ _ H)
        as (jwt & state & Hjwt & Hst & _ & Ht)
  end.
  vm_compute in Hjwt. injection Hjwt as <-.
  vm_compute in Hst. injection Hst as <-.
  exact Ht.
Defined.

(** *** What a caller without a verified identity can cause *)

Lemma verifier_world env h w a w1 :
  verifySupabaseJWT env h w = (inr a, w1) →
  healthState w1 = healthState w ∧
  session_events w1 = session_events w ∧
  (∀ e, e ∈ trace w1 → e ∈ trace w ∨ ∃ token, e = EffGetUser token).
Proof.
  unfold verifySupabaseJWT.
  destruct (negb (truthy (JStr h)) || negb (startsWith h "Bearer ")).
  - unfold ret, ok. intros [= _ <-]. by eauto.
  - destruct (createClient _ _).
    { unfold ret, ok. intros [= _ <-]. by eauto. }
    unfold bind, emit, elapse, ret, ok. simpl. intros [= _ <-]. simpl.
    repeat split.
    intros e [He|He]%elem_of_app; [by left|].
    apply list_elem_of_singleton in He. eauto.
Qed.

Lemma path_allowed_nonempty path :
  negb (truthy (JStr path)) || negb (path_allowed path) = true →
  path_allowed path = false.
Proof.
  destruct (path_allowed path) eqn:Hp; [|done].
  rewrite orb_false_r. simpl. rewrite negb_involutive.
  intros ->%String.eqb_eq. by vm_compute in Hp.
Qed.

(** X11. A request whose credential does not verify causes nothing beyond
    the question put to the identity provider: on every path of the
    application the router answers, no upstream call is made, no row is
    inserted or selected, and the health map and the session table stay as
    they were.  On the paths that demand a credential the answer is 401,
    except that the legacy relay answers 400 to a path off the whitelist
    before it looks at the credential. *)
Theorem unverified_caller_reaches_nothing
    (env : Env) (req : Request) (w : World) (a : AuthResult) (w1 : World) :
  verifySupabaseJWT env (header req "Authorization") w = (inr a, w1) →
  valid a = false →
  ∃ r w',
    app env req w = (inr r, w') ∧
    (w' = w ∨ w' = w1) ∧
    healthState w' = healthState w ∧
    session_events w' = session_events w ∧
    (∀ e, e ∈ trace w' → e ∈ trace w ∨ ∃ token, e = EffGetUser token) ∧
    (authenticated_path (req_path req) = true →
     res_status r = 401 ∨
     (res_status r = 400 ∧ req_path req = "/metrics-proxy-jwt/proxy" ∧
      path_allowed (query req "path") = false)).
Proof.
  intros Hv Hinv.
  destruct (verifier_world _ _ _ _ _ Hv) as (Hh & Hs & Ht).
  assert (Hsame : ∀ w', w' = w ∨ w' = w1 →
            healthState w' = healthState w ∧
            session_events w' = session_events w ∧
            (∀ e, e ∈ trace w' → e ∈ trace w ∨ ∃ token, e = EffGetUser token)).
  { intros w' [->| ->]; [by eauto | done]. }
  assert (Hgoal : ∃ r w',
            app env req w = (inr r, w') ∧ (w' = w ∨ w' = w1) ∧
            (authenticated_path (req_path req) = true →
             res_status r = 401 ∨
             (res_status r = 400 ∧ req_path req = "/metrics-proxy-jwt/proxy" ∧
              path_allowed (query req "path") = false))).
  { unfold app, bind, authenticated_path.
    destruct (under_v1 (req_path req)) eqn:Hv1.
    - unfold v1_middleware, bind. rewrite Hv, Hinv. simpl.
      eexists _, _. split; [reflexivity|]. split; [by right | by left].
    - destruct (String.eqb_spec (req_path req) "/metrics-proxy-jwt") as [Hp|_].
      { rewrite Hp. eexists _, _. split; [reflexivity|].
        split; [by left | discriminate]. }
      destruct (String.eqb_spec (req_path req) "/metrics-proxy-jwt/health")
        as [Hp|_].
      { rewrite Hp. eexists _, _. split; [reflexivity|].
        split; [by left | discriminate]. }
      destruct (String.eqb_spec (req_path req) "/metrics-proxy-jwt/proxy")
        as [Hp|_].
      { unfold proxy, try_catch, bind.
        destruct (negb (truthy (JStr (query req "path"))) ||
                  negb (path_allowed (query req "path"))) eqn:Hpath.
        - apply path_allowed_nonempty in Hpath.
          eexists _, _. split; [reflexivity|]. split; [by left|].
          intros _. right. by repeat split.
        - rewrite Hv, Hinv. simpl.
          eexists _, _. split; [reflexivity|]. split; [by right | by left]. }
      destruct (String.eqb_spec (req_path req) "/metrics-proxy-jwt/dashboard")
        as [Hp|_].
      { unfold dashboard, try_catch, bind. rewrite Hv, Hinv. simpl.
        eexists _, _. split; [reflexivity|]. split; [by right | by left]. }
      eexists _, _. split; [reflexivity|]. split; [by left | discriminate]. }
  destruct Hgoal as (r & w' & Happ & Hw & Hst).
  exists r, w'. split; [done|]. split; [done|].
  destruct (Hsame w' Hw) as (? & ? & ?). by repeat split.
Qed.

Lemma unverified_caller_reaches_nothing_witness :
  ∃ r,
    app (Samples.sample_env "k" Samples.unreachable_upstream)
      {| req_path := "/metrics-proxy-jwt/v1/sessions/export";
         req_query := [("session_id", "s-1")];
         req_headers := [] |}
      Samples.one_login
    = (inr r, Samples.one_login) ∧
    res_status r = 401.
Proof.
  destruct (unverified_caller_reaches_nothing
              (Samples.sample_env "k" Samples.unreachable_upstream)
              {| req_path := "/metrics-proxy-jwt/v1/sessions/export";
                 req_query := [("session_id", "s-1")];
                 req_headers := [] |}
              Samples.one_login
              (auth_failure "Missing or invalid Authorization header")
              Samples.one_login)
    as (r & w' & Happ & _ & _ & _ & _ & Hst).
  - reflexivity.
  - reflexivity.
  - exists r. split.
    + rewrite Happ. f_equal.
      vm_compute in Happ. by injection Happ as _ <-.
    + destruct (Hst eq_refl) as [H401|(H400 & Hp & _)]; [exact H401|].
      discriminate Hp.
Defined.

(** *** The legacy relay *)

Lemma assoc_set_field k k' v fields :
  assoc k (set_field k' v fields)
  = if String.eqb k k' then Some v else assoc k fields.
Proof.
  induction fields as [|[k0 v0] fields IH]; simpl.
  - by destruct (String.eqb k k').
  - destruct (String.eqb_spec k' k0) as [->|Hne]; simpl.
    + by destruct (String.eqb k k0).
    + rewrite IH. destruct (String.eqb_spec k k0) as [->|_]; [|done].
      destruct (String.eqb_spec k0 k'); [congruence | done].
Qed.

(** Outside 2xx, the statuses that cannot go with a body are 304 and those
    below 200 or above 599. *)
Lemma passable_status st :
  res_ok st = false →
  body_allowed st = negb (Nat.eqb st 304 || Nat.ltb st 200 || Nat.ltb 599 st).
Proof.
  unfold res_ok, body_allowed, null_body_status. intros Hok.
  destruct (Nat.leb_spec 200 st), (Nat.leb_spec st 599),
    (Nat.ltb_spec st 200), (Nat.ltb_spec 599 st); try lia; cbn;
    rewrite ?orb_true_r, ?orb_false_r; try reflexivity.
  destruct (Nat.eqb_spec st 101); [lia|].
  destruct (Nat.eqb_spec st 204).
  { subst. by vm_compute in Hok. }
  destruct (Nat.eqb_spec st 205).
  { subst. by vm_compute in Hok. }
  by destruct (Nat.eqb st 304).
Qed.

(** X12. What the legacy relay does for a verified caller and a whitelisted
    path, once the internal token is minted: it makes exactly one upstream
    call, to the base address followed by the path as given, and leaves the
    health map alone.  An upstream answer outside 2xx is passed on under the
    upstream's own status with the body "VPS request failed", unless that
    status cannot go with a body (304, or one outside 200 to 599): building
    the answer then throws, and the relay answers 500 "Proxy error" as it
    does to a rejected call or to a body that is not JSON.  A JSON answer is
    returned with status 200 and every upstream field but [_proxy]
    unchanged, while [_proxy] always holds the relay's own record and so
    overwrites an upstream field of that name. *)
Theorem legacy_relay_passes_the_upstream_answer_on
    (env : Env) (req : Request) (w w1 : World) (a : AuthResult) (jwt : string) :
  let path := query req "path" in
  let url := VPS_METRICS_ENDPOINT (config env) +:+ path in
  let hdrs := upstream_headers jwt a in
  path_allowed path = true →
  verifySupabaseJWT env (header req "Authorization") w = (inr a, w1) →
  valid a = true →
  VPS_METRICS_ENDPOINT (config env) ≠ EmptyString →
  createInternalJWT env (js_of (userId a)) (js_of (email a)) (js_of (role a)) w1
  = (inr jwt, w1) →
  ∃ r w',
    proxy env req w = (inr r, w') ∧
    trace w' = trace w1 ++ [EffFetch url hdrs] ∧
    healthState w' = healthState w ∧
    session_events w' = session_events w ∧
    match (fetch env url hdrs).1 with
    | FetchThrows e => r = c_json [] (error_body "Proxy error" e) 500
    | FetchResponse st statusText body =>
        if res_ok st then
          match body with
          | None =>
              ∃ e, exn_name e = "SyntaxError" ∧
                   r = c_json [] (error_body "Proxy error" e) 500
          | Some data =>
              res_status r = 200 ∧
              ∃ fields,
                res_body r = JsonBody (JObj fields) ∧
                (∀ k, k ≠ "_proxy" → assoc k fields = assoc k (spread data)) ∧
                assoc "_proxy" fields
                = Some (JObj [ ("source", JStr "vps");
                               ("auth", JStr "jwt");
                               ("user", js_of (email a));
                               ("timestamp", JStr (toISOString env (now w')));
                               ("path", JStr path) ])
          end
        else if Nat.eqb st 304 || Nat.ltb st 200 || Nat.ltb 599 st then
          ∃ e, r = c_json [] (error_body "Proxy error" e) 500
        else
          r = c_json []
                (JObj [ ("error", JStr "VPS request failed");
                        ("status", JNat st);
                        ("statusText", JStr statusText) ]) st
    end.
Proof.
  intros path url hdrs Hallowed Hv Hvalid Hvps Hjwt.
  destruct (verifier_world _ _ _ _ _ Hv) as (Hh & Hs & _).
  assert (Hpath : negb (truthy (JStr path)) || negb (path_allowed path) = false).
  { rewrite Hallowed, orb_false_r. simpl. rewrite negb_involutive.
    apply String.eqb_neq. intros Hp. rewrite Hp in Hallowed.
    by vm_compute in Hallowed. }
  unfold proxy, try_catch, bind. fold path. rewrite Hpath, Hv, Hvalid.
  cbn [negb]. rewrite (vps_configured env Hvps), Hjwt.
  fold url hdrs. unfold emit, elapse, raise, ret, Date_now, ok. cbn [fst snd].
  destruct (fetch env url hdrs).1 as [e|st statusText body].
  - cbn. eexists _, _. split; [reflexivity|]. by repeat split.
  - destruct (res_ok st) eqn:Hok.
    + destruct body as [data|]; cbn; (eexists _, _; split; [reflexivity|]);
        cbn; (do 3 (split; [done|]));
        [|exists json_syntax_error; split; reflexivity].
      split; [done|]. eexists. split; [reflexivity|]. split.
      * intros k Hk. rewrite assoc_set_field.
        by destruct (String.eqb_spec k "_proxy").
      * by rewrite assoc_set_field.
    + rewrite (passable_status st Hok).
      destruct (Nat.eqb st 304 || Nat.ltb st 200 || Nat.ltb 599 st); cbn;
        (eexists _, _; split; [reflexivity|]); cbn;
        (do 3 (split; [done|])); first [done | eexists; reflexivity].
Qed.

Lemma legacy_relay_passes_the_upstream_answer_on_witness :
  ∃ r w',
    proxy Scenario.live_env
      (Samples.browser_request "/metrics-proxy-jwt/proxy"
         [("path", "/brokers/status")])
      Samples.cold_start = (inr r, w') ∧
    res_status r = 200 ∧
    healthState w' = ∅.
Proof.
  destruct (legacy_relay_passes_the_upstream_answer_on Scenario.live_env
              (Samples.browser_request "/metrics-proxy-jwt/proxy"
                 [("path", "/brokers/status")])
              Samples.cold_start
              {| healthState := ∅; now := 1700000000128;
                 trace := [EffGetUser "browser-token"];
                 session_events := [] |}
              Samples.verified "e30.e30.mac-k")
    as (r & w' & Hr & _ & Hh & _ & Hans).
  - reflexivity.
  - reflexivity.
  - reflexivity.
  - discriminate.
  - reflexivity.
  - exists r, w'. split; [exact Hr|]. split; [|exact Hh].
    vm_compute in Hans. exact (proj1 Hans).
Defined.

(** *** Session export: refusals and foreign sessions *)

(** X13. The export handler refuses in a fixed order and asks the session
    table nothing until both checks pass: without a session id it answers
    400, whether or not storage is configured; with one but without a
    configured storage backend it answers 503; only then is the one query
    made, and a failure of that query is answered 500 "Export failed" with
    the backend's message as detail. *)
Theorem export_refuses_before_it_queries
    (env : Env) (a : AuthResult) (req : Request) (w : World) :
  let sid := query req "session_id" in
  (sid = EmptyString →
   v1_sessions_export env a req w
   = (inr (c_json []
             (JObj [ ("error", JStr "session_id query parameter is required") ])
             400), w)) ∧
  (sid ≠ EmptyString → getServiceClient env = false →
   v1_sessions_export env a req w = (inr (c_json [] no_session_store 503), w)) ∧
  (sid ≠ EmptyString → getServiceClient env = true →
   ∃ r w',
     v1_sessions_export env a req w = (inr r, w') ∧
     trace w' = trace w ++ [EffSelect] ∧
     session_events w' = session_events w ∧
     healthState w' = healthState w ∧
     (∀ msg, select_error env = Some msg →
             r = c_json [] (JObj [ ("error", JStr "Export failed");
                                   ("detail", JStr msg) ]) 500) ∧
     (select_error env = None → res_status r = 200)).
Proof.
  intros sid. unfold v1_sessions_export, try_catch, bind. fold sid.
  split; [|split].
  - intros ->. reflexivity.
  - intros Hsid Hc.
    assert (Ht : negb (truthy (JStr sid)) = false).
    { simpl. rewrite negb_involutive. by apply String.eqb_neq. }
    by rewrite Ht, Hc.
  - intros Hsid Hc.
    assert (Ht : negb (truthy (JStr sid)) = false).
    { simpl. rewrite negb_involutive. by apply String.eqb_neq. }
    rewrite Ht, Hc. cbn [negb]. unfold emit, ret, ok.
    destruct (select_error env) as [msg|].
    + eexists _, _. split; [reflexivity|]. cbn.
      repeat split; [by intros ? [= <-] | done].
    + cbv zeta.
      destruct (String.eqb (str_or (query req "format") "json") "csv");
        [|destruct (String.eqb (str_or (query req "format") "json") "text")];
        (eexists _, _; split; [reflexivity|]); cbn; by repeat split.
Qed.

Lemma filter_none {A} (P : A → Prop) `{∀ x, Decision (P x)} (l : list A) :
  (∀ x, x ∈ l → ¬ P x) → filter P l = [].
Proof.
  induction l as [|x l IH]; intros Hl; [done|].
  rewrite filter_cons. destruct (decide (P x)) as [Hx|_].
  - exfalso. apply (Hl x); [by left | done].
  - apply IH. intros y Hy. apply Hl. by right.
Qed.

(** X14. Asking for the export of a session in which the caller has no
    event, because the session is unknown or because all its events belong
    to other users, is answered exactly as an empty session is: 200 with the
    bare header row in CSV, the line "No events found" in text, and a count
    of zero with an empty list in JSON.  No event of another user is ever
    part of the answer. *)
Theorem export_of_a_foreign_session_is_empty
    (env : Env) (a : AuthResult) (req : Request) (w : World) :
  let sid := query req "session_id" in
  let format := str_or (query req "format") "json" in
  sid ≠ EmptyString →
  getServiceClient env = true →
  select_error env = None →
  (∀ e, e ∈ session_events w → Some (user_id e) = userId a →
        session_id e ≠ sid) →
  ∃ r w',
    v1_sessions_export env a req w = (inr r, w') ∧
    res_status r = 200 ∧
    res_body r
    = if String.eqb format "csv" then TextBody csv_header
      else if String.eqb format "text" then TextBody "No events found"
      else JsonBody
             (JObj [ ("sessionId", JStr sid);
                     ("eventCount", JNat 0);
                     ("events", JArr []);
                     ("exportedAt", JStr (toISOString env (now w)));
                     ("user", js_of (email a)) ]).
Proof.
  intros sid format Hsid Hc Hsel Hforeign.
  assert (Ht : negb (truthy (JStr sid)) = false).
  { simpl. rewrite negb_involutive. by apply String.eqb_neq. }
  assert (Hnone : export_query (session_events w) (userId a) sid = []).
  { unfold export_query.
    replace (filter _ (session_events w)) with (@nil SessionEvent);
      [reflexivity|].
    symmetry. apply filter_none.
    intros e He [Hu Hs]. by apply (Hforeign e He Hu). }
  unfold v1_sessions_export, try_catch, bind. fold sid format.
  rewrite Ht, Hc, Hsel. cbn [negb]. unfold emit, ok. cbv zeta.
  cbn [session_events]. rewrite Hnone.
  destruct (String.eqb format "csv"); [|destruct (String.eqb format "text")];
    (eexists _, _; split; [reflexivity|]); split; done.
Qed.

Lemma export_of_a_foreign_session_is_empty_witness :
  ∃ r w',
    v1_sessions_export (Samples.sample_env "k" Samples.unreachable_upstream)
      {| valid := true; userId := Some "user-2";
         email := Some "guest@example.com"; role := Some "authenticated";
         error := None |}
      (Samples.browser_request "/metrics-proxy-jwt/v1/sessions/export"
         [("session_id", "s-1"); ("format", "text")])
      Samples.one_login = (inr r, w') ∧
    res_status r = 200 ∧
    res_body r = TextBody "No events found".
Proof.
  apply (export_of_a_foreign_session_is_empty
           (Samples.sample_env "k" Samples.unreachable_upstream)
           {| valid := true; userId := Some "user-2";
              email := Some "guest@example.com"; role := Some "authenticated";
              error := None |}
           (Samples.browser_request "/metrics-proxy-jwt/v1/sessions/export"
              [("session_id", "s-1"); ("format", "text")])
           Samples.one_login).
  - discriminate.
  - reflexivity.
  - reflexivity.
  - intros e He Hu. apply list_elem_of_singleton in He. subst e.
    discriminate Hu.
Defined.

(** *** Session listing: the page *)

#[local] Existing Instance newer_first_dec.

Lemma events_query_page table uid sid o l page :
  events_query table uid sid (Some o) (Some l) = inr page →
  (0 <= o)%Z ∧ (1 <= l)%Z ∧
  page = take (Z.to_nat l)
           (drop (Z.to_nat o)
              (merge_sort newer_first
                 (filter (fun e => Some (user_id e) = uid ∧
                                   (truthy (JStr sid) = true →
                                    session_id e = sid)) table))).
Proof.
  unfold events_query, range.
  destruct (Z.leb_spec 0 o); [|done].
  destruct (Z.leb_spec o (o + l - 1)); [|done].
  simpl. intros [= <-]. repeat split; [done | lia |].
  by replace (o + l - 1 - o + 1)%Z with l by lia.
Qed.

(** X15. A listing of session events never holds more than 200 events,
    whatever limit the request asks for; the events of the page are stored
    events of the caller, newest first, and of the requested session when
    one is named; [hasMore] is true exactly when the page is as long as the
    limit in force.  The handler reads the table and changes nothing. *)
Theorem listing_page_is_capped_and_own
    (env : Env) (a : AuthResult) (req : Request) (w : World) :
  ∃ r w',
    v1_sessions_events env a req w = (inr r, w') ∧
    session_events w' = session_events w ∧
    healthState w' = healthState w ∧
    (res_status r = 200 →
     ∃ page,
       at_path ["events"] (Samples.json_of r)
       = Some (JArr (map (event_json env) page)) ∧
       length page ≤ 200 ∧
       StronglySorted newer_first page ∧
       (∀ e, e ∈ page →
             e ∈ session_events w ∧ Some (user_id e) = userId a ∧
             (query req "session_id" ≠ EmptyString →
              session_id e = query req "session_id")) ∧
       at_path ["pagination"; "hasMore"] (Samples.json_of r)
       = Some (JBool (bool_decide (Some (Z.of_nat (length page))
                                   = page_limit env req)))).
Proof.
  unfold v1_sessions_events, try_catch, bind.
  destruct (getServiceClient env); cbn [negb].
  2: { eexists _, _. split; [reflexivity|]. by repeat split. }
  unfold emit, ok. cbn [session_events now].
  destruct (select_error env) as [msg|].
  { eexists _, _. split; [reflexivity|]. by repeat split. }
  destruct (events_query (session_events w) (userId a)
              (query req "session_id")
              (parseInt env (str_or (query req "offset") "0"))
              (page_limit env req)) as [msg|page] eqn:Hq.
  { eexists _, _. split; [reflexivity|]. by repeat split. }
  eexists _, _. split; [reflexivity|]. do 2 (split; [done|]).
  intros _. exists page. split; [reflexivity|].
  pose proof (events_query_sorted _ _ _ _ _ _ Hq) as Hsorted.
  destruct (parseInt env (str_or (query req "offset") "0")) as [o|] eqn:Ho;
    [|by unfold events_query, range in Hq].
  destruct (page_limit env req) as [l|] eqn:Hl;
    [|by unfold events_query, range in Hq].
  apply events_query_page in Hq as (_ & Hl1 & ->).
  split.
  { rewrite length_take.
    unfold page_limit in Hl.
    destruct (parseInt env (str_or (query req "limit") "50")) as [n|];
      [|done].
    injection Hl as <-. lia. }
  split; [done|]. split; [|reflexivity].
  intros e He.
  apply subseteq_take, subseteq_drop in He.
  rewrite merge_sort_Permutation in He.
  apply list_elem_of_filter in He as [[Hu Hs] He].
  split; [done|]. split; [done|].
  intros Hsid. apply Hs. simpl. by apply negb_true_iff, String.eqb_neq.
Qed.

(** X16. Consecutive pages tile the listing: for an offset that is not
    negative and a limit of at least one, the page at the offset followed by
    the page one limit further is the page at the offset with twice the
    limit, so the range arithmetic of the handler neither repeats nor skips
    an event. *)
Theorem consecutive_pages_tile_the_listing
    (table : list SessionEvent) (uid : option string) (sid : string)
    (o l : Z) :
  (0 <= o)%Z → (1 <= l)%Z →
  ∃ page1 page2,
    events_query table uid sid (Some o) (Some l) = inr page1 ∧
    events_query table uid sid (Some (o + l)%Z) (Some l) = inr page2 ∧
    events_query table uid sid (Some o) (Some (2 * l)%Z)
    = inr (page1 ++ page2).
Proof.
  intros Ho Hl. unfold events_query, range.
  destruct (Z.leb_spec 0 o); [|lia].
  destruct (Z.leb_spec o (o + l - 1)); [|lia].
  destruct (Z.leb_spec 0 (o + l)); [|lia].
  destruct (Z.leb_spec (o + l) (o + l + l - 1)); [|lia].
  destruct (Z.leb_spec o (o + 2 * l - 1)); [|lia].
  simpl. eexists _, _. split; [reflexivity|]. split; [reflexivity|].
  f_equal.
  replace (o + l - 1 - o + 1)%Z with l by lia.
  replace (o + l + l - 1 - (o + l) + 1)%Z with l by lia.
  replace (o + 2 * l - 1 - o + 1)%Z with (l + l)%Z by lia.
  rewrite !Z2Nat.inj_add by lia.
  rewrite <- drop_drop. by rewrite take_take_drop.
Qed.

Lemma consecutive_pages_tile_the_listing_witness :
  ∃ page1 page2,
    events_query [Samples.login_event] (Some "user-1") "s-1"
      (Some 0%Z) (Some 1%Z) = inr page1 ∧
    events_query [Samples.login_event] (Some "user-1") "s-1"
      (Some (0 + 1)%Z) (Some 1%Z) = inr page2 ∧
    events_query [Samples.login_event] (Some "user-1") "s-1"
      (Some 0%Z) (Some (2 * 1)%Z) = inr (page1 ++ page2).
Proof.
  apply (consecutive_pages_tile_the_listing [Samples.login_event]
           (Some "user-1") "s-1" 0 1); lia.
Defined.

(** *** The detailed health endpoint *)

Lemma assoc_of_entries {A} (f : A → JsVal) (l : list (string * A)) k :
  assoc k (map (fun kv => (kv.1, f kv.2)) l)
  = f <$> (list_to_map l : gmap string A) !! k.
Proof.
  induction l as [|[k' v] l IH]; simpl; [by rewrite lookup_empty|].
  destruct (String.eqb_spec k k') as [->|Hne].
  - by rewrite lookup_insert_eq.
  - by rewrite lookup_insert_ne.
Qed.

(** X17. The detailed health endpoint only reads: it always answers 200 and
    leaves the world as it found it.  Its status is "ok" exactly when some
    endpoint of the health map is healthy and "degraded" otherwise, so a
    freshly started function reports "degraded"; the endpoint count is the
    size of the map, and each endpoint of the map, and no other, is listed
    with its report. *)
Theorem detailed_health_reads_the_map
    (env : Env) (a : AuthResult) (req : Request) (w : World) :
  ∃ p,
    v1_health_detailed env a req w = (inr (c_json [] p 200), w) ∧
    (at_path ["status"] p = Some (JStr "ok") ↔
     ∃ ep e, healthState w !! ep = Some e ∧
             Health.status (Health.report e) = Health.healthy) ∧
    (at_path ["status"] p ≠ Some (JStr "ok") →
     at_path ["status"] p = Some (JStr "degraded")) ∧
    (healthState w = ∅ → at_path ["status"] p = Some (JStr "degraded")) ∧
    at_path ["totalEndpoints"] p = Some (JNat (size (healthState w))) ∧
    ∀ ep, at_path ["endpoints"; ep] p
          = (fun e => report_json (Health.report e)) <$> healthState w !! ep.
Proof.
  unfold v1_health_detailed, try_catch, bind, Date_now, get_health, ret, ok.
  eexists. split; [reflexivity|].
  pose proof (HealthFacts.vpsReachable_iff (toISOString env (now w))
                (healthState w)) as Hreach.
  cbn [at_path assoc String.eqb Ascii.eqb Bool.eqb].
  rewrite snapshot_total.
  split; [|split; [|split; [|split]]].
  - rewrite <- Hreach.
    destruct (Health.vpsReachable _); split; (done || discriminate).
  - destruct (Health.vpsReachable _); [by intros [] | done].
  - intros Hempty.
    destruct (Health.vpsReachable _); [|done].
    destruct (proj1 Hreach eq_refl) as (ep & e & He & _).
    rewrite Hempty, lookup_empty in He. discriminate.
  - reflexivity.
  - intros ep. rewrite assoc_of_entries, list_to_map_to_list.
    rewrite HealthFacts.snapshot_endpoints.
    by destruct (healthState w !! ep).
Qed.

Lemma detailed_health_reads_the_map_witness :
  ∃ p,
    v1_health_detailed (Samples.sample_env "k" Samples.unreachable_upstream)
      Samples.verified
      (Samples.browser_request "/metrics-proxy-jwt/v1/health/detailed" [])
      Samples.after_mixed_history
    = (inr (c_json [] p 200), Samples.after_mixed_history) ∧
    at_path ["status"] p = Some (JStr "degraded") ∧
    at_path ["endpoints"; "/trades/live"] p
    = Some (JObj [ ("status", JStr "degraded");
                   ("lastSuccess", JStr "t1");
                   ("lastFailure", JStr "t2");
                   ("successRate", JInt 57);
                   ("avgLatencyMs", JInt 83) ]).
Proof.
  destruct (detailed_health_reads_the_map
              (Samples.sample_env "k" Samples.unreachable_upstream)
              Samples.verified
              (Samples.browser_request "/metrics-proxy-jwt/v1/health/detailed"
                 [])
              Samples.after_mixed_history)
    as (p & Hp & _ & _ & _ & _ & Hep).
  exists p. split; [exact Hp|]. split.
  - clear -Hp. vm_compute in Hp. injection Hp as <-. reflexivity.
  - rewrite Hep. vm_compute. reflexivity.
Defined.

(** *** The merge: counting strategies and shaping positions *)

Lemma filterM_total (tag : string) (l : list JsVal) :
  Forall (fun s => nullish s = false) l →
  ∃ kept,
    filterM (fun s => rbind (get s "state") (fun st => ok (is_str tag st))) l
    = inr kept ∧
    sublist kept l ∧
    Forall (fun s => get s "state" = inr (JStr tag)) kept ∧
    (∀ s, s ∈ l → get s "state" = inr (JStr tag) → s ∈ kept).
Proof.
  induction 1 as [|s l Hs _ IH]; simpl.
  - exists []. repeat split; [constructor | constructor | by intros ? ?%elem_of_nil].
  - destruct IH as (kept & -> & Hsub & Hall & Hin).
    assert (Hget : ∃ v, get s "state" = inr v)
      by (destruct s; simpl in *; (discriminate || eauto)).
    destruct Hget as [v Hv]. rewrite Hv. simpl.
    destruct (is_str tag v) eqn:Htag.
    + assert (v = JStr tag) as ->.
      { destruct v; try discriminate. simpl in Htag.
        by apply String.eqb_eq in Htag as ->. }
      exists (s :: kept). repeat split; [by constructor | by constructor |].
      intros s' [->|Hs']%elem_of_cons Hst; [by left | right; by apply Hin].
    + exists kept. repeat split; [by constructor | done |].
      intros s' [->|Hs']%elem_of_cons Hst; [|by apply Hin].
      rewrite Hv in Hst. injection Hst as ->.
      simpl in Htag. by rewrite String.eqb_refl in Htag.
Qed.

Lemma filterM_null (tag : string) (l : list JsVal) :
  Exists (fun s => nullish s = true) l →
  ∃ e,
    filterM (fun s => rbind (get s "state") (fun st => ok (is_str tag st))) l
    = inl e ∧ exn_name e = "TypeError".
Proof.
  induction 1 as [s l Hs|s l _ IH]; simpl.
  - destruct s; try discriminate; simpl; eauto.
  - destruct (get s "state") as [e|v] eqn:Hs; simpl.
    + destruct s; simpl in Hs; try discriminate; injection Hs as <-; eauto.
    + destruct IH as (e & -> & Hn). simpl. eauto.
Qed.

(** X18. Counting the strategies in a given state: when the proving data
    has no strategies (the field is missing or null) the count is zero;
    when the field is an array of objects the count is the number of those
    whose state is the tag, so it never exceeds the length of the array;
    when the field is present but is not an array, or the array holds a
    null, the count raises a TypeError, which the optional chaining does not
    guard against. *)
Theorem strategies_are_counted_by_state
    (tag : string) (proving strategies : JsVal) :
  get proving "strategies" = inr strategies →
  (nullish strategies = true → count_state tag proving = inr 0) ∧
  (∀ l, strategies = JArr l → Forall (fun s => nullish s = false) l →
        ∃ kept,
          count_state tag proving = inr (length kept) ∧
          sublist kept l ∧
          length kept ≤ length l ∧
          Forall (fun s => get s "state" = inr (JStr tag)) kept ∧
          (∀ s, s ∈ l → get s "state" = inr (JStr tag) → s ∈ kept)) ∧
  (∀ l, strategies = JArr l → Exists (fun s => nullish s = true) l →
        ∃ e, count_state tag proving = inl e ∧ exn_name e = "TypeError") ∧
  (nullish strategies = false → (∀ l, strategies ≠ JArr l) →
   ∃ e, count_state tag proving = inl e ∧ exn_name e = "TypeError").
Proof.
  intros Hget. unfold count_state. rewrite Hget. simpl.
  split; [by intros ->|]. split; [|split].
  - intros l -> Hall. simpl.
    destruct (filterM_total tag l Hall) as (kept & -> & Hsub & Hk & Hin).
    exists kept. simpl. repeat split; try done.
    by apply sublist_length.
  - intros l -> Hex. simpl.
    destruct (filterM_null tag l Hex) as (e & -> & He). simpl. eauto.
  - intros Hn Hnot.
    destruct strategies; try discriminate; simpl; eauto.
    by destruct (Hnot l).
Qed.

Lemma strategies_are_counted_by_state_witness :
  count_state "active" (JObj [("strategies", JNull)]) = inr 0.
Proof.
  exact (proj1 (strategies_are_counted_by_state "active"
                  (JObj [("strategies", JNull)]) JNull eq_refl) eq_refl).
Defined.

Lemma get_of_object (p : JsVal) (k : string) :
  nullish p = false → ∃ v, get p k = inr v.
Proof. destruct p; simpl; (discriminate || eauto). Qed.

Lemma position_of_object (p : JsVal) (i : nat) :
  nullish p = false →
  ∃ q, position_of p i = inr q ∧
       at_path ["id"] q = Some (JStr ("p" +:+ pretty (i + 1))) ∧
       at_path ["market"] q = Some (JStr "FUT") ∧
       (∀ size quantity,
          get p "size" = inr size → get p "quantity" = inr quantity →
          at_path ["size"] q = Some (if truthy size then size else quantity)).
Proof.
  intros Hp. unfold position_of, get_either.
  repeat match goal with
         | |- context [get p ?k] =>
             let v := fresh "v" in
             let E := fresh "E" in
             destruct (get_of_object p k Hp) as [v E]; rewrite E; clear E
         end.
  simpl. eexists. split; [reflexivity|]. split; [reflexivity|].
  split; [reflexivity|]. intros size quantity [= <-] [= <-]. reflexivity.
Qed.

Lemma mapiM_positions (n : nat) (l : list JsVal) :
  Forall (fun p => nullish p = false) l →
  ∃ l', mapiM position_of n l = inr l' ∧
        length l' = length l ∧
        ∀ i p, l !! i = Some p →
               ∃ q, l' !! i = Some q ∧ position_of p (n + i) = inr q.
Proof.
  intros Hall. revert n.
  induction Hall as [|p l Hp _ IH]; intros n; simpl.
  - exists []. by repeat split.
  - destruct (position_of_object p n Hp) as (q & Hq & _).
    destruct (IH (S n)) as (l' & Hl' & Hlen & Hi).
    rewrite Hq, Hl'. simpl. exists (q :: l').
    split; [done|]. split; [simpl; lia|].
    intros [|i] p'; simpl.
    + intros [= <-]. exists q. by rewrite Nat.add_0_r.
    + intros Hp'. destruct (Hi i p' Hp') as (q' & ? & Hq').
      exists q'. split; [done|]. by rewrite <- Nat.add_succ_comm.
Qed.

(** X19. The positions of the payload follow the live trades one for one:
    an array of position objects is mapped to an array of the same length
    in the same order, the position at index i getting the id "p" followed
    by i + 1 and the market "FUT"; its size is the trade's [size] when that
    is truthy and otherwise its [quantity], so a size of zero falls back to
    the quantity. *)
Theorem positions_follow_the_live_trades
    (trades : JsVal) (l : list JsVal) :
  get_or trades "positions" (JArr []) = inr (JArr l) →
  Forall (fun p => nullish p = false) l →
  ∃ l',
    positions_of trades = inr (JArr l') ∧
    length l' = length l ∧
    ∀ i p, l !! i = Some p →
      ∃ q, l' !! i = Some q ∧
           at_path ["id"] q = Some (JStr ("p" +:+ pretty (i + 1))) ∧
           at_path ["market"] q = Some (JStr "FUT") ∧
           (∀ size quantity,
              get p "size" = inr size → get p "quantity" = inr quantity →
              at_path ["size"] q
              = Some (if truthy size then size else quantity)).
Proof.
  intros Hget Hall. unfold positions_of. rewrite Hget. simpl.
  destruct (mapiM_positions 0 l Hall) as (l' & -> & Hlen & Hi).
  exists l'. split; [done|]. split; [done|].
  intros i p Hp. destruct (Hi i p Hp) as (q & Hq & Hpos).
  exists q. split; [done|].
  destruct (position_of_object p i) as (q' & Hq' & Hid & Hm & Hs).
  { rewrite Forall_forall in Hall. apply Hall.
    by apply list_elem_of_lookup_2 in Hp. }
  simpl in Hpos. rewrite Hq' in Hpos. injection Hpos as <-. done.
Qed.

Lemma positions_follow_the_live_trades_witness :
  ∃ l',
    positions_of
      (JObj [("positions",
               JArr [JObj [("symbol", JStr "ES"); ("size", JNat 0);
                           ("quantity", JNat 2)]])])
    = inr (JArr l') ∧
    length l' = 1 ∧
    ∃ q, l' !! 0 = Some q ∧ at_path ["size"] q = Some (JNat 2).
Proof.
  destruct (positions_follow_the_live_trades
              (JObj [("positions",
                       JArr [JObj [("symbol", JStr "ES"); ("size", JNat 0);
                                   ("quantity", JNat 2)]])])
              [JObj [("symbol", JStr "ES"); ("size", JNat 0);
                     ("quantity", JNat 2)]])
    as (l' & Hl' & Hlen & Hi).
  - reflexivity.
  - by repeat constructor.
  - exists l'. split; [exact Hl'|]. split; [exact Hlen|].
    destruct (Hi 0 _ eq_refl) as (q & Hq & _ & _ & Hs).
    exists q. split; [exact Hq|].
    exact (Hs (JNat 0) (JNat 2) eq_refl eq_refl).
Defined.

(** *** The CSV escape *)

(** X20. The CSV escape of the export loses nothing: two payload texts with
    the same escaped form are the same text, and a text without a double
    quote is left as it is. *)
Theorem csv_escape_is_injective (s1 s2 : string) :
  (double_quotes s1 = double_quotes s2 → s1 = s2) ∧
  (double_quotes s1 = s1 ↔
   ∀ c, c ∈ list_ascii_of_string s1 → c ≠ "034"%char).
Proof.
  split.
  - revert s2. induction s1 as [|c1 s1 IH]; intros [|c2 s2]; simpl.
    + done.
    + by destruct (Ascii.eqb c2 "034").
    + by destruct (Ascii.eqb c1 "034").
    + destruct (Ascii.eqb_spec c1 "034") as [->|H1],
               (Ascii.eqb_spec c2 "034") as [->|H2].
      * intros [= H]. by rewrite (IH _ H).
      * intros [= <- H]. done.
      * intros [= -> H]. done.
      * intros [= -> H]. by rewrite (IH _ H).
  - induction s1 as [|c s IH]; simpl.
    + split; [by intros _ c ?%elem_of_nil | done].
    + destruct (Ascii.eqb_spec c "034") as [->|Hc].
      * split.
        -- intros [= H]. exfalso.
           assert (Hlen : String.length (String "034" (double_quotes s))
                          = String.length s) by by rewrite H.
           assert (Hge : ∀ t, String.length t ≤ String.length (double_quotes t)).
           { induction t as [|x t IHt]; simpl; [lia|].
             destruct (Ascii.eqb x "034"); simpl; lia. }
           specialize (Hge s). simpl in Hlen. lia.
        -- intros Hno. exfalso. apply (Hno "034"%char); [by left | done].
      * split.
        -- intros [= H] x [->|Hx]%elem_of_cons; [done|].
           by apply IH.
        -- intros Hno. f_equal. apply IH. intros x Hx. apply Hno. by right.
Qed.

End EdgeMore.

(** ** The gatekeeper: what reaches the metrics service *)

Module GatekeeperMore.
Import Gatekeeper GatekeeperFacts.

(** X21. A request for anything but the health probe reaches the metrics
    service only if it is no preflight and carries a bearer header whose
    token parses and is fully valid under the secret on file; it is then
    forwarded to the path it asked for, with the subject and email of the
    token as its two attribution headers.  Without a secret file, without a
    header, or with a token that does not parse, nothing is forwarded. *)
Theorem protected_request_is_forwarded_only_with_a_valid_token
    (env : Env) (m : Method) (uri uri' : string)
    (authorization : option string) (attribution : list (string * string)) :
  uri ≠ "/health" →
  nginx env m uri authorization = Forwarded uri' attribution →
  m ≠ OPTIONS ∧ uri' = uri ∧
  ∃ secret authz t,
    secret_file env = Some secret ∧
    authorization = Some authz ∧
    String.prefix "Bearer " authz = true ∧
    parse env (replace_all "Bearer " EmptyString authz) = Some t ∧
    fully_valid env secret t ∧
    attribution
    = [ ("X-Auth-User-Id", default EmptyString (sub (claims t)));
        ("X-Auth-User-Email", default EmptyString (email (claims t))) ].
Proof.
  intros Huri Hn.
  assert (Hfw : m ≠ OPTIONS ∧ uri' = uri ∧
                Nat.leb 200 (status_code (validate_jwt env authorization))
                && Nat.leb (status_code (validate_jwt env authorization)) 299
                = true ∧
                attribution = headers (validate_jwt env authorization)).
  { by apply nginx_forwards_on_200. }
  destruct Hfw as (Hm & -> & Hok & ->).
  split; [done|]. split; [done|].
  destruct authorization as [authz|]; [|discriminate Hok].
  destruct (String.eqb authz EmptyString) eqn:He.
  { unfold validate_jwt in Hok. rewrite He in Hok. discriminate Hok. }
  destruct (String.prefix "Bearer " authz) eqn:Hp.
  2: { unfold validate_jwt in Hok. rewrite He, Hp in Hok. discriminate Hok. }
  destruct (secret_file env) as [secret|] eqn:Hs.
  2: { unfold validate_jwt, get_secret in Hok. rewrite He, Hp, Hs in Hok.
       discriminate Hok. }
  destruct (parse env (replace_all "Bearer " EmptyString authz)) as [t|]
    eqn:Hparse.
  2: { unfold validate_jwt, get_secret, jwt_decode in Hok.
       rewrite He, Hp, Hs, Hparse in Hok. discriminate Hok. }
  pose proof (validate_jwt_cases env authz secret t Hs Hp Hparse) as Hcases.
  cbv zeta in Hcases.
  destruct Hcases as [(Hfv & _ & _ & _ & Hr)|Hrest].
  - exists secret, authz, t. rewrite Hr.
    do 4 (split; [done|]). split; [exact Hfv | reflexivity].
  - exfalso.
    assert (H401 : ∃ reason,
               validate_jwt env (Some authz) = HTTPException 401 reason).
    { repeat (destruct Hrest as [Hrest|Hrest]); destruct_and?;
        repeat match goal with
               | H : ∃ _, _ |- _ => destruct H
               end; eauto. }
    destruct H401 as [reason H401]. rewrite H401 in Hok. discriminate Hok.
Qed.

Lemma protected_request_is_forwarded_only_with_a_valid_token_witness :
  ∃ secret authz t,
    secret_file Samples.sample_gatekeeper = Some secret ∧
    Some "Bearer for-this-boundary" = Some authz ∧
    String.prefix "Bearer " authz = true ∧
    parse Samples.sample_gatekeeper (replace_all "Bearer " EmptyString authz)
    = Some t ∧
    fully_valid Samples.sample_gatekeeper secret t ∧
    [ ("X-Auth-User-Id", "user-1"); ("X-Auth-User-Email", "ops@example.com") ]
    = [ ("X-Auth-User-Id", default EmptyString (sub (claims t)));
        ("X-Auth-User-Email", default EmptyString (email (claims t))) ].
Proof.
  apply (protected_request_is_forwarded_only_with_a_valid_token
           Samples.sample_gatekeeper GET "/brokers/status" "/brokers/status"
           (Some "Bearer for-this-boundary")
           [ ("X-Auth-User-Id", "user-1");
             ("X-Auth-User-Email", "ops@example.com") ]).
  - discriminate.
  - reflexivity.
Defined.

(** The validator answers 200, 401 or, without its secret file, 500. *)
Lemma validate_jwt_codes (env : Env) (authorization : option string) :
  status_code (validate_jwt env authorization) ∈ [200; 401; 500].
Proof.
  unfold validate_jwt, get_secret.
  destruct authorization as [authz|]; [|set_solver].
  destruct (String.eqb authz EmptyString); [set_solver|].
  destruct (negb (String.prefix "Bearer " authz)); [set_solver|].
  destruct (secret_file env); [|set_solver].
  destruct (jwt_decode _ _ _ _ _) as [[]|]; set_solver.
Qed.

(** X22. What nginx does without asking the validator.  The location the
    validator sits behind is internal: asked for from outside it is not
    found.  A request for /health is passed on whatever its method and
    header, unless the rate limit turns it away with 503.  An OPTIONS
    request for any other path is answered 204 and not passed on, over the
    rate limit or not; any other request over the limit is turned away with
    503.  When the secret file is missing the gate fails closed: a request
    within the limit is refused, with 401 when the header is absent or
    malformed and with 500 when it is a bearer header, so nothing but the
    health probe is passed on.  Every refusal is one of 204, 401, 404, 500
    and 503. *)
Theorem probe_and_preflight_skip_the_validator
    (env : Env) (m : Method) (authorization : option string) :
  nginx env m "/_validate_jwt" authorization = Refused 404 ∧
  nginx env m "/health" authorization
  = (if throttled env then Refused 503 else Forwarded "/health" []) ∧
  (∀ uri, uri ≠ "/health" → uri ≠ "/_validate_jwt" →
     nginx env OPTIONS uri authorization = Refused 204 ∧
     (m ≠ OPTIONS → throttled env = true →
      nginx env m uri authorization = Refused 503) ∧
     (m ≠ OPTIONS → throttled env = false → secret_file env = None →
      nginx env m uri authorization
      = Refused (match authorization with
                 | Some authz =>
                     if String.prefix "Bearer " authz then 500 else 401
                 | None => 401
                 end))) ∧
  (∀ uri uri' attribution,
     secret_file env = None →
     nginx env m uri authorization = Forwarded uri' attribution →
     uri = "/health" ∧ uri' = "/health" ∧ attribution = []) ∧
  (∀ uri code,
     nginx env m uri authorization = Refused code →
     code ∈ [204; 401; 404; 500; 503]).
Proof.
  split; [done|]. split; [done|]. split; [|split].
  - intros uri Huri Hint. unfold nginx.
    rewrite (proj2 (String.eqb_neq _ _) Huri),
      (proj2 (String.eqb_neq _ _) Hint).
    split; [done|]. split.
    + intros Hm ->. by destruct m.
    + intros Hm -> Hs. unfold validate_jwt, get_secret. rewrite Hs.
      destruct m; [| |done];
        (destruct authorization as [authz|]; [|done];
         destruct (String.eqb_spec authz EmptyString) as [->|_]; [done|];
         by destruct (String.prefix "Bearer " authz)).
  - intros uri uri' attribution Hs.
    destruct (String.eqb_spec uri "/health") as [->|Huri].
    { unfold nginx. simpl. destruct (throttled env); [done|].
      by intros [= <- <-]. }
    intros (_ & _ & Hok & _)%nginx_forwards_on_200; [|done].
    exfalso. revert Hok. unfold validate_jwt, get_secret. rewrite Hs.
    destruct authorization as [authz|]; [|done].
    destruct (String.eqb authz EmptyString); [done|].
    by destruct (negb (String.prefix "Bearer " authz)).
  - intros uri code. unfold nginx.
    pose proof (validate_jwt_codes env authorization) as Hc.
    destruct (String.eqb uri "/_validate_jwt"); [intros [= <-]; set_solver|].
    destruct (String.eqb uri "/health").
    { destruct (throttled env); [intros [= <-]; set_solver | done]. }
    destruct m; [| |intros [= <-]; set_solver];
      (destruct (throttled env); [intros [= <-]; set_solver|];
       destruct (Nat.leb 200 _ && Nat.leb _ 299); [done|];
       destruct (Nat.eqb_spec (status_code (validate_jwt env authorization))
                   401) as [->|Hne]; simpl;
       [intros [= <-]; set_solver|];
       destruct (Nat.eqb_spec (status_code (validate_jwt env authorization))
                   403) as [H403|_]; simpl;
       [rewrite H403 in Hc; set_solver | intros [= <-]; set_solver]).
Qed.

Lemma probe_and_preflight_skip_the_validator_witness :
  nginx Samples.sample_gatekeeper GET "/health" None
  = Forwarded "/health" [] ∧
  nginx Samples.busy_gatekeeper GET "/brokers/status"
    (Some "Bearer for-this-boundary") = Refused 503 ∧
  nginx Samples.busy_gatekeeper OPTIONS "/brokers/status" None = Refused 204 ∧
  nginx Samples.sample_gatekeeper GET "/_validate_jwt"
    (Some "Bearer for-this-boundary") = Refused 404.
Proof.
  destruct (probe_and_preflight_skip_the_validator Samples.sample_gatekeeper
              GET None) as (_ & Hhealth & _).
  destruct (probe_and_preflight_skip_the_validator Samples.busy_gatekeeper
              GET (Some "Bearer for-this-boundary")) as (_ & _ & Hbusy & _).
  destruct (Hbusy "/brokers/status") as (_ & Hlimit & _);
    [discriminate | discriminate |].
  destruct (probe_and_preflight_skip_the_validator Samples.busy_gatekeeper
              GET None) as (_ & _ & Hpre & _).
  destruct (Hpre "/brokers/status") as (Hoptions & _);
    [discriminate | discriminate |].
  destruct (probe_and_preflight_skip_the_validator Samples.sample_gatekeeper
              GET (Some "Bearer for-this-boundary")) as (Hinternal & _).
  split; [exact Hhealth|]. split; [|split; [exact Hoptions | exact Hinternal]].
  apply Hlimit; [discriminate | reflexivity].
Defined.

Lemma no_space_no_bearer (s : string) :
  (∀ c, c ∈ list_ascii_of_string s → c ≠ " "%char) →
  String.prefix "Bearer " s = false.
Proof.
  intros Hno. destruct (String.prefix "Bearer " s) eqn:Hp; [|done].
  exfalso. apply EdgeFacts.prefix_inv in Hp as [rest ->].
  apply (Hno " "%char); [|done].
  change ("Bearer " +:+ rest)
    with (String "B" (String "e" (String "a" (String "r" (String "e"
            (String "r" (String " " rest))))))).
  simpl. do 6 right. by left.
Qed.

Lemma replace_all_fuel_no_space (fuel : nat) (s : string) :
  (∀ c, c ∈ list_ascii_of_string s → c ≠ " "%char) →
  replace_all_fuel fuel "Bearer " EmptyString s = s.
Proof.
  revert s. induction fuel as [|fuel IH]; intros s Hno; [done|].
  cbn [replace_all_fuel]. rewrite (no_space_no_bearer s Hno).
  destruct s as [|c s]; [done|]. f_equal. apply IH.
  intros x Hx. apply Hno. simpl. by right.
Qed.

Lemma replace_all_fuel_step (fuel : nat) (p r s : string) :
  String.prefix p s = true →
  replace_all_fuel (S fuel) p r s
  = r +:+ replace_all_fuel fuel p r
            (String.substring (String.length p)
               (String.length s - String.length p) s).
Proof. intros Hp. cbn [replace_all_fuel]. by rewrite Hp. Qed.

Lemma substring_after_prefix (p t : string) :
  String.substring (String.length p)
    (String.length (p +:+ t) - String.length p) (p +:+ t) = t.
Proof.
  induction p as [|c p IH].
  - change (EmptyString +:+ t) with t. simpl.
    rewrite Nat.sub_0_r. apply EdgeMore.substring_all.
  - change (String c p +:+ t) with (String c (p +:+ t)). simpl. exact IH.
Qed.

Lemma replace_all_bearer (token : string) :
  (∀ c, c ∈ list_ascii_of_string token → c ≠ " "%char) →
  replace_all "Bearer " EmptyString ("Bearer " +:+ token) = token.
Proof.
  intros Hno. unfold replace_all.
  assert (Hlen : String.length ("Bearer " +:+ token)
                 = S (6 + String.length token)) by reflexivity.
  rewrite Hlen at 1.
  rewrite replace_all_fuel_step by apply EdgeFacts.prefix_app.
  rewrite substring_after_prefix.
  change (EmptyString +:+ ?x) with x.
  by apply replace_all_fuel_no_space.
Qed.

(** X23. The validator recovers the token from the header the relay sends:
    for a token without a space, as every compact JWT is, stripping
    "Bearer " from the header made of that prefix and the token gives back
    the token, although the validator replaces every occurrence and not
    only the leading one; on such a header it agrees with the verifier of
    the relay, which replaces the first occurrence only. *)
Theorem validator_recovers_the_bearer_token (token : string) :
  (∀ c, c ∈ list_ascii_of_string token → c ≠ " "%char) →
  replace_all "Bearer " EmptyString ("Bearer " +:+ token) = token ∧
  Js.replace_first "Bearer " EmptyString ("Bearer " +:+ token) = token.
Proof.
  intros Hno. split; [|apply EdgeMore.strip_bearer].
  unfold replace_all.
  assert (Hlen : String.length ("Bearer " +:+ token)
                 = S (6 + String.length token)) by reflexivity.
  rewrite Hlen at 1.
  rewrite replace_all_fuel_step by apply EdgeFacts.prefix_app.
  rewrite substring_after_prefix.
  change (EmptyString +:+ ?x) with x.
  by apply replace_all_fuel_no_space.
Qed.

Lemma validator_recovers_the_bearer_token_witness :
  replace_all "Bearer " EmptyString ("Bearer " +:+ "e30.e30.mac-k")
  = "e30.e30.mac-k" ∧
  Js.replace_first "Bearer " EmptyString ("Bearer " +:+ "e30.e30.mac-k")
  = "e30.e30.mac-k".
Proof.
  apply validator_recovers_the_bearer_token.
  intros c Hc. simpl in Hc.
  repeat (apply elem_of_cons in Hc as [->|Hc]; [discriminate|]).
  by apply elem_of_nil in Hc.
Defined.

End GatekeeperMore.

(** ** From the relay to the gatekeeper *)

Module HandoffFacts.
Import Js Edge Handoff.

Lemma decode_minted (uid mail : option string) (r : JsVal) (iat exp : Z) :
  decode_claims [ ("sub", js_of uid); ("email", js_of mail);
                  ("roles", JArr [r]);
                  ("aud", JStr "vps-metrics-api");
                  ("iat", JInt iat);
                  ("iss", JStr "supabase-metrics-proxy");
                  ("exp", JInt exp) ]
  = {| Gatekeeper.sub := uid;
       Gatekeeper.email := mail;
       Gatekeeper.iss := Some Gatekeeper.EXPECTED_ISSUER;
       Gatekeeper.aud := Some (Gatekeeper.AudOne Gatekeeper.EXPECTED_AUDIENCE);
       Gatekeeper.iat := Some iat;
       Gatekeeper.nbf := None;
       Gatekeeper.exp := Some exp |}.
Proof.
  unfold decode_claims, claim_string, claim_date, claim_audience. simpl.
  rewrite !Z.quot_1_r. by destruct uid, mail.
Qed.

(** A token that was minted is its signed part, a dot and the signature the
    primitive returned. *)
Lemma mint_inv env uid mail r w jwt :
  let input :=
    base64url_json env (JObj [ ("alg", JStr "HS256") ]) +:+ "." +:+
    base64url_json env
      (JObj [ ("sub", uid); ("email", mail); ("roles", JArr [r]);
              ("aud", JStr "vps-metrics-api");
              ("iat", JInt (epoch (now w)));
              ("iss", JStr "supabase-metrics-proxy");
              ("exp", JInt (epoch (now w + clock_step env) + 60)) ]) in
  createInternalJWT env uid mail r w = (inr jwt, w) →
  ∃ sig,
    hs256_sign env (INTERNAL_JWT_SECRET (config env)) input = inr sig ∧
    jwt = input +:+ "." +:+ sig.
Proof.
  intros input.
  unfold createInternalJWT, bind, Date_now, lift, sign, ok, rbind.
  cbn [fst snd].
  change (signing_input env
            (internal_jwt (now w) (now w + clock_step env) uid mail r))
    with input.
  destruct (hs256_sign env _ _) as [e|sig]; [discriminate|].
  intros [= <-]. by exists sig.
Qed.

(** X24. The two ends of the internal hop agree.  The relay mints a token
    for a verified caller: iat is its clock in whole seconds, exp a second
    reading of that clock plus sixty.  The token is sent as the relay sends
    it to a gatekeeper that holds the same secret, computes the same MAC and
    reads the serialised header and claims set back as they were written.
    Then a request within the rate limit, for a path other than the health
    probe and the internal validation location, is passed on while the
    gatekeeper's clock reads from iat up to, but not including, exp, with
    the user id and email of the caller as attribution.  From exp on the
    same token is refused with "Token expired", and a gatekeeper whose clock
    is behind iat refuses it as not yet valid. *)
Theorem minted_token_opens_the_gate_until_it_expires
    (eenv : Env) (genv : Gatekeeper.Env) (a : AuthResult) (w : World)
    (jwt : string) (m : Gatekeeper.Method) (uri : string) :
  let secret := INTERNAL_JWT_SECRET (config eenv) in
  let iat := epoch (now w) in
  let exp := (epoch (now w + clock_step eenv) + 60)%Z in
  let header := [ ("alg", JStr "HS256") ] in
  let claims :=
    [ ("sub", js_of (userId a)); ("email", js_of (email a));
      ("roles", JArr [js_of (role a)]);
      ("aud", JStr "vps-metrics-api");
      ("iat", JInt iat);
      ("iss", JStr "supabase-metrics-proxy");
      ("exp", JInt exp) ] in
  let input := base64url_json eenv (JObj header) +:+ "." +:+
               base64url_json eenv (JObj claims) in
  let sent := assoc "Authorization" (upstream_headers jwt a) in
  createInternalJWT eenv (js_of (userId a)) (js_of (email a))
    (js_of (role a)) w = (inr jwt, w) →
  (∀ c, c ∈ list_ascii_of_string jwt → c ≠ " "%char) →
  Gatekeeper.secret_file genv = Some secret →
  (∀ sig, hs256_sign eenv secret input = inr sig →
          Gatekeeper.hs256 genv secret input = sig ∧
          Gatekeeper.parse genv (input +:+ "." +:+ sig)
          = Some (received input header claims sig)) →
  uri ≠ "/health" →
  uri ≠ "/_validate_jwt" →
  m ≠ Gatekeeper.OPTIONS →
  Gatekeeper.throttled genv = false →
  let t := Gatekeeper.now genv in
  ((iat <= t < exp)%Z →
   Gatekeeper.nginx genv m uri sent
   = Gatekeeper.Forwarded uri
       [ ("X-Auth-User-Id", default EmptyString (userId a));
         ("X-Auth-User-Email", default EmptyString (email a)) ]) ∧
  ((iat <= t)%Z → (exp <= t)%Z →
   Gatekeeper.validate_jwt genv sent
   = Gatekeeper.HTTPException 401 "Token expired" ∧
   Gatekeeper.nginx genv m uri sent = Gatekeeper.Refused 401) ∧
  ((t < iat)%Z →
   Gatekeeper.validate_jwt genv sent
   = Gatekeeper.HTTPException 401
       "Invalid token: The token is not yet valid (iat)" ∧
   Gatekeeper.nginx genv m uri sent = Gatekeeper.Refused 401).
Proof.
  intros secret iat exp header claims input sent Hmint Hspace Hsecret Hpair
    Huri Hint Hm Hlimit t.
  destruct (mint_inv _ _ _ _ _ _ Hmint) as (sig & Hsig & Hjwt).
  destruct (Hpair sig Hsig) as (Hmac & Hparse).
  assert (Hsent : sent = Some ("Bearer " +:+ jwt)) by reflexivity.
  assert (Hv : Gatekeeper.validate_jwt genv sent
               = match Gatekeeper.validate_claims t Gatekeeper.EXPECTED_ISSUER
                         Gatekeeper.EXPECTED_AUDIENCE
                         (decode_claims claims) with
                 | inr _ =>
                     {| Gatekeeper.status_code := 200;
                        Gatekeeper.detail := None;
                        Gatekeeper.headers :=
                          [ ("X-Auth-User-Id",
                              default EmptyString (userId a));
                            ("X-Auth-User-Email",
                              default EmptyString (email a)) ] |}
                 | inl Gatekeeper.ExpiredSignatureError =>
                     Gatekeeper.HTTPException 401 "Token expired"
                 | inl Gatekeeper.InvalidIssuerError =>
                     Gatekeeper.HTTPException 401 "Invalid issuer"
                 | inl Gatekeeper.InvalidAudienceError =>
                     Gatekeeper.HTTPException 401 "Invalid audience"
                 | inl e =>
                     Gatekeeper.HTTPException 401
                       ("Invalid token: " +:+ Gatekeeper.message e)
                 end).
  { rewrite Hsent. unfold Gatekeeper.validate_jwt.
    rewrite (GatekeeperFacts.bearer_nonempty _ (EdgeFacts.prefix_app _ _)).
    rewrite EdgeFacts.prefix_app. cbn [negb].
    rewrite (GatekeeperMore.replace_all_bearer jwt Hspace).
    unfold Gatekeeper.get_secret. rewrite Hsecret.
    unfold Gatekeeper.jwt_decode.
    change (jwt = input +:+ "." +:+ sig) in Hjwt. rewrite Hjwt, Hparse.
    cbn [received Gatekeeper.alg Gatekeeper.signature Gatekeeper.signing_input
         Gatekeeper.claims].
    rewrite Hmac.
    change (default EmptyString (claim_string header "alg")) with "HS256".
    rewrite !String.eqb_refl.
    unfold Gatekeeper.check, Gatekeeper.and_then at 1 2.
    fold t.
    destruct (Gatekeeper.validate_claims t _ _ _) as [[]|[]] eqn:Hc;
      unfold Gatekeeper.and_then; try reflexivity.
    subst claims. rewrite decode_minted. reflexivity. }
  assert (Hn : Gatekeeper.nginx genv m uri sent
               = let r := Gatekeeper.validate_jwt genv sent in
                 if Nat.leb 200 (Gatekeeper.status_code r)
                    && Nat.leb (Gatekeeper.status_code r) 299
                 then Gatekeeper.Forwarded uri (Gatekeeper.headers r)
                 else if Nat.eqb (Gatekeeper.status_code r) 401
                         || Nat.eqb (Gatekeeper.status_code r) 403
                 then Gatekeeper.Refused (Gatekeeper.status_code r)
                 else Gatekeeper.Refused 500).
  { unfold Gatekeeper.nginx.
    rewrite (proj2 (String.eqb_neq _ _) Huri),
      (proj2 (String.eqb_neq _ _) Hint), Hlimit.
    by destruct m. }
  rewrite Hn, Hv. subst claims. rewrite decode_minted.
  unfold Gatekeeper.validate_claims, Gatekeeper.check, Gatekeeper.and_then,
    Gatekeeper.reached, Gatekeeper.ahead.
  cbn [Gatekeeper.iat Gatekeeper.nbf Gatekeeper.exp Gatekeeper.iss
       Gatekeeper.aud Gatekeeper.audiences Gatekeeper.falsy].
  split; [|split].
  - intros [Hlo Hhi].
    rewrite (proj2 (Z.leb_le _ _) Hlo), (proj2 (Z.ltb_lt _ _) Hhi).
    reflexivity.
  - intros Hlo Hexp.
    rewrite (proj2 (Z.leb_le _ _) Hlo), (proj2 (Z.ltb_ge _ _) Hexp).
    by split.
  - intros Hbehind.
    rewrite (proj2 (Z.leb_gt _ _) Hbehind). by split.
Qed.

Lemma no_space_by_computation (s : string) :
  forallb (fun c => negb (Ascii.eqb c " ")) (list_ascii_of_string s) = true →
  ∀ c, c ∈ list_ascii_of_string s → c ≠ " "%char.
Proof.
  intros H c Hc%list_elem_of_In ->.
  pose proof (proj1 (forallb_forall _ _) H " "%char Hc) as Hf.
  discriminate Hf.
Qed.

Lemma minted_token_opens_the_gate_until_it_expires_witness :
  Gatekeeper.nginx (paired_gatekeeper 1700000060) Gatekeeper.GET
    "/brokers/status"
    (assoc "Authorization"
       (upstream_headers (minted_input +:+ ".mac-k") Samples.verified))
  = Gatekeeper.Forwarded "/brokers/status"
      [ ("X-Auth-User-Id", "user-1");
        ("X-Auth-User-Email", "ops@example.com") ].
Proof.
  apply (minted_token_opens_the_gate_until_it_expires Samples.ticking_env
           (paired_gatekeeper 1700000060) Samples.verified
           Samples.end_of_second (minted_input +:+ ".mac-k") Gatekeeper.GET
           "/brokers/status").
  - vm_compute. reflexivity.
  - apply no_space_by_computation. vm_compute. reflexivity.
  - reflexivity.
  - intros sig Hsig. vm_compute in Hsig. injection Hsig as <-.
    split; vm_compute; reflexivity.
  - discriminate.
  - discriminate.
  - discriminate.
  - reflexivity.
  - vm_compute. split; [discriminate | reflexivity].
Defined.

End HandoffFacts.

(** ** The browser client in front of the relay *)

Module ClientFacts.
Import Js Edge.

Lemma session_header (token sid : string) :
  default EmptyString
    (assoc "X-Session-Id"
       ([ ("Authorization", "Bearer " +:+ token);
          ("Content-Type", "application/json") ] ++
        (if truthy (JStr sid) then [("X-Session-Id", sid)] else [])))
  = sid.
Proof.
  simpl. destruct (String.eqb_spec sid EmptyString) as [->|_]; [done|].
  simpl. reflexivity.
Qed.

Lemma auth_header (token sid : string) :
  default EmptyString
    (assoc "Authorization"
       ([ ("Authorization", "Bearer " +:+ token);
          ("Content-Type", "application/json") ] ++
        (if truthy (JStr sid) then [("X-Session-Id", sid)] else [])))
  = "Bearer " +:+ token.
Proof. reflexivity. Qed.

Lemma verifier_bearer_world env token w a w1 :
  verifySupabaseJWT env ("Bearer " +:+ token) w = (inr a, w1) →
  valid a = true →
  w1 = {| healthState := healthState w;
          now := now w + Z.max 0 (auth_getUser env token).2;
          trace := trace w ++ [EffGetUser token];
          session_events := session_events w |} ∧
  ∀ w', verifySupabaseJWT env ("Bearer " +:+ token) w'
        = (inr a, {| healthState := healthState w';
                     now := now w' + Z.max 0 (auth_getUser env token).2;
                     trace := trace w' ++ [EffGetUser token];
                     session_events := session_events w' |}).
Proof.
  unfold verifySupabaseJWT.
  assert (Hp : startsWith ("Bearer " +:+ token) "Bearer " = true)
    by apply EdgeFacts.prefix_app.
  rewrite Hp, EdgeMore.strip_bearer. simpl negb. cbv iota.
  destruct (createClient _ _).
  { unfold ret, ok. by intros [= <- _]. }
  unfold bind, emit, elapse, ret, ok. simpl.
  intros [= <- <-] _. split; reflexivity.
Qed.

(** X25. The export buttons of the session timeline cannot work: they open
    the export URL as a navigation, which carries no Authorization header,
    and the relay answers every such request 401 "Unauthorized" with the
    message "Missing or invalid Authorization header", whatever the session
    and the format, without asking the identity provider or reading the
    session table. *)
Theorem export_buttons_are_refused
    (env : Client.Env) (sessionId format : string) (w : World) :
  Client.offline env = None →
  ∃ r,
    Client.handleExport env sessionId format w = (inr r, w) ∧
    res_status r = 401 ∧
    at_path ["error"] (Samples.json_of r) = Some (JStr "Unauthorized") ∧
    at_path ["message"] (Samples.json_of r)
    = Some (JStr "Missing or invalid Authorization header").
Proof.
  intros Hon. unfold Client.handleExport, Client.fetch. rewrite Hon.
  eexists. split; [reflexivity|]. by repeat split.
Qed.

Lemma export_buttons_are_refused_witness :
  ∃ r,
    Client.handleExport (Client.signed_in "browser-token" Scenario.live_env)
      "s-1" "csv" Samples.one_login = (inr r, Samples.one_login) ∧
    res_status r = 401 ∧
    at_path ["error"] (Samples.json_of r) = Some (JStr "Unauthorized") ∧
    at_path ["message"] (Samples.json_of r)
    = Some (JStr "Missing or invalid Authorization header").
Proof.
  apply (export_buttons_are_refused
           (Client.signed_in "browser-token" Scenario.live_env)).
  reflexivity.
Defined.

(** X26. A client without a usable session sends nothing: when the session
    lookup throws, reports an error, finds no session, or finds one with an
    empty access token, both fetches of the unified payload answer "Not
    authenticated. Please sign in." with source "error", and no request
    leaves the browser. *)
Theorem signed_out_client_sends_nothing
    (env : Client.Env) (sessionId : string) (w : World) :
  match Client.getSession env with
  | Client.GotSession (Some s) false => Client.access_token s = EmptyString
  | _ => True
  end →
  Client.getJWT env = None ∧
  Client.fetchAggregateData env sessionId w
  = (inr Client.not_authenticated, w) ∧
  Client.fetchDashboardData env sessionId w
  = (inr Client.not_authenticated, w).
Proof.
  intros Hs.
  assert (Hjwt : Client.getJWT env = None).
  { unfold Client.getJWT, Client.getAuthState.
    destruct (Client.getSession env) as [[s|] []|]; try done.
    simpl in *. by rewrite Hs. }
  split; [done|].
  unfold Client.fetchAggregateData, Client.fetchDashboardData, try_catch,
    Client.buildHeaders.
  by rewrite Hjwt.
Qed.

Lemma signed_out_client_sends_nothing_witness :
  Client.getJWT {| Client.getSession := Client.GotSession None false;
                   Client.offline := None;
                   Client.relay := Scenario.live_env |} = None ∧
  Client.fetchAggregateData
    {| Client.getSession := Client.GotSession None false;
       Client.offline := None;
       Client.relay := Scenario.live_env |} "s-1" Samples.cold_start
  = (inr Client.not_authenticated, Samples.cold_start) ∧
  Client.fetchDashboardData
    {| Client.getSession := Client.GotSession None false;
       Client.offline := None;
       Client.relay := Scenario.live_env |} "s-1" Samples.cold_start
  = (inr Client.not_authenticated, Samples.cold_start).
Proof.
  apply (signed_out_client_sends_nothing
           {| Client.getSession := Client.GotSession None false;
              Client.offline := None;
              Client.relay := Scenario.live_env |}).
  exact I.
Defined.

(** X27. What the browser shows is what the relay decided.  For a client
    that is online and holds an access token: when the relay does not
    verify the token, the fetch of the unified payload reports "Session
    expired. Please sign in again." after a single request; when the relay
    verifies it and the aggregation returns a payload, the client gets that
    payload as it crosses the wire, with source "vps" and no error, and the
    session id the client was given is the one the relay records under. *)
Theorem browser_shows_what_the_relay_decided
    (env : Client.Env) (sessionId token : string) (w w1 : World)
    (a : AuthResult) :
  Client.offline env = None →
  Client.getJWT env = Some token →
  verifySupabaseJWT (Client.relay env) ("Bearer " +:+ token) w = (inr a, w1) →
  (valid a = false →
   Client.fetchAggregateData env sessionId w
   = (inr Client.session_expired, w1)) ∧
  (valid a = true →
   VPS_METRICS_ENDPOINT (config (Client.relay env)) ≠ EmptyString →
   ∀ p rs total w2,
     fetchAndAggregateMetrics (Client.relay env) a sessionId w1
     = (inr (p, rs, total), w2) →
     Client.fetchAggregateData env sessionId w
     = (inr {| Client.data := Client.wire p; Client.error := JNull;
               Client.source := "vps" |}, w2)).
Proof.
  intros Hon Hjwt Hv.
  unfold Client.fetchAggregateData, try_catch, Client.buildHeaders.
  rewrite Hjwt. unfold Client.fetch. rewrite Hon.
  unfold app, bind.
  change (under_v1 _) with true. cbv iota.
  unfold v1_middleware, bind, header. cbn [req_headers].
  rewrite auth_header, Hv.
  split.
  - intros ->. reflexivity.
  - intros -> Hvps p rs total w2 Hagg. cbn [negb].
    unfold Date_now, ok.
    unfold v1_route. cbn [req_path].
    change (String.eqb "/metrics-proxy-jwt/v1/metrics/aggregate"
              "/metrics-proxy-jwt/v1/metrics/aggregate") with true.
    cbv iota. unfold v1_aggregate, try_catch, bind, header.
    cbn [req_headers].
    rewrite (EdgeFacts.vps_configured _ Hvps).
    rewrite session_header, Hagg.
    reflexivity.
Qed.

Lemma browser_shows_what_the_relay_decided_witness :
  Client.fetchAggregateData (Client.signed_in "stale-token" Scenario.live_env)
    "s-1" Samples.cold_start
  = (inr Client.session_expired,
     {| healthState := ∅; now := 1700000000128;
        trace := [EffGetUser "stale-token"]; session_events := [] |}).
Proof.
  apply (proj1 (browser_shows_what_the_relay_decided
                  (Client.signed_in "stale-token" Scenario.live_env)
                  "s-1" "stale-token" Samples.cold_start
                  {| healthState := ∅; now := 1700000000128;
                     trace := [EffGetUser "stale-token"];
                     session_events := [] |}
                  (auth_failure "invalid JWT")
                  eq_refl eq_refl eq_refl)).
  reflexivity.
Defined.

Lemma fetchDashboardData_returns env sid w :
  ∃ x w', Client.fetchDashboardData env sid w = (inr x, w').
Proof. unfold Client.fetchDashboardData. apply EdgeFacts.try_catch_returns. Qed.

(** X28. A versioned fetch that fails is tried again on the legacy route.
    Whenever the versioned route answers with a status that is neither 401
    nor 2xx, the client's result is that of the deprecated fetch made next,
    so the relay serves the request twice.  With the upstream base address
    unset at the relay, a signed-in client is told "VPS endpoint not
    configured" only after the identity provider has been asked about its
    token twice; no upstream call is made and the health map is not
    touched. *)
Theorem failed_versioned_fetch_is_retried_on_the_legacy_route
    (env : Client.Env) (sessionId token : string) (w w1 : World)
    (a : AuthResult) :
  Client.offline env = None →
  Client.getJWT env = Some token →
  verifySupabaseJWT (Client.relay env) ("Bearer " +:+ token) w = (inr a, w1) →
  valid a = true →
  (∀ headers r w',
     Client.buildHeaders env sessionId = Some headers →
     app (Client.relay env)
       {| req_path := "/metrics-proxy-jwt/v1/metrics/aggregate";
          req_query := []; req_headers := headers |} w = (inr r, w') →
     res_status r ≠ 401 → res_ok (res_status r) = false →
     Client.fetchAggregateData env sessionId w
     = Client.fetchDashboardData env sessionId w') ∧
  (VPS_METRICS_ENDPOINT (config (Client.relay env)) = EmptyString →
   ∃ w2,
     Client.fetchAggregateData env sessionId w
     = (inr {| Client.data := JNull;
               Client.error := JStr "VPS endpoint not configured";
               Client.source := "error" |}, w2) ∧
     trace w2 = trace w ++ [EffGetUser token; EffGetUser token] ∧
     healthState w2 = healthState w ∧
     session_events w2 = session_events w).
Proof.
  intros Hon Hjwt Hv Hvalid.
  destruct (verifier_bearer_world _ _ _ _ _ Hv Hvalid) as (Hw1 & Hagain).
  split.
  - intros headers r w' Hh Happ H401 Hok.
    unfold Client.fetchAggregateData, try_catch. rewrite Hh.
    unfold Client.fetch, bind. rewrite Hon, Happ.
    rewrite (proj2 (Nat.eqb_neq _ _) H401), Hok.
    destruct (fetchDashboardData_returns env sessionId w') as (x & w2 & ->).
    reflexivity.
  - intros Hvps.
    unfold Client.fetchAggregateData, Client.fetchDashboardData, try_catch,
      Client.buildHeaders.
    rewrite Hjwt. unfold Client.fetch. rewrite Hon.
    unfold app, bind. cbn [req_path].
    change (under_v1 "/metrics-proxy-jwt/v1/metrics/aggregate") with true.
    change (under_v1 "/metrics-proxy-jwt/dashboard") with false.
    cbv iota.
    unfold v1_middleware, dashboard, try_catch, bind, header.
    cbn [req_headers req_path]. rewrite !auth_header, Hv, Hvalid.
    cbn [negb]. unfold Date_now, ok, v1_route. cbn [req_path].
    change (String.eqb "/metrics-proxy-jwt/v1/metrics/aggregate"
              "/metrics-proxy-jwt/v1/metrics/aggregate") with true.
    cbv iota. unfold v1_aggregate, try_catch. rewrite Hvps.
    cbn -[verifySupabaseJWT].
    rewrite (Hagain w1), Hvalid. cbn.
    eexists. split; [reflexivity|]. cbn. rewrite Hw1. cbn.
    by rewrite <- app_assoc.
Qed.

Lemma failed_versioned_fetch_is_retried_on_the_legacy_route_witness :
  ∃ w2,
    Client.fetchAggregateData
      (Client.signed_in "browser-token"
         (Samples.unconfigured_env Samples.unreachable_upstream))
      "s-1" Samples.cold_start
    = (inr {| Client.data := JNull;
              Client.error := JStr "VPS endpoint not configured";
              Client.source := "error" |}, w2) ∧
    trace w2 = [EffGetUser "browser-token"; EffGetUser "browser-token"] ∧
    healthState w2 = ∅ ∧
    session_events w2 = [].
Proof.
  apply (proj2 (failed_versioned_fetch_is_retried_on_the_legacy_route
                  (Client.signed_in "browser-token"
                     (Samples.unconfigured_env Samples.unreachable_upstream))
                  "s-1" "browser-token" Samples.cold_start
                  {| healthState := ∅; now := 1700000000128;
                     trace := [EffGetUser "browser-token"];
                     session_events := [] |}
                  Samples.verified eq_refl eq_refl eq_refl eq_refl)).
  reflexivity.
Defined.

(** X29. The health check of the client reads the public root of the relay:
    online it reports the relay healthy with auth "jwt", and the upstream as
    configured exactly when the relay has a base address; it sends no
    credential and nothing is asked of the identity provider.  When the
    request fails it reports unhealthy, auth "unknown", not configured. *)
Theorem proxy_health_reads_the_public_root (env : Client.Env) (w : World) :
  (Client.offline env = None →
   Client.checkProxyHealth env w
   = (inr {| Client.healthy := true;
             Client.auth := JStr "jwt";
             Client.vpsConfigured :=
               JBool (negb (String.eqb
                              (VPS_METRICS_ENDPOINT (config (Client.relay env)))
                              EmptyString)) |}, w)) ∧
  (∀ e, Client.offline env = Some e →
        Client.checkProxyHealth env w = (inr Client.unhealthy, w)).
Proof.
  unfold Client.checkProxyHealth, try_catch, Client.fetch.
  split.
  - intros ->. unfold app, bind. cbn [req_path].
    change (under_v1 "/metrics-proxy-jwt") with false. cbv iota.
    change (String.eqb "/metrics-proxy-jwt" "/metrics-proxy-jwt") with true.
    cbv iota. cbn. unfold or_else.
    by destruct (String.eqb (VPS_METRICS_ENDPOINT _) EmptyString).
  - intros e ->. reflexivity.
Qed.

End ClientFacts.

(** ** The API-key relay *)

Module KeyProxyFacts.
Import Js Edge.

Lemma substring_of_prefix (key post : string) :
  String.substring 0 (String.length key) (key +:+ post) = key.
Proof.
  induction key as [|c key IH]; [by destruct post|].
  change (String c key +:+ post) with (String c (key +:+ post)).
  simpl. by rewrite IH.
Qed.

Lemma substring_of_middle (pre key post : string) :
  String.substring (String.length pre) (String.length key)
    (pre +:+ key +:+ post) = key.
Proof.
  induction pre as [|c pre IH]; [exact (substring_of_prefix key post)|].
  change (String c pre +:+ key +:+ post)
    with (String c (pre +:+ key +:+ post)).
  simpl. exact IH.
Qed.

Lemma includes_embedded (pre key post : string) :
  KeyProxy.includes (pre +:+ key +:+ post) key = true.
Proof.
  unfold KeyProxy.includes.
  destruct (String.index 0 key (pre +:+ key +:+ post)) eqn:Hi; [done|].
  exfalso. destruct key as [|c key].
  - destruct (pre +:+ EmptyString +:+ post); simpl in Hi; discriminate.
  - apply (String.index_correct3 0 (String.length pre)) in Hi;
      [|done|lia].
    apply Hi, substring_of_middle.
Qed.

Lemma allowed_nonempty path :
  KeyProxy.path_allowed path = true →
  negb (truthy (JStr path)) || negb (KeyProxy.path_allowed path) = false.
Proof.
  intros Hp. rewrite Hp, orb_false_r. simpl. rewrite negb_involutive.
  apply String.eqb_neq. intros ->. by vm_compute in Hp.
Qed.

(** X30. The key check of the earlier relay is a substring test that an
    unset key disables.  For a whitelisted path the relay answers 401
    "Unauthorized" exactly when a key is configured and does not occur
    anywhere in the Authorization header; any header that contains the key
    passes, whatever surrounds it, and with no key configured every caller
    passes.  A caller that passes never has its own header forwarded: the
    one upstream call carries "Bearer " followed by the relay's key. *)
Theorem api_key_check_is_a_substring_test
    (env : KeyProxy.Env) (req : Request) (w : World) :
  let key := KeyProxy.PROXY_API_KEY env in
  let sent := header req "Authorization" in
  KeyProxy.path_allowed (query req "path") = true →
  (KeyProxy.proxy env req w = (inr KeyProxy.unauthorized, w) ↔
   key ≠ EmptyString ∧ KeyProxy.includes sent key = false) ∧
  (∀ pre post, sent = pre +:+ key +:+ post →
               KeyProxy.proxy env req w ≠ (inr KeyProxy.unauthorized, w)) ∧
  (∀ url hdrs,
     EffFetch url hdrs ∈ trace (KeyProxy.proxy env req w).2 →
     EffFetch url hdrs ∈ trace w ∨
     (url = KeyProxy.VPS_METRICS_ENDPOINT env +:+ query req "path" ∧
      assoc "Authorization" hdrs = Some ("Bearer " +:+ key))).
Proof.
  intros key sent Hallowed.
  pose proof (allowed_nonempty _ Hallowed) as Hpath.
  assert (Hiff : KeyProxy.proxy env req w = (inr KeyProxy.unauthorized, w) ↔
                 key ≠ EmptyString ∧ KeyProxy.includes sent key = false).
  { unfold KeyProxy.proxy, try_catch, bind. rewrite Hpath. fold key sent.
    destruct (truthy (JStr key)) eqn:Hk;
      destruct (KeyProxy.includes sent key) eqn:Hi; cbn [andb negb].
    2: { split; [intros _|done]. split; [|done].
         intros Hkey. rewrite Hkey in Hk. discriminate Hk. }
    all: split;
      [|intros [Hne Hf];
        first [ discriminate Hf
              | exfalso; apply Hne; simpl in Hk;
                by apply negb_false_iff, String.eqb_eq in Hk ]].
    all: destruct (negb (truthy (JStr (KeyProxy.VPS_METRICS_ENDPOINT env))));
      [discriminate|].
    all: unfold emit, elapse, raise, ret, Date_now, ok; cbn [fst snd].
    all: destruct (KeyProxy.fetch env _ _).1 as [e|st txt [d|]];
      try destruct (negb (res_ok st)); try destruct (body_allowed st);
      discriminate. }
  split; [exact Hiff|]. split.
  - intros pre post Hsent Hun. apply Hiff in Hun as [_ Hno].
    rewrite Hsent, includes_embedded in Hno. discriminate.
  - intros url hdrs.
    unfold KeyProxy.proxy, try_catch, bind. rewrite Hpath. fold key sent.
    destruct (truthy (JStr key) && negb (KeyProxy.includes sent key));
      [by left|].
    destruct (negb (truthy (JStr (KeyProxy.VPS_METRICS_ENDPOINT env))));
      [by left|].
    unfold emit, elapse, raise, ret, Date_now, ok. cbn [fst snd].
    destruct (KeyProxy.fetch env _ _).1 as [e|st txt [d|]];
      try destruct (negb (res_ok st)); try destruct (body_allowed st);
      cbn [snd trace];
      (intros [Hin|Hin]%elem_of_app; [by left|];
       apply list_elem_of_singleton in Hin; injection Hin as -> ->;
       right; by split).
Qed.

Lemma api_key_check_is_a_substring_test_witness :
  KeyProxy.proxy KeyProxy.keyed
    {| req_path := "/metrics-proxy/proxy";
       req_query := [("path", "/brokers/status")];
       req_headers := [("Authorization", "Basic xk3yx")] |}
    Samples.cold_start
  ≠ (inr KeyProxy.unauthorized, Samples.cold_start).
Proof.
  apply (proj1 (proj2 (api_key_check_is_a_substring_test KeyProxy.keyed
                         {| req_path := "/metrics-proxy/proxy";
                            req_query := [("path", "/brokers/status")];
                            req_headers := [("Authorization", "Basic xk3yx")] |}
                         Samples.cold_start eq_refl))
           "Basic x" "x").
  reflexivity.
Defined.

End KeyProxyFacts.

